(** * City-directory search: address normalisation, listing aggregation
      and year-run compression

    A shallow embedding of the pure core of [app.py]: the helpers
    [normalize_addr] and [parse_address_for_sort], the schema resolution of
    [find_and_combine_address_columns] and [read_input], the aggregator
    [format_year_listing], the compressor [compress_year_runs] and the row
    builders of the two report documents.

    Conventions of the model.
    - Python text is a Rocq [string], one [ascii] per character.  Whitespace
      ([str.strip], the regex class [\s]), digits ([\d]) and [str.upper] are
      modelled on the ASCII range; characters above 127 are neither
      whitespace nor digits and have no case.
    - Python integers are [Z]; [int(...)] of a digit string has no size
      limit.
    - A value that may be an integer or a string (a year label) is a
      [pyval]; a call that raises [TypeError] or [ValueError] has this
      exception as its outcome.
    - A cell of a pandas frame is a [cell]: missing, integer or text.
      Floating-point cells are outside the model.
    - A number read from a YEAR cell is a [numeric]: NaN, an infinity or a
      finite decimal number.  Integer cells, integer literals, the names of
      the infinities and text without a digit are read as pandas reads
      them; the reading of other text is left to the float parser, a
      parameter of the aggregator.  [astype(int)] takes the integer part
      and wraps it into 64 bits, as the cast of an unsigned integer does;
      neither the rounding of a float of 64 bits nor its cast beyond this
      range is modelled. *)

From Stdlib Require Import ZArith List Bool Ascii String Lia.
From Stdlib Require Import Sorting.Sorted Sorting.Permutation.
From Stdlib Require Import DecimalString OrderedTypeEx.
Import ListNotations.

Local Open Scope string_scope.
Local Open Scope list_scope.
Local Open Scope Z_scope.

(** * The program *)

(** ** Python text primitives *)

Module Py.

(** [str.isspace] on the ASCII range: TAB..CR, FS..US and the space. *)
Definition isspace (c : ascii) : bool :=
  let n := nat_of_ascii c in
  ((9 <=? n) && (n <=? 13) || (28 <=? n) && (n <=? 32))%nat.

(** The regex class [\d] on the ASCII range. *)
Definition isdigit (c : ascii) : bool :=
  let n := nat_of_ascii c in ((48 <=? n) && (n <=? 57))%nat.

Definition upper_char (c : ascii) : ascii :=
  let n := nat_of_ascii c in
  if ((97 <=? n) && (n <=? 122))%nat then ascii_of_nat (n - 32) else c.

(** [s.upper()] *)
Fixpoint upper (s : string) : string :=
  match s with
  | EmptyString => EmptyString
  | String c s' => String (upper_char c) (upper s')
  end.

(** [s.lstrip()] *)
Fixpoint lstrip (s : string) : string :=
  match s with
  | EmptyString => EmptyString
  | String c s' => if isspace c then lstrip s' else s
  end.

(** [s.rstrip()] *)
Fixpoint rstrip (s : string) : string :=
  match s with
  | EmptyString => EmptyString
  | String c s' =>
      match rstrip s' with
      | EmptyString => if isspace c then EmptyString else String c EmptyString
      | r => String c r
      end
  end.

(** [s.strip()] *)
Definition strip (s : string) : string := rstrip (lstrip s).

(** [re.sub(r"\s+", " ", s)], scanning left to right: the first character
    of a whitespace run emits the replacement, the rest of the run belongs
    to the same match and emits nothing.  [in_run] tells whether the
    previous character was part of a match. *)
Fixpoint sub_ws_from (in_run : bool) (s : string) : string :=
  match s with
  | EmptyString => EmptyString
  | String c s' =>
      if isspace c then
        if in_run then sub_ws_from true s'
        else String " " (sub_ws_from true s')
      else String c (sub_ws_from false s')
  end.

Definition sub_ws (s : string) : string := sub_ws_from false s.

(** [str(n)] and [f"{n}"] for an integer. *)
Definition str_of_int (z : Z) : string :=
  NilZero.string_of_int (Z.to_int z).

(** The longest prefix of digits, and what follows it. *)
Fixpoint take_digits (s : string) : string :=
  match s with
  | String c s' => if isdigit c then String c (take_digits s') else EmptyString
  | EmptyString => EmptyString
  end.

Fixpoint drop_digits (s : string) : string :=
  match s with
  | String c s' => if isdigit c then drop_digits s' else s
  | EmptyString => EmptyString
  end.

(** [int(ds)] for a string of digits, most significant first. *)
Fixpoint int_of_digits_from (acc : Z) (ds : string) : Z :=
  match ds with
  | EmptyString => acc
  | String c ds' =>
      int_of_digits_from (10 * acc + (Z.of_nat (nat_of_ascii c) - 48)) ds'
  end.

Definition int_of_digits (ds : string) : Z := int_of_digits_from 0 ds.

(** Values that are an integer or a string at run time. *)
Inductive pyval : Type :=
| PInt (z : Z)
| PStr (s : string).

(** [str(v)] *)
Definition str (v : pyval) : string :=
  match v with
  | PInt z => str_of_int z
  | PStr s => s
  end.

(** [a == b]: values of different types are unequal. *)
Definition eqb (a b : pyval) : bool :=
  match a, b with
  | PInt x, PInt y => (x =? y)%Z
  | PStr s, PStr t => (s =? t)%string
  | _, _ => false
  end.

(** [v + 1]: defined on integers; on a string it raises [TypeError]. *)
Definition add1 (v : pyval) : option pyval :=
  match v with
  | PInt z => Some (PInt (z + 1))
  | PStr _ => None
  end.

(** The outcome of a call that may raise [TypeError] or [ValueError]. *)
Inductive result (A : Type) : Type :=
| Ok (a : A)
| TypeError
| ValueError.
Arguments Ok {A} a.
Arguments TypeError {A}.
Arguments ValueError {A}.

Definition bind {A B : Type} (r : result A) (k : A -> result B) : result B :=
  match r with
  | Ok a => k a
  | TypeError => TypeError
  | ValueError => ValueError
  end.

End Py.

Arguments Py.isspace : simpl never.
Arguments Py.isdigit : simpl never.
Arguments Py.upper_char : simpl never.
Arguments Py.str_of_int : simpl never.

Notation "x <- c ;; k" := (Py.bind c (fun x => k))
  (at level 61, c at next level, right associativity).

(** ** Helpers of the application *)

(** [normalize_addr(addr)] for a string argument. *)
Definition normalize_addr (addr : string) : string :=
  let s := Py.strip addr in
  let s := Py.sub_ws s in
  s.

(** ** Run compressor *)

(** A row of the aggregated frame: the cells of its columns "Year(s)" and
    "Occupant Listed". *)
Definition year_row : Type := Py.pyval * string.

(** [f"{start_y}-{prev_y}" if start_y != prev_y else f"{start_y}"] *)
Definition label (start_y prev_y : Py.pyval) : string :=
  if negb (Py.eqb start_y prev_y)
  then Py.str start_y ++ "-" ++ Py.str prev_y
  else Py.str start_y.

(** The [for] loop of [compress_year_runs] over [zip(years[1:], occs[1:])],
    with its four variables; [rows.append] adds at the end. *)
Fixpoint compress_loop (start_y prev_y : Py.pyval) (prev_occ : string)
    (rest : list year_row) (rows : list year_row)
  : Py.result (list year_row) :=
  match rest with
  | [] => Py.Ok (rows ++ [(Py.PStr (label start_y prev_y), prev_occ)])
  | (y, occ) :: rest' =>
      match Py.add1 prev_y with
      | None => Py.TypeError
      | Some next_y =>
          let contiguous := Py.eqb y next_y in
          let same_occ := String.eqb occ prev_occ in
          if contiguous && same_occ
          then compress_loop start_y y prev_occ rest' rows
          else compress_loop y y occ rest'
                 (rows ++ [(Py.PStr (label start_y prev_y), prev_occ)])
      end
  end.

(** [all(str(y) == "N/A" for y in years)] *)
Definition all_na (out_df : list year_row) : bool :=
  forallb (fun r => String.eqb (Py.str (fst r)) "N/A") out_df.

Definition compress_year_runs (out_df : list year_row)
  : Py.result (list year_row) :=
  match out_df with
  | [] => Py.Ok []
  | (y0, occ0) :: tl =>
      if all_na out_df then Py.Ok out_df
      else compress_loop y0 y0 occ0 tl []
  end.

(** ** Library operations on sequences *)

Section Sequences.
Context {A : Type}.

(** Membership in a Python set or list, by an equality test. *)
Definition mem (eqb : A -> A -> bool) (x : A) (l : list A) : bool :=
  existsb (eqb x) l.

(** The values of a sequence without repetition, each at its first
    occurrence: pandas' [drop_duplicates()] and the keys of a [groupby]. *)
Fixpoint unique_from (eqb : A -> A -> bool) (seen l : list A) : list A :=
  match l with
  | [] => []
  | x :: tl =>
      if mem eqb x seen then unique_from eqb seen tl
      else x :: unique_from eqb (x :: seen) tl
  end.

Definition unique (eqb : A -> A -> bool) (l : list A) : list A :=
  unique_from eqb [] l.

(** A stable sort for the order [leb]: Python's [sorted] and pandas'
    [sort_values]; equal elements keep their order. *)
Fixpoint insert_sorted (leb : A -> A -> bool) (x : A) (l : list A)
  : list A :=
  match l with
  | [] => [x]
  | y :: tl => if leb x y then x :: l else y :: insert_sorted leb x tl
  end.

Fixpoint stable_sort (leb : A -> A -> bool) (l : list A) : list A :=
  match l with
  | [] => []
  | x :: tl => insert_sorted leb x (stable_sort leb tl)
  end.
End Sequences.

(** ** Frames *)

(** A cell of a frame: Python's [None], a missing value (NaN), an integer
    or text. *)
Inductive cell : Type :=
| CNone
| CNaN
| CInt (z : Z)
| CStr (s : string).

(** [pd.isna] *)
Definition isna (c : cell) : bool :=
  match c with
  | CNone | CNaN => true
  | _ => false
  end.

(** [str(c)], also what [astype(str)] makes of a cell. *)
Definition cell_str (c : cell) : string :=
  match c with
  | CNone => "None"
  | CNaN => "nan"
  | CInt z => Py.str_of_int z
  | CStr s => s
  end.

(** [normalize_addr] as [Series.apply] calls it, on any cell: the [None]
    test, then [str(addr)]. *)
Definition normalize_addr_obj (addr : cell) : string :=
  match addr with
  | CNone => ""
  | _ => normalize_addr (cell_str addr)
  end.

(** The canonical table read by the aggregator, row by row: the cells of
    ADDRESS, YEAR and LISTING.  ADDRESS, once resolved, holds strings.  The
    columns YEAR and LISTING may be absent; the cells of an absent column
    are not read. *)
Record row : Type := mkRow { ADDRESS : string; YEAR : cell; LISTING : cell }.

Record DataFrame : Type :=
  mkFrame { has_YEAR : bool; has_LISTING : bool; rows : list row }.

(** [df[df["ADDRESS"] == addr].copy()] *)
Definition select_address (df : DataFrame) (addr : string) : DataFrame :=
  {| has_YEAR := has_YEAR df;
     has_LISTING := has_LISTING df;
     rows := filter (fun r => String.eqb (ADDRESS r) addr) (rows df) |}.

(** ** Listing aggregator *)

(** [combine_listings]: the loop over [series.tolist()] with the set [seen]
    and the list [out]. *)
Fixpoint combine_loop (items seen out : list string) : list string :=
  match items with
  | [] => out
  | item :: tl =>
      if negb (mem String.eqb item seen)
      then combine_loop tl (item :: seen) (out ++ [item])
      else combine_loop tl seen out
  end.

Definition combine_listings (series : list string) : string :=
  String.concat ", " (combine_loop series [] []).

(** [astype(str).str.strip()] on a LISTING cell. *)
Definition listing_text (c : cell) : string := Py.strip (cell_str c).

(** [s.str.len() > 0] *)
Definition nonempty (s : string) : bool := (0 <? String.length s)%nat.

(** The order of [sort_values(["YEAR", "LISTING"], ascending=[True, True])]. *)
Definition row_leb (a b : Z * string) : bool :=
  (fst a <? fst b) || ((fst a =? fst b) && String.leb (snd a) (snd b)).

Definition sort_values (t : list (Z * string)) : list (Z * string) :=
  stable_sort row_leb t.

(** [groupby("YEAR", as_index=False)["LISTING"]]: the distinct years in
    ascending order, each with the listings of its rows in frame order; a
    frame without rows has no group. *)
Definition groupby_year (t : list (Z * string)) : list (Z * list string) :=
  map (fun y => (y, map snd (filter (fun r => fst r =? y) t)))
      (stable_sort Z.leb (unique Z.eqb (map fst t))).

(** ** Numeric years *)

(** What [pd.to_numeric(..., errors="coerce")] makes of a cell: NaN, an
    infinity, or a finite number [mantissa * 10 ^ exponent]. *)
Inductive numeric : Type :=
| NumNaN
| NumInf
| NumFinite (mantissa exponent : Z).

(** [Series.isna] on a numeric value. *)
Definition isnan (n : numeric) : bool :=
  match n with
  | NumNaN => true
  | _ => false
  end.

(** The white space that the number parser skips: TAB..CR and the space. *)
Definition c_isspace (c : ascii) : bool :=
  let n := nat_of_ascii c in
  ((9 <=? n) && (n <=? 13) || (n =? 32))%nat.

Fixpoint c_lstrip (s : string) : string :=
  match s with
  | EmptyString => EmptyString
  | String c s' => if c_isspace c then c_lstrip s' else s
  end.

Fixpoint c_blank (s : string) : bool :=
  match s with
  | EmptyString => true
  | String c s' => c_isspace c && c_blank s'
  end.

Fixpoint has_digit (s : string) : bool :=
  match s with
  | EmptyString => false
  | String c s' => Py.isdigit c || has_digit s'
  end.

(** The sign of a number and what follows it. *)
Definition split_sign (s : string) : bool * string :=
  match s with
  | String "-" u => (true, u)
  | String "+" u => (false, u)
  | _ => (false, s)
  end.

(** The value of an integer literal: white space, a sign, digits and white
    space, of which only the digits are required. *)
Definition integer_literal (s : string) : option Z :=
  let '(negative, u) := split_sign (c_lstrip s) in
  let ds := Py.take_digits u in
  match ds with
  | EmptyString => None
  | _ =>
      if c_blank (Py.drop_digits u)
      then Some (if negative then - Py.int_of_digits ds else Py.int_of_digits ds)
      else None
  end.

(** The names of the infinities, read without regard to case. *)
Definition inf_words : list string :=
  ["INF"; "+INF"; "-INF"; "INFINITY"; "+INFINITY"; "-INFINITY"].

Definition inf_word (s : string) : bool :=
  mem String.eqb (Py.upper s) inf_words.

(** The integer part of [mantissa * 10 ^ exponent], towards zero. *)
Definition truncate (mantissa exponent : Z) : Z :=
  if 0 <=? exponent then mantissa * 10 ^ exponent
  else Z.quot mantissa (10 ^ (- exponent)).

(** A signed integer of 64 bits holds its value modulo [2 ^ 64]. *)
Definition wrap_int64 (z : Z) : Z := (z + 2 ^ 63) mod 2 ^ 64 - 2 ^ 63.

(** [astype(int)] on one value; a value that is not finite has no
    integer. *)
Definition astype_int (n : numeric) : option Z :=
  match n with
  | NumFinite mantissa exponent => Some (wrap_int64 (truncate mantissa exponent))
  | NumNaN | NumInf => None
  end.

(** [t["YEAR"].astype(int)] on the rows of a frame: it raises [ValueError]
    when a year is not finite. *)
Fixpoint astype_int_rows (t : list (numeric * cell))
  : Py.result (list (Z * cell)) :=
  match t with
  | [] => Py.Ok []
  | (n, listing) :: tl =>
      match astype_int n with
      | None => Py.ValueError
      | Some y => tl' <- astype_int_rows tl ;; Py.Ok ((y, listing) :: tl')
      end
  end.

Section Aggregation.

(** The reading of text that has a digit and is not an integer literal of
    64 bits, such as a decimal fraction or a number with an exponent, and
    of an infinity name between white space: a float of 64 bits, whose
    syntax and rounding are not modelled. *)
Variable float_text : string -> numeric.

(** [pd.to_numeric(..., errors="coerce")] on text: the name of an infinity,
    an integer literal, text that the float parser reads, or text that is
    not a number and becomes NaN.  An integer literal that fits neither a
    signed nor an unsigned integer of 64 bits is read as a float. *)
Definition to_numeric_text (s : string) : numeric :=
  if inf_word s then NumInf
  else
    match integer_literal s with
    | Some z =>
        if (- 2 ^ 63 <=? z) && (z <? 2 ^ 64) then NumFinite z 0
        else float_text s
    | None =>
        if has_digit s || inf_word (Py.strip s) then float_text s
        else NumNaN
    end.

Definition to_numeric (c : cell) : numeric :=
  match c with
  | CInt z => NumFinite z 0
  | CStr s => to_numeric_text s
  | CNone | CNaN => NumNaN
  end.

(** The frame [t] of the year-aware branch when it reaches the sort:
    YEAR made numeric, its missing rows dropped, then cast to integers;
    LISTING made text and stripped, its empty rows dropped. *)
Definition year_rows (df_addr : DataFrame) : Py.result (list (Z * string)) :=
  let t := map (fun r => (to_numeric (YEAR r), LISTING r)) (rows df_addr) in
  let t := filter (fun r => negb (isnan (fst r))) t in
  t <- astype_int_rows t ;;
  let t := map (fun r => (fst r, listing_text (snd r))) t in
  Py.Ok (filter (fun r => nonempty (snd r)) t).

(** In the year-aware branch [groupby(...).apply(...)] gives a frame when
    [t] has a row; when it has none it gives a [Series], whose [rename]
    takes no [columns] and raises [TypeError]. *)
Definition format_year_listing (df_addr : DataFrame)
  : Py.result (list year_row) :=
  let has_year := has_YEAR df_addr in
  if negb has_year && negb (has_LISTING df_addr) then Py.Ok []
  else if negb has_year then
    let t := map (fun r => listing_text (LISTING r)) (rows df_addr) in
    let t := filter nonempty t in
    let unique_listings := unique String.eqb t in
    Py.Ok (map (fun l => (Py.PStr "N/A", l)) unique_listings)
  else if negb (has_LISTING df_addr) then Py.Ok []
  else
    t <- year_rows df_addr ;;
    match t with
    | [] => Py.TypeError
    | _ =>
        Py.Ok (map (fun g => (Py.PInt (fst g), combine_listings (snd g)))
                   (groupby_year (sort_values t)))
    end.

(** ** Report assembler *)

(** The body of the table of a report document stands for the document. *)

Definition subject_header : string * string :=
  ("Year(s)", "Subject Property Address(es) — Occupant Listed").

(** The loop of [build_subject_report_docx] over the selected addresses;
    [table.add_row()] adds at the end. *)
Fixpoint subject_loop (subject_selected : list string) (df : DataFrame)
    (table : list (string * string))
  : Py.result (list (string * string)) :=
  match subject_selected with
  | [] => Py.Ok table
  | addr :: rest =>
      let block := select_address df addr in
      out <- format_year_listing block ;;
      runs <- compress_year_runs out ;;
      match runs with
      | [] => subject_loop rest df (table ++ [("", (addr ++ " — No results")%string)])
      | _ =>
          subject_loop rest df
            (table ++ map (fun r => (Py.str (fst r), (addr ++ " — " ++ snd r)%string))
                          runs)
      end
  end.

Definition build_subject_report_docx (subject_selected : list string)
    (df : DataFrame) : Py.result (list (string * string)) :=
  subject_loop subject_selected df [subject_header].

Definition adjoining_header : string * string * string :=
  ("Direction", "Adjoining Property Addresses", "Occupant Listed (Year)").

Definition newline : string := String (ascii_of_nat 10) EmptyString.

(** The lines of one address: a run with an empty occupant text gives no
    line. *)
Definition adjoining_lines (runs : list year_row) : list string :=
  flat_map (fun r => if nonempty (snd r)
                     then [(snd r ++ " (" ++ Py.str (fst r) ++ ")")%string]
                     else []) runs.

Fixpoint adjoining_loop (adjoining_selected : list string) (df : DataFrame)
    (direction_map : string -> option string)
    (table : list (string * string * string))
  : Py.result (list (string * string * string)) :=
  match adjoining_selected with
  | [] => Py.Ok table
  | addr :: rest =>
      let block := select_address df addr in
      out <- format_year_listing block ;;
      runs <- compress_year_runs out ;;
      let direction :=
        match direction_map addr with Some d => d | None => "" end in
      let lines := adjoining_lines runs in
      let occ_text :=
        match lines with
        | [] => "No results"
        | _ => String.concat newline lines
        end in
      adjoining_loop rest df direction_map
        (table ++ [(direction, addr, occ_text)])
  end.

Definition build_adjoining_report_docx (adjoining_selected : list string)
    (df : DataFrame) (direction_map : string -> option string)
  : Py.result (list (string * string * string)) :=
  adjoining_loop adjoining_selected df direction_map [adjoining_header].

End Aggregation.

(** ** Schema normaliser *)

(** A table as a reader returns it, column by column: the name of each
    column and its cells, in column order.  Column names are distinct, as
    the readers of pandas make them. *)
Definition table : Type := list (string * list cell).

(** [df.columns] *)
Definition columns (df : table) : list string := map fst df.

(** [name in df.columns] *)
Definition has_column (name : string) (df : table) : bool :=
  mem String.eqb name (columns df).

(** [df[name]], for a name of [df.columns]. *)
Fixpoint column (name : string) (df : table) : list cell :=
  match df with
  | [] => []
  | (n, vals) :: tl => if String.eqb n name then vals else column name tl
  end.

(** [df[name] = vals]: the column of that name is replaced where it stands;
    a new name is added at the end. *)
Fixpoint set_column (name : string) (vals : list cell) (df : table) : table :=
  match df with
  | [] => [(name, vals)]
  | (n, v) :: tl =>
      if String.eqb n name then (n, vals) :: tl
      else (n, v) :: set_column name vals tl
  end.

(** A Python dictionary from strings to strings. *)
Definition dict : Type := list (string * string).

Fixpoint dict_get (k : string) (d : dict) : option string :=
  match d with
  | [] => None
  | (k', v) :: tl => if String.eqb k' k then Some v else dict_get k tl
  end.

Fixpoint dict_set (k v : string) (d : dict) : dict :=
  match d with
  | [] => [(k, v)]
  | (k', v') :: tl =>
      if String.eqb k' k then (k', v) :: tl else (k', v') :: dict_set k v tl
  end.

(** [{col.upper(): col for col in df.columns}] *)
Definition cols_upper (df : table) : dict :=
  fold_left (fun d col => dict_set (Py.upper col) col d) (columns df) [].

(** [series.apply(normalize_addr)]: the new cells are strings. *)
Definition apply_normalize_addr (series : list cell) : list cell :=
  map (fun a => CStr (normalize_addr_obj a)) series.

(** [combine_addresses(row)], on the two cells of the row. *)
Definition combine_addresses (c1 c2 : cell) : string :=
  let a1 := if negb (isna c1) then Py.strip (cell_str c1) else "" in
  let a2 := if negb (isna c2) then Py.strip (cell_str c2) else "" in
  let combined := Py.strip (a1 ++ " " ++ a2) in
  normalize_addr combined.

(** The messages of [st.info]. *)
Inductive info : Type :=
| Combined (addr1_col addr2_col : string)
| Using (col : string).

Definition address_patterns : list string :=
  ["STREET ADDRESS"; "STREET_ADDRESS"; "PROPERTY ADDRESS";
   "PROPERTY_ADDRESS"; "SITE ADDRESS"; "LOCATION"; "STREET"; "ADDR"].

(** The loop [for pattern in address_patterns]. *)
Fixpoint scan_address_patterns (patterns : list string) (cols : dict)
    (df : table) : table * option info :=
  match patterns with
  | [] => (df, None)
  | pattern :: rest =>
      match dict_get pattern cols with
      | Some c =>
          (set_column "ADDRESS" (apply_normalize_addr (column c df)) df,
           Some (Using c))
      | None => scan_address_patterns rest cols df
      end
  end.

(** The table returned and the message shown, if any. *)
Definition find_and_combine_address_columns (df : table)
  : table * option info :=
  let cols := cols_upper df in
  match dict_get "ADDRESS" cols with
  | Some c =>
      (set_column "ADDRESS" (apply_normalize_addr (column c df)) df, None)
  | None =>
      match dict_get "ADDRESS1" cols, dict_get "ADDRESS2" cols with
      | Some addr1_col, Some addr2_col =>
          (set_column "ADDRESS"
             (map (fun p => CStr (combine_addresses (fst p) (snd p)))
                  (List.combine (column addr1_col df) (column addr2_col df)))
             df,
           Some (Combined addr1_col addr2_col))
      | Some addr1_col, None =>
          (set_column "ADDRESS" (apply_normalize_addr (column addr1_col df)) df,
           Some (Using addr1_col))
      | None, _ => scan_address_patterns address_patterns cols df
      end
  end.

(** [series.ffill()]: a missing cell takes the last value that is not
    missing before it, if there is one. *)
Fixpoint ffill_from (prev : option cell) (series : list cell) : list cell :=
  match series with
  | [] => []
  | c :: tl =>
      if isna c
      then match prev with Some p => p | None => c end :: ffill_from prev tl
      else c :: ffill_from (Some c) tl
  end.

Definition ffill (series : list cell) : list cell := ffill_from None series.

(** What is uploaded: a delimited text file with its parsed table, or a
    workbook with the rows of its first sheet read without header and the
    table that [pd.read_excel(xls, sheet_name=0, header=h)] returns for a
    header row [h] (the default is row 0). *)
Inductive upload : Type :=
| CsvFile (read_csv : table)
| ExcelFile (raw : list (list cell)) (read_excel : nat -> table).

(** [df.columns = [str(c).strip().upper() for c in df.columns]] *)
Definition strip_upper_columns (df : table) : table :=
  map (fun col => (Py.upper (Py.strip (fst col)), snd col)) df.

(** [raw.iloc[i].astype(str).str.upper().tolist()] *)
Definition row_vals (r : list cell) : list string :=
  map (fun c => Py.upper (cell_str c)) r.

Fixpoint find_index {A : Type} (p : A -> bool) (l : list A) (i : nat)
  : option nat :=
  match l with
  | [] => None
  | x :: tl => if p x then Some i else find_index p tl (S i)
  end.

(** The two scans of the first 50 rows for a header row. *)
Definition find_header_row (raw : list (list cell)) : option nat :=
  let first_rows := firstn 50 raw in
  match find_index (fun r => mem String.eqb "ADDRESS" (row_vals r) &&
                             mem String.eqb "YEAR" (row_vals r))
                   first_rows 0 with
  | Some i => Some i
  | None =>
      find_index (fun r => mem String.eqb "ADDRESS1" (row_vals r) ||
                           mem String.eqb "COMPANY_NAME" (row_vals r))
                 first_rows 0
  end.

(** [df[mask]]: the rows of every column where the mask holds. *)
Definition select_rows (mask : list bool) (df : table) : table :=
  map (fun col => (fst col, map snd (filter fst (List.combine mask (snd col)))))
      df.

(** The table of [read_input] when it reaches the test
    ["ADDRESS" in df.columns]. *)
Definition ingested (file : upload) : table :=
  match file with
  | CsvFile read_csv => strip_upper_columns read_csv
  | ExcelFile raw read_excel =>
      match find_header_row raw with
      | None => strip_upper_columns (read_excel 0%nat)
      | Some header_row =>
          let df := strip_upper_columns (read_excel header_row) in
          if has_column "YEAR" df
          then select_rows (map (fun c => negb (isna c)) (column "YEAR" df)) df
          else df
      end
  end.

Definition read_input (file : upload) : table :=
  let df := ingested file in
  if has_column "ADDRESS" df
  then set_column "ADDRESS"
         (apply_normalize_addr (ffill (column "ADDRESS" df))) df
  else df.

(** The script after the upload: [read_input], the column names put in
    upper case, then the address resolution. *)
Definition load_addresses (file : upload) : table * option info :=
  let df := read_input file in
  let df := map (fun col => (Py.upper (fst col), snd col)) df in
  find_and_combine_address_columns df.

(** ** Address key parser *)

(** Group 1 of [re.match(r"^\s*(\d+)", s)]: the digits after the leading
    whitespace, if there is one at least. *)
Definition match_house (s : string) : option string :=
  match Py.take_digits (Py.lstrip s) with
  | EmptyString => None
  | ds => Some ds
  end.

(** Group 1 of a match of [#\s*(\d+)] that starts at the head of [s]. *)
Definition unit_here (s : string) : option string :=
  match s with
  | String "#" s' =>
      match Py.take_digits (Py.lstrip s') with
      | EmptyString => None
      | ds => Some ds
      end
  | _ => None
  end.

(** Group 1 of [re.search(r"#\s*(\d+)", s)]: the leftmost match. *)
Fixpoint search_unit (s : string) : option string :=
  match unit_here s with
  | Some ds => Some ds
  | None =>
      match s with
      | EmptyString => None
      | String _ s' => search_unit s'
      end
  end.

(** [re.sub(r"^\s*\d+\s*", "", s)] *)
Definition sub_house (s : string) : string :=
  let t := Py.lstrip s in
  match Py.take_digits t with
  | EmptyString => s
  | _ => Py.lstrip (Py.drop_digits t)
  end.

(** What follows a match of [\s*#\s*\d+\s*] that starts at the head of
    [s]. *)
Definition match_unit_marker (s : string) : option string :=
  match Py.lstrip s with
  | String "#" t =>
      let u := Py.lstrip t in
      match Py.take_digits u with
      | EmptyString => None
      | _ => Some (Py.lstrip (Py.drop_digits u))
      end
  | _ => None
  end.

(** [re.sub(r"\s*#\s*\d+\s*", " ", s)]: at each position a match is
    replaced by one space and the scan goes on after it, otherwise the
    character is copied.  Every step consumes a character, so a fuel of the
    length of [s] is never exhausted. *)
Fixpoint sub_unit_markers_fuel (fuel : nat) (s : string) : string :=
  match fuel with
  | O => s
  | S fuel' =>
      match match_unit_marker s with
      | Some rest => String " " (sub_unit_markers_fuel fuel' rest)
      | None =>
          match s with
          | EmptyString => EmptyString
          | String c s' => String c (sub_unit_markers_fuel fuel' s')
          end
      end
  end.

Definition sub_unit_markers (s : string) : string :=
  sub_unit_markers_fuel (String.length s) s.

Definition sort_key : Type := string * Z * Z * string.

Definition parse_address_for_sort (addr : string) : sort_key :=
  let a := normalize_addr addr in
  let a_up := Py.upper a in
  let house :=
    match match_house a_up with
    | Some ds => Py.int_of_digits ds
    | None => 0
    end in
  let unit :=
    match search_unit a_up with
    | Some ds => Py.int_of_digits ds
    | None => 0
    end in
  let rest := sub_house a_up in
  let rest := sub_unit_markers rest in
  let street := Py.strip (Py.sub_ws rest) in
  (street, house, unit, a_up).

(** [parse_address_for_sort] on any cell: the [None] test, then
    [str(addr)]. *)
Definition parse_address_for_sort_obj (addr : cell) : sort_key :=
  match addr with
  | CNone => ("", 0, 0, "")
  | _ => parse_address_for_sort (cell_str addr)
  end.

(** The order of Python on the key tuples: the first components that
    differ decide. *)
Definition key_leb (k1 k2 : sort_key) : bool :=
  let '(street1, house1, unit1, full1) := k1 in
  let '(street2, house2, unit2, full2) := k2 in
  match String.compare street1 street2 with
  | Lt => true
  | Gt => false
  | Eq =>
      match house1 ?= house2 with
      | Lt => true
      | Gt => false
      | Eq =>
          match unit1 ?= unit2 with
          | Lt => true
          | Gt => false
          | Eq => String.leb full1 full2
          end
      end
  end.

(** [sorted(all_addresses, key=parse_address_for_sort)] *)
Definition sort_addresses (all_addresses : list string) : list string :=
  stable_sort
    (fun a b => key_leb (parse_address_for_sort a) (parse_address_for_sort b))
    all_addresses.

(** [all_addresses]: the distinct values of the resolved ADDRESS column
    that are not blank, sorted by key. *)
Definition all_addresses (address_column : list string) : list string :=
  sort_addresses
    (filter (fun a => nonempty (Py.strip a)) (unique String.eqb address_column)).

(** ** Listing column and the start of the script *)

(** The message of [st.info] in [find_listing_column]. *)
Inductive listing_info : Type :=
| UsingAsListing (col : string).

Definition listing_patterns : list string :=
  ["FACILITY_ID"; "OCCUPANT"; "TENANT"; "BUSINESS_NAME"; "BUSINESS";
   "COMPANY"; "NAME"; "OCCUPANT_NAME"].

(** The loop [for pattern in listing_patterns]. *)
Fixpoint scan_listing_patterns (patterns : list string) (cols : dict)
    (df : table) : table * option listing_info :=
  match patterns with
  | [] => (df, None)
  | pattern :: rest =>
      match dict_get pattern cols with
      | Some c => (set_column "LISTING" (column c df) df,
                   Some (UsingAsListing c))
      | None => scan_listing_patterns rest cols df
      end
  end.

Definition find_listing_column (df : table) : table * option listing_info :=
  let cols := cols_upper df in
  match dict_get "LISTING" cols with
  | Some _ => (df, None)
  | None =>
      match dict_get "COMPANY_NAME" cols with
      | Some c => (set_column "LISTING" (column c df) df,
                   Some (UsingAsListing c))
      | None => scan_listing_patterns listing_patterns cols df
      end
  end.

(** How the script goes on after the upload: it stops with an error that
    lists the columns when no address or no listing column is found, and
    otherwise has its table, with a warning when YEAR is absent. *)
Inductive load_outcome : Type :=
| MissingAddress (available : list string)
| MissingListing (available : list string)
| Loaded (df : table) (year_warning : bool).

Definition load_directory (file : upload) : load_outcome :=
  let df := read_input file in
  let df := map (fun col => (Py.upper (fst col), snd col)) df in
  let df := fst (find_and_combine_address_columns df) in
  if negb (has_column "ADDRESS" df) then MissingAddress (columns df)
  else
    let df := fst (find_listing_column df) in
    if negb (has_column "LISTING" df) then MissingListing (columns df)
    else Loaded df (negb (has_column "YEAR" df)).

(** ** Display of one address *)

Definition no_results_row : string :=
  "<tr><td colspan='2' style='opacity:.7;'>No results</td></tr>".

(** The loop of [render_block] over the rows of the aggregated frame. *)
Fixpoint render_rows (out_df : list year_row) (rows_html : string) : string :=
  match out_df with
  | [] => rows_html
  | r :: rest =>
      let year := Py.strip (Py.str (fst r)) in
      let occ := Py.strip (snd r) in
      render_rows rest
        (rows_html ++ "<tr><td>" ++ year ++ "</td><td>" ++ occ ++ "</td></tr>")
  end.

(** The body of the table that [render_block] shows. *)
Definition render_tbody (out_df : list year_row) : string :=
  let rows_html := render_rows out_df "" in
  if nonempty rows_html then rows_html else no_results_row.

(** * Vocabulary of the properties *)

(** ** Normal form of whitespace *)

(** [tidy prev_ws s]: every whitespace character of [s] is a single space
    that does not follow whitespace ([prev_ws] speaks for the character
    before [s]), and [s] does not end in whitespace. *)
Fixpoint tidy (prev_ws : bool) (s : string) : bool :=
  match s with
  | EmptyString => negb prev_ws
  | String c s' =>
      if Py.isspace c
      then negb prev_ws && Ascii.eqb c " " && tidy true s'
      else tidy false s'
  end.

(** The last character is not whitespace; [dflt] answers for the empty
    string. *)
Fixpoint last_ok (dflt : bool) (s : string) : bool :=
  match s with
  | EmptyString => dflt
  | String c s' => last_ok (negb (Py.isspace c)) s'
  end.

Definition head_ok (s : string) : bool :=
  match s with
  | EmptyString => true
  | String c _ => negb (Py.isspace c)
  end.

(** ** Year runs *)

(** Aggregated rows whose year cells are all integers. *)
Definition int_rows (rows : list (Z * string)) : list year_row :=
  map (fun r => (Py.PInt (fst r), snd r)) rows.

(** [b] continues the run of [a]: the next year, the same occupant text. *)
Definition linked (a b : Z * string) : Prop :=
  fst b = fst a + 1 /\ snd b = snd a.

Definition linkedb (a b : Z * string) : bool :=
  (fst b =? fst a + 1) && String.eqb (snd b) (snd a).

(** A run: a non-empty sequence of rows, each continued by the next. *)
Inductive is_run : list (Z * string) -> Prop :=
| run_one a : is_run [a]
| run_cons a b l : linked a b -> is_run (b :: l) -> is_run (a :: b :: l).

(** No run of the sequence is continued by the run that follows it. *)
Inductive maximal_runs : list (list (Z * string)) -> Prop :=
| maximal_nil : maximal_runs []
| maximal_one r : maximal_runs [r]
| maximal_cons r1 r2 rs :
    (forall pre a b post,
        r1 = pre ++ [a] -> r2 = b :: post -> ~ linked a b) ->
    maximal_runs (r2 :: rs) ->
    maximal_runs (r1 :: r2 :: rs).

(** The output row of a run: "start" for one year, "start-end" for more. *)
Definition run_label (run : list (Z * string)) : year_row :=
  match run with
  | [] => (Py.PStr "", "")
  | (y0, occ) :: [] => (Py.PStr (Py.str_of_int y0), occ)
  | (y0, occ) :: tl =>
      (Py.PStr (Py.str_of_int y0 ++ "-" ++ Py.str_of_int (fst (last tl (y0, occ)))),
       occ)
  end.

(** The maximal runs of a sequence, built from its end. *)
Fixpoint runs_of (l : list (Z * string)) : list (list (Z * string)) :=
  match l with
  | [] => []
  | a :: tl =>
      match runs_of tl with
      | (b :: r) :: rs =>
          if linkedb a b then (a :: b :: r) :: rs else [a] :: (b :: r) :: rs
      | _ => [[a]]
      end
  end.

(** ** Duplicates and order *)

(** Each value kept where it first occurs, its later copies removed. *)
Fixpoint keep_first {A : Type} (eqb : A -> A -> bool) (l : list A) : list A :=
  match l with
  | [] => []
  | x :: tl => x :: filter (fun y => negb (eqb y x)) (keep_first eqb tl)
  end.

(** Ascending order of text, by code. *)
Definition str_le (a b : string) : Prop := String.leb a b = true.

Definition row_le (a b : Z * string) : Prop := row_leb a b = true.

(** A year label that is not an integer. *)
Definition is_text (v : Py.pyval) : bool :=
  match v with Py.PStr _ => true | Py.PInt _ => false end.

(** ** Column names *)

(** Some column of the table has this name when put in upper case. *)
Definition names_column (key : string) (df : table) : Prop :=
  In key (map Py.upper (columns df)).

(** The address synonyms as the specification lists them. *)
Definition spec_address_patterns : list string :=
  ["STREET ADDRESS"; "PROPERTY ADDRESS"; "SITE ADDRESS"; "LOCATION";
   "STREET"; "ADDR"].

(** ** Unit markers and the order of keys *)

Fixpoint all_chars (p : ascii -> bool) (s : string) : bool :=
  match s with
  | EmptyString => true
  | String c s' => p c && all_chars p s'
  end.

Definition head_is (p : ascii -> bool) (s : string) : bool :=
  match s with
  | EmptyString => false
  | String c _ => p c
  end.

(** [t] begins with a unit marker of digits [ds]: a "#", whitespace if any,
    then the digits [ds], all there are. *)
Definition unit_marker (t ds : string) : Prop :=
  exists ws rest,
    t = String "#" (ws ++ ds ++ rest) /\
    all_chars Py.isspace ws = true /\
    ds <> EmptyString /\
    all_chars Py.isdigit ds = true /\
    head_is Py.isdigit rest = false.

Definition key_street (k : sort_key) : string := fst (fst (fst k)).
Definition key_house (k : sort_key) : Z := snd (fst (fst k)).
Definition key_unit (k : sort_key) : Z := snd (fst k).
Definition key_full (k : sort_key) : string := snd k.

Definition str_lt (a b : string) : Prop := String.compare a b = Lt.

(** Street name first, then house number, then unit number, then the whole
    address. *)
Definition key_le (k1 k2 : sort_key) : Prop :=
  str_lt (key_street k1) (key_street k2) \/
  (key_street k1 = key_street k2 /\
   (key_house k1 < key_house k2 \/
    (key_house k1 = key_house k2 /\
     (key_unit k1 < key_unit k2 \/
      (key_unit k1 = key_unit k2 /\ str_le (key_full k1) (key_full k2)))))).

(** ** Addresses in normal form *)

(** No whitespace at either end; every whitespace character is a space and
    is followed by a character that is not whitespace. *)
Definition normal_form (s : string) : Prop :=
  (forall c t, s = String c t -> Py.isspace c = false) /\
  (forall t c, s = (t ++ String c EmptyString)%string -> Py.isspace c = false) /\
  (forall a c b, s = (a ++ String c b)%string -> Py.isspace c = true ->
                 c = " "%char) /\
  (forall a c d b, s = (a ++ String c (String d b))%string ->
                   Py.isspace c = true -> Py.isspace d = false).

(** Every whitespace character is a single space that does not follow
    whitespace; the string may end in one. *)
Fixpoint spaced (prev_ws : bool) (s : string) : bool :=
  match s with
  | EmptyString => true
  | String c s' =>
      if Py.isspace c
      then negb prev_ws && Ascii.eqb c " " && spaced true s'
      else spaced false s'
  end.

(** ** Tables and header rows *)

(** The name is its own upper-case form. *)
Definition upper_name (n : string) : Prop := Py.upper n = n.

(** A row of a sheet that names both ADDRESS and YEAR. *)
Definition eris_header (r : list cell) : bool :=
  mem String.eqb "ADDRESS" (row_vals r) && mem String.eqb "YEAR" (row_vals r).

(** A row of a sheet that names ADDRESS1 or COMPANY_NAME. *)
Definition other_header (r : list cell) : bool :=
  mem String.eqb "ADDRESS1" (row_vals r) ||
  mem String.eqb "COMPANY_NAME" (row_vals r).

(** The cells of a column at the rows where the mask holds. *)
Definition select_cells (mask : list bool) (series : list cell) : list cell :=
  map snd (filter fst (List.combine mask series)).

(** The value before a series is one that forward fill may carry. *)
Definition carried (prev : option cell) : Prop :=
  match prev with
  | Some v => isna v = false
  | None => True
  end.

(** A character other than "#". *)
Definition not_hash (c : ascii) : bool := negb (Ascii.eqb c "#").

(** * Properties *)

(** ** Whitespace normalisation *)

Lemma isspace_space : Py.isspace " " = true.
Proof. reflexivity. Qed.

Lemma head_ok_lstrip s : head_ok (Py.lstrip s) = true.
Proof.
  induction s as [|c s IH]; simpl; auto.
  destruct (Py.isspace c) eqn:E; simpl; auto. now rewrite E.
Qed.

Lemma head_ok_rstrip s : head_ok s = true -> head_ok (Py.rstrip s) = true.
Proof.
  destruct s as [|c s]; simpl; auto.
  intros H. destruct (Py.rstrip s); simpl; auto.
  destruct (Py.isspace c) eqn:E; simpl; auto. now rewrite E.
Qed.

Lemma last_ok_rstrip s : last_ok true (Py.rstrip s) = true.
Proof.
  induction s as [|c s IH]; simpl; auto.
  destruct (Py.rstrip s) as [|a r] eqn:E.
  - destruct (Py.isspace c) eqn:Ec; simpl; auto. now rewrite Ec.
  - simpl in *. exact IH.
Qed.

Lemma lstrip_head_ok s : head_ok s = true -> Py.lstrip s = s.
Proof.
  destruct s as [|c s]; simpl; auto.
  destruct (Py.isspace c); simpl; auto; discriminate.
Qed.

Lemma head_ok_sub_ws s : head_ok s = true -> head_ok (Py.sub_ws s) = true.
Proof.
  unfold Py.sub_ws. destruct s as [|c s]; simpl; auto.
  destruct (Py.isspace c) eqn:E; simpl; try discriminate.
  intros _. now rewrite E.
Qed.

Lemma tidy_sub_ws_from f s :
  last_ok (negb f) s = true -> tidy f (Py.sub_ws_from f s) = true.
Proof.
  revert f. induction s as [|c s IH]; intros f H; simpl in *; auto.
  destruct (Py.isspace c) eqn:E; simpl in H.
  - destruct f; simpl.
    + apply IH. exact H.
    + apply (IH true). exact H.
  - simpl. rewrite E. apply (IH false). exact H.
Qed.

Lemma sub_ws_from_tidy f s : tidy f s = true -> Py.sub_ws_from f s = s.
Proof.
  revert f. induction s as [|c s IH]; intros f H; simpl in *; auto.
  destruct (Py.isspace c) eqn:E.
  - apply andb_true_iff in H as [H H3]. apply andb_true_iff in H as [H1 H2].
    apply Ascii.eqb_eq in H2. subst c.
    destruct f; simpl in H1; try discriminate.
    f_equal. now apply IH.
  - f_equal. now apply IH.
Qed.

Lemma rstrip_tidy f s : tidy f s = true -> Py.rstrip s = s.
Proof.
  revert f. induction s as [|c s IH]; intros f H; simpl in *; auto.
  destruct (Py.isspace c) eqn:E.
  - apply andb_true_iff in H as [_ H3].
    rewrite (IH _ H3). destruct s; simpl in H3; [discriminate|reflexivity].
  - rewrite (IH _ H). destruct s; reflexivity.
Qed.

Lemma normalize_addr_tidy s : tidy false (normalize_addr s) = true.
Proof.
  unfold normalize_addr, Py.sub_ws, Py.strip.
  apply tidy_sub_ws_from. simpl. apply last_ok_rstrip.
Qed.

Lemma normalize_addr_head_ok s : head_ok (normalize_addr s) = true.
Proof.
  unfold normalize_addr, Py.strip.
  apply head_ok_sub_ws, head_ok_rstrip, head_ok_lstrip.
Qed.

(** A string in normal form is left unchanged. *)
Lemma normalize_addr_fixed s :
  head_ok s = true -> tidy false s = true -> normalize_addr s = s.
Proof.
  intros Hh Ht. unfold normalize_addr, Py.strip, Py.sub_ws.
  rewrite (lstrip_head_ok _ Hh), (rstrip_tidy _ _ Ht).
  now apply sub_ws_from_tidy.
Qed.

(** C9: [normalize_addr] is idempotent: for every string [s],
    [normalize_addr (normalize_addr s)] equals [normalize_addr s]. *)
Theorem normalize_addr_idempotent (s : string) :
  normalize_addr (normalize_addr s) = normalize_addr s.
Proof.
  apply normalize_addr_fixed.
  - apply normalize_addr_head_ok.
  - apply normalize_addr_tidy.
Qed.

Example normalize_addr_ex :
  normalize_addr "  123   Main	 St  " = "123 Main St".
Proof. reflexivity. Qed.

(** ** Run compression *)

Lemma linkedb_spec a b : linkedb a b = true <-> linked a b.
Proof.
  unfold linkedb, linked.
  rewrite andb_true_iff, Z.eqb_eq, String.eqb_eq. tauto.
Qed.

Lemma str_of_int_not_na z : String.eqb (Py.str_of_int z) "N/A" = false.
Proof.
  unfold Py.str_of_int.
  destruct (Z.to_int z) as [d|d]; [destruct d|]; reflexivity.
Qed.

Lemma all_na_int_rows r rows : all_na (int_rows (r :: rows)) = false.
Proof. simpl. now rewrite str_of_int_not_na. Qed.

Lemma runs_of_head b tl : exists r rs, runs_of (b :: tl) = (b :: r) :: rs.
Proof.
  simpl. destruct (runs_of tl) as [|[|c r] rs]; eauto.
  destruct (linkedb b c); eauto.
Qed.

Lemma last_cons_default {A} (a : A) l d d' :
  last (a :: l) d = last (a :: l) d'.
Proof.
  revert a. induction l as [|b l IH]; intros a; [reflexivity|].
  change (last (b :: l) d = last (b :: l) d'). apply IH.
Qed.

Lemma is_run_snoc cur a x :
  is_run cur -> last cur a = a -> linked a x -> is_run (cur ++ [x]).
Proof.
  intros Hr. revert a. induction Hr as [a0|a0 b l Hl Hr IH]; intros a Ha Hx.
  - simpl in Ha. subst. simpl. constructor; [assumption|constructor].
  - simpl. constructor; [assumption|].
    apply (IH a); [|assumption].
    change (last (a0 :: b :: l) a) with (last (b :: l) a) in Ha. exact Ha.
Qed.

(** The first and the last row of a run. *)
Lemma is_run_last a l d :
  is_run (a :: l) ->
  last (a :: l) d = (fst a + Z.of_nat (List.length l), snd a).
Proof.
  revert a. induction l as [|b l IH]; intros a Hr.
  - simpl. rewrite Z.add_0_r. now destruct a.
  - inversion Hr as [|? ? ? [Hy Ho] Hr']; subst.
    change (last (a :: b :: l) d) with (last (b :: l) d).
    rewrite (IH b Hr'), Hy, Ho. f_equal.
    change (List.length (b :: l)) with (S (List.length l)). lia.
Qed.

Lemma run_label_label s o l p :
  is_run ((s, o) :: l) -> last ((s, o) :: l) (s, o) = (p, o) ->
  run_label ((s, o) :: l) = (Py.PStr (label (Py.PInt s) (Py.PInt p)), o).
Proof.
  intros Hr Hl. pose proof (is_run_last _ _ (s, o) Hr) as E.
  rewrite Hl in E. cbn [fst snd] in E. injection E as Hp.
  unfold label. cbn [Py.eqb Py.str].
  destruct l as [|b l].
  - replace p with s by (simpl in Hp; lia). now rewrite Z.eqb_refl.
  - assert (Hne : (s =? p) = false).
    { apply Z.eqb_neq. change (List.length (b :: l)) with (S (List.length l)) in Hp. lia. }
    rewrite Hne. cbn [negb run_label].
    change (last (b :: l) (s, o)) with (last ((s, o) :: b :: l) (s, o)).
    now rewrite Hl.
Qed.

Lemma runs_of_run_app cur rest :
  is_run cur ->
  (forall pre a b post, cur = pre ++ [a] -> rest = b :: post -> ~ linked a b) ->
  runs_of (cur ++ rest) = cur :: runs_of rest.
Proof.
  intros Hr. induction Hr as [a|a b l Hl Hr IH]; intros Hm.
  - simpl. destruct rest as [|c tl]; [reflexivity|].
    destruct (runs_of_head c tl) as (r & rs & E). rewrite E.
    destruct (linkedb a c) eqn:L; [|reflexivity].
    apply linkedb_spec in L. exfalso.
    exact (Hm [] a c tl eq_refl eq_refl L).
  - change ((a :: b :: l) ++ rest) with (a :: ((b :: l) ++ rest)).
    cbn [runs_of]. rewrite IH.
    + apply linkedb_spec in Hl. now rewrite Hl.
    + intros pre x y post E1 E2. apply (Hm (a :: pre) x y post); [|assumption].
      simpl. now rewrite E1.
Qed.

Lemma runs_of_run cur : is_run cur -> runs_of cur = [cur].
Proof.
  intros Hr. rewrite <- (app_nil_r cur) at 1.
  rewrite runs_of_run_app; [reflexivity|assumption|].
  intros; discriminate.
Qed.

(** The loop, started inside the run [cur] it has read so far, emits the
    runs of what it has read and what is left. *)
Lemma compress_loop_runs rest : forall s o mid p acc,
  is_run ((s, o) :: mid) ->
  last ((s, o) :: mid) (s, o) = (p, o) ->
  compress_loop (Py.PInt s) (Py.PInt p) o (int_rows rest) acc =
  Py.Ok (acc ++ map run_label (runs_of (((s, o) :: mid) ++ rest))).
Proof.
  induction rest as [|[y occ] rest IH]; intros s o mid p acc Hr Hl.
  - rewrite app_nil_r, (runs_of_run _ Hr).
    cbn [int_rows map compress_loop].
    now rewrite (run_label_label s o mid p).
  - cbn [int_rows map compress_loop Py.add1 fst snd Py.eqb].
    fold (int_rows rest).
    destruct ((y =? p + 1) && String.eqb occ o) eqn:L.
    + apply andb_true_iff in L as [Ly Lo].
      apply Z.eqb_eq in Ly. apply String.eqb_eq in Lo. subst y occ.
      assert (Hr' : is_run (((s, o) :: mid) ++ [(p + 1, o)])).
      { apply (is_run_snoc _ (p, o)); [assumption| |split; reflexivity].
        now rewrite (last_cons_default _ _ _ (s, o)). }
      rewrite (IH s o (mid ++ [(p + 1, o)]) (p + 1) acc).
      * change ((s, o) :: mid ++ [(p + 1, o)])
          with (((s, o) :: mid) ++ [(p + 1, o)]).
        now rewrite <- app_assoc.
      * exact Hr'.
      * change ((s, o) :: mid ++ [(p + 1, o)])
          with (((s, o) :: mid) ++ [(p + 1, o)]).
        now rewrite last_last.
    + rewrite (IH y occ [] y); [|constructor|reflexivity].
      rewrite (runs_of_run_app ((s, o) :: mid) ((y, occ) :: rest) Hr).
      * cbn [map]. rewrite (run_label_label s o mid p Hr Hl).
        rewrite <- app_assoc. reflexivity.
      * intros pre a b post E1 E2 Hlk. injection E2 as <- _.
        assert (a = (p, o)) as ->.
        { rewrite <- Hl, E1. now rewrite last_last. }
        destruct Hlk as [H1 H2]. simpl in H1, H2. subst.
        rewrite Z.eqb_refl, String.eqb_refl in L. discriminate.
Qed.

Lemma runs_of_concat l : List.concat (runs_of l) = l.
Proof.
  induction l as [|a [|b tl] IH]; try reflexivity.
  destruct (runs_of_head b tl) as (r & rs & E).
  change (runs_of (a :: b :: tl))
    with (match runs_of (b :: tl) with
          | (b :: r) :: rs =>
              if linkedb a b then (a :: b :: r) :: rs else [a] :: (b :: r) :: rs
          | _ => [[a]]
          end).
  rewrite E in *. destruct (linkedb a b); simpl in *; now rewrite IH.
Qed.

Lemma runs_of_are_runs l : Forall is_run (runs_of l).
Proof.
  induction l as [|a tl IH]; simpl; [constructor|].
  destruct (runs_of tl) as [|[|b r] rs]; try (repeat constructor).
  inversion IH as [|? ? Hb Hrs]; subst.
  destruct (linkedb a b) eqn:L.
  - constructor; [|assumption]. constructor; [|assumption].
    now apply linkedb_spec.
  - repeat constructor; assumption.
Qed.

Lemma runs_of_maximal l : maximal_runs (runs_of l).
Proof.
  induction l as [|a tl IH]; simpl; [constructor|].
  destruct (runs_of tl) as [|[|b r] rs]; try constructor.
  destruct (linkedb a b) eqn:L.
  - inversion IH as [| |r1 r2 rs' Hm Hrest]; subst; constructor; try assumption.
    intros pre x y post E1 E2. destruct pre as [|a' pre].
    + discriminate.
    + injection E1 as <- E1. exact (Hm pre x y post E1 E2).
  - constructor; [|assumption].
    intros pre x y post E1 E2 Hl.
    destruct pre as [|a' [|? ?]]; try discriminate.
    injection E1 as <-. injection E2 as <- _.
    apply linkedb_spec in Hl. congruence.
Qed.

(** C1: on integer years, [compress_year_runs] cuts its input into runs of
    consecutive years with the same occupant text, no run being continued
    by the next one, and emits one row per run, labelled "start" for a run
    of one year and "start-end" otherwise; rows on both sides of a year gap
    are therefore never merged.  The empty input gives the empty output. *)
Theorem compress_year_runs_maximal_runs :
  compress_year_runs [] = Py.Ok [] /\
  forall r rows, exists runs,
    List.concat runs = r :: rows /\
    Forall is_run runs /\
    maximal_runs runs /\
    compress_year_runs (int_rows (r :: rows)) = Py.Ok (map run_label runs).
Proof.
  split; [reflexivity|].
  intros [y0 occ0] rows. exists (runs_of ((y0, occ0) :: rows)).
  split; [apply runs_of_concat|].
  split; [apply runs_of_are_runs|].
  split; [apply runs_of_maximal|].
  pose proof (all_na_int_rows (y0, occ0) rows) as G.
  unfold compress_year_runs. cbn [int_rows map fst snd] in G |- *.
  rewrite G.
  exact (compress_loop_runs rows y0 occ0 [] y0 []
           (run_one (y0, occ0)) eq_refl).
Qed.

Example compress_contiguous :
  compress_year_runs
    [(Py.PInt 1970, "A"); (Py.PInt 1971, "A"); (Py.PInt 1972, "B")]
  = Py.Ok [(Py.PStr "1970-1971", "A"); (Py.PStr "1972", "B")].
Proof. reflexivity. Qed.

Example compress_gap :
  compress_year_runs [(Py.PInt 1970, "A"); (Py.PInt 1972, "A")]
  = Py.Ok [(Py.PStr "1970", "A"); (Py.PStr "1972", "A")].
Proof. reflexivity. Qed.

(** ** Sorting and duplicates *)

Section Sort_facts.
Context {A : Type} (leb : A -> A -> bool).
Hypothesis leb_total : forall a b, leb a b = true \/ leb b a = true.
Hypothesis leb_trans :
  forall a b c, leb a b = true -> leb b c = true -> leb a c = true.

Lemma insert_sorted_perm x l : Permutation (insert_sorted leb x l) (x :: l).
Proof.
  induction l as [|y tl IH]; simpl; [reflexivity|].
  destruct (leb x y); [reflexivity|].
  rewrite IH. apply perm_swap.
Qed.

Lemma stable_sort_perm l : Permutation (stable_sort leb l) l.
Proof.
  induction l as [|x tl IH]; simpl; [reflexivity|].
  rewrite insert_sorted_perm. now constructor.
Qed.

Lemma insert_sorted_sorted x l :
  StronglySorted (fun a b => leb a b = true) l ->
  StronglySorted (fun a b => leb a b = true) (insert_sorted leb x l).
Proof.
  induction 1 as [|y tl Hs IH Hy]; simpl.
  - repeat constructor.
  - destruct (leb x y) eqn:E.
    + constructor; [now constructor|].
      constructor; [exact E|].
      eapply Forall_impl; [|exact Hy]. intros z Hz. exact (leb_trans _ _ _ E Hz).
    + constructor; [exact IH|].
      eapply Permutation_Forall; [symmetry; apply insert_sorted_perm|].
      constructor; [|exact Hy].
      destruct (leb_total x y) as [H|H]; [congruence|exact H].
Qed.

Lemma stable_sort_sorted l :
  StronglySorted (fun a b => leb a b = true) (stable_sort leb l).
Proof.
  induction l as [|x tl IH]; simpl; [constructor|].
  now apply insert_sorted_sorted.
Qed.
End Sort_facts.

Lemma string_leb_trans a b c :
  String.leb a b = true -> String.leb b c = true -> String.leb a c = true.
Proof.
  unfold String.leb. intros Hab Hbc.
  destruct (String.compare a b) eqn:Eab; try discriminate;
    destruct (String.compare b c) eqn:Ebc; try discriminate.
  - apply String_as_OT.cmp_eq in Eab, Ebc. subst.
    pose proof (proj2 (String_as_OT.cmp_eq c c) eq_refl) as H.
    unfold String_as_OT.cmp in H. now rewrite H.
  - apply String_as_OT.cmp_eq in Eab. subst. now rewrite Ebc.
  - apply String_as_OT.cmp_eq in Ebc. subst. now rewrite Eab.
  - apply String_as_OT.cmp_lt in Eab, Ebc.
    pose proof (String_as_OT.lt_trans _ _ _ Eab Ebc) as H.
    apply String_as_OT.cmp_lt in H. unfold String_as_OT.cmp in H.
    now rewrite H.
Qed.

Lemma string_leb_refl a : String.leb a a = true.
Proof. destruct (String.leb_total a a); assumption. Qed.

Lemma row_leb_iff a b :
  row_leb a b = true <->
  fst a < fst b \/ (fst a = fst b /\ String.leb (snd a) (snd b) = true).
Proof.
  unfold row_leb.
  rewrite orb_true_iff, andb_true_iff, Z.ltb_lt, Z.eqb_eq. tauto.
Qed.

Lemma row_leb_total a b : row_leb a b = true \/ row_leb b a = true.
Proof.
  rewrite !row_leb_iff.
  destruct (Z.lt_trichotomy (fst a) (fst b)) as [H|[H|H]]; auto.
  destruct (String.leb_total (snd a) (snd b)); auto.
Qed.

Lemma row_leb_trans a b c :
  row_leb a b = true -> row_leb b c = true -> row_leb a c = true.
Proof.
  rewrite !row_leb_iff.
  intros [H1|[H1 L1]] [H2|[H2 L2]]; try (left; lia).
  right. split; [lia|]. eapply string_leb_trans; eassumption.
Qed.

Lemma Z_leb_total a b : (a <=? b) = true \/ (b <=? a) = true.
Proof. rewrite !Z.leb_le. lia. Qed.

Lemma Z_leb_trans a b c :
  (a <=? b) = true -> (b <=? c) = true -> (a <=? c) = true.
Proof. rewrite !Z.leb_le. lia. Qed.

Section Unique_facts.
Context {A : Type} (eqb : A -> A -> bool).
Hypothesis eqb_eq : forall x y, eqb x y = true <-> x = y.

Lemma mem_In x l : mem eqb x l = true <-> In x l.
Proof.
  unfold mem. rewrite existsb_exists. split.
  - intros (y & Hy & E). apply eqb_eq in E. now subst.
  - intros H. exists x. split; [assumption|]. now apply eqb_eq.
Qed.

Lemma unique_from_In seen l x :
  In x (unique_from eqb seen l) <-> In x l /\ ~ In x seen.
Proof.
  revert seen. induction l as [|y tl IH]; intros seen; simpl; [tauto|].
  destruct (mem eqb y seen) eqn:M.
  - apply mem_In in M. rewrite IH. split.
    + tauto.
    + intros [[->|H] Hn]; tauto.
  - assert (Hy : ~ In y seen) by (rewrite <- mem_In; congruence).
    simpl. rewrite IH. simpl. split.
    + intros [->|[H Hn]]; tauto.
    + intros [[->|H] Hn]; [tauto|].
      destruct (eqb y x) eqn:E.
      * apply eqb_eq in E. tauto.
      * right. split; [assumption|]. intros [->|?]; [|tauto].
        rewrite (proj2 (eqb_eq x x) eq_refl) in E. discriminate.
Qed.

Lemma unique_from_NoDup seen l : NoDup (unique_from eqb seen l).
Proof.
  revert seen. induction l as [|y tl IH]; intros seen; simpl; [constructor|].
  destruct (mem eqb y seen); [apply IH|].
  constructor; [|apply IH].
  rewrite unique_from_In. simpl. tauto.
Qed.

Lemma filter_filter (p q : A -> bool) l :
  filter p (filter q l) = filter (fun x => q x && p x) l.
Proof.
  induction l as [|x l IH]; simpl; [reflexivity|].
  destruct (q x); simpl; [destruct (p x)|]; now rewrite IH.
Qed.

(** [unique] keeps first occurrences. *)
Lemma unique_from_keep_first seen l :
  unique_from eqb seen l =
  filter (fun x => negb (mem eqb x seen)) (keep_first eqb l).
Proof.
  revert seen. induction l as [|y tl IH]; intros seen; simpl; [reflexivity|].
  rewrite filter_filter.
  destruct (mem eqb y seen) eqn:M; simpl.
  - rewrite IH. apply filter_ext_in. intros x _.
    destruct (eqb x y) eqn:E; simpl; [|reflexivity].
    apply eqb_eq in E. subst. now rewrite M.
  - f_equal. rewrite IH. apply filter_ext_in. intros x _.
    unfold mem. simpl. destruct (eqb x y); simpl; [reflexivity|].
    reflexivity.
Qed.

Lemma unique_keep_first l : unique eqb l = keep_first eqb l.
Proof.
  unfold unique. rewrite unique_from_keep_first.
  rewrite (filter_ext (fun x => negb (mem eqb x [])) (fun _ => true))
    by reflexivity.
  induction (keep_first eqb l) as [|x k IH]; simpl; congruence.
Qed.
End Unique_facts.

Lemma combine_loop_unique items : forall seen out,
  combine_loop items seen out = out ++ unique_from String.eqb seen items.
Proof.
  induction items as [|x tl IH]; intros seen out; simpl.
  - now rewrite app_nil_r.
  - destruct (mem String.eqb x seen); simpl.
    + apply IH.
    + rewrite IH, <- app_assoc. reflexivity.
Qed.

(** [combine_listings] joins the first occurrences. *)
Lemma combine_listings_keep_first series :
  combine_listings series =
  String.concat ", " (keep_first String.eqb series).
Proof.
  unfold combine_listings. rewrite combine_loop_unique. simpl.
  fold (unique String.eqb series).
  now rewrite (unique_keep_first _ String.eqb_eq).
Qed.

(** ** Listing aggregation *)

Lemma Permutation_filter {A} (p : A -> bool) l l' :
  Permutation l l' -> Permutation (filter p l) (filter p l').
Proof.
  induction 1 as [|x l l' _ IH|x y l|l l' l'' _ IH1 _ IH2]; simpl.
  - constructor.
  - destruct (p x); [now constructor|assumption].
  - destruct (p x), (p y); try reflexivity. apply perm_swap.
  - now transitivity (filter p l').
Qed.

Lemma sorted_nodup_lt l :
  StronglySorted (fun a b => (a <=? b) = true) l -> NoDup l ->
  StronglySorted Z.lt l.
Proof.
  induction 1 as [|a l Hs IH Ha]; intros Hn; constructor;
    inversion Hn as [|? ? Hin Hn']; subst.
  - now apply IH.
  - rewrite Forall_forall in *. intros x Hx.
    specialize (Ha x Hx). apply Z.leb_le in Ha.
    assert (a <> x) by (intros ->; contradiction). lia.
Qed.

(** Inside a frame sorted by year and listing, the listings of one year
    are in ascending order. *)
Lemma group_sorted y l :
  StronglySorted row_le l ->
  StronglySorted str_le (map snd (filter (fun r => fst r =? y) l)).
Proof.
  induction 1 as [|a l Hs IH Ha]; simpl; [constructor|].
  destruct (fst a =? y) eqn:E; [|exact IH].
  simpl. constructor; [exact IH|].
  apply Z.eqb_eq in E. rewrite Forall_forall in *.
  intros s Hs'. apply in_map_iff in Hs' as (r & <- & Hr).
  apply filter_In in Hr as [Hr Ey]. apply Z.eqb_eq in Ey.
  specialize (Ha r Hr). apply row_leb_iff in Ha as [Ha|[_ Ha]]; [lia|exact Ha].
Qed.

Lemma groupby_year_keys t :
  map fst (groupby_year t) = stable_sort Z.leb (unique Z.eqb (map fst t)).
Proof.
  unfold groupby_year. rewrite map_map. simpl. apply map_id.
Qed.

(** *** Numbers in text *)

Lemma isspace_upper_char c : Py.isspace (Py.upper_char c) = Py.isspace c.
Proof. destruct c as [[] [] [] [] [] [] [] []]; reflexivity. Qed.

Lemma wrap_int64_range z : - 2 ^ 63 <= wrap_int64 z < 2 ^ 63.
Proof.
  unfold wrap_int64.
  assert (P : 0 < 2 ^ 64) by reflexivity.
  pose proof (Z.mod_pos_bound (z + 2 ^ 63) (2 ^ 64) P) as B.
  set (m := (z + 2 ^ 63) mod 2 ^ 64) in *.
  change (2 ^ 64) with (2 ^ 63 + 2 ^ 63) in B. lia.
Qed.

Lemma wrap_int64_small z : - 2 ^ 63 <= z < 2 ^ 63 -> wrap_int64 z = z.
Proof.
  intros H. unfold wrap_int64. rewrite Z.mod_small; [lia|].
  change (2 ^ 64) with (2 ^ 63 + 2 ^ 63). lia.
Qed.

Lemma has_digit_c_lstrip s :
  has_digit s = false -> has_digit (c_lstrip s) = false.
Proof.
  induction s as [|c s IH]; simpl; [reflexivity|]. intros H.
  destruct (c_isspace c); [|exact H].
  apply orb_false_iff in H as [_ H]. now apply IH.
Qed.

Lemma has_digit_split_sign s :
  has_digit s = false -> has_digit (snd (split_sign s)) = false.
Proof.
  destruct s as [|c u]; [reflexivity|]. simpl has_digit. intros H.
  apply orb_false_iff in H as [Hc Hu].
  assert (G : has_digit (String c u) = false) by (simpl; now rewrite Hc, Hu).
  unfold split_sign.
  destruct c as [[] [] [] [] [] [] [] []]; cbn [snd]; assumption.
Qed.

Lemma take_digits_no_digit s : has_digit s = false -> Py.take_digits s = EmptyString.
Proof.
  destruct s as [|c s]; simpl; [reflexivity|]. intros H.
  apply orb_false_iff in H as [-> _]. reflexivity.
Qed.

(** Text without a digit is no integer literal. *)
Lemma integer_literal_no_digit s :
  has_digit s = false -> integer_literal s = None.
Proof.
  intros H. unfold integer_literal.
  pose proof (has_digit_split_sign _ (has_digit_c_lstrip _ H)) as G.
  destruct (split_sign (c_lstrip s)) as [negative u]. simpl in G.
  now rewrite (take_digits_no_digit _ G).
Qed.

Lemma rstrip_no_space s :
  all_chars (fun c => negb (Py.isspace c)) s = true -> Py.rstrip s = s.
Proof.
  induction s as [|c s IH]; simpl; [reflexivity|]. intros H.
  apply andb_true_iff in H as [Hc H]. apply negb_true_iff in Hc.
  rewrite (IH H), Hc. destruct s; reflexivity.
Qed.

Lemma strip_no_space s :
  all_chars (fun c => negb (Py.isspace c)) s = true -> Py.strip s = s.
Proof.
  intros H. unfold Py.strip.
  assert (E : Py.lstrip s = s).
  { destruct s as [|c s]; [reflexivity|]. simpl in H |- *.
    apply andb_true_iff in H as [Hc _]. apply negb_true_iff in Hc.
    now rewrite Hc. }
  rewrite E. now apply rstrip_no_space.
Qed.

Lemma no_space_upper s :
  all_chars (fun c => negb (Py.isspace c)) (Py.upper s) =
  all_chars (fun c => negb (Py.isspace c)) s.
Proof.
  induction s as [|c s IH]; simpl; [reflexivity|].
  now rewrite isspace_upper_char, IH.
Qed.

(** The name of an infinity has no white space around it. *)
Lemma inf_word_strip s : inf_word s = true -> Py.strip s = s.
Proof.
  unfold inf_word, mem. intros H.
  apply existsb_exists in H as (w & Hw & E). apply String.eqb_eq in E.
  apply strip_no_space. rewrite <- no_space_upper, E.
  simpl in Hw. repeat (destruct Hw as [<-|Hw]; [reflexivity|]). destruct Hw.
Qed.

Lemma to_numeric_text_not_a_number float_text s :
  has_digit s = false -> inf_word (Py.strip s) = false ->
  to_numeric_text float_text s = NumNaN.
Proof.
  intros D I. unfold to_numeric_text.
  destruct (inf_word s) eqn:W.
  - rewrite (inf_word_strip _ W) in I. congruence.
  - now rewrite (integer_literal_no_digit _ D), D, I.
Qed.

Lemma take_drop_all_digits ds :
  all_chars Py.isdigit ds = true ->
  Py.take_digits ds = ds /\ Py.drop_digits ds = EmptyString.
Proof.
  induction ds as [|c ds IH]; simpl; [auto|]. intros H.
  apply andb_true_iff in H as [Hc H]. rewrite Hc.
  destruct (IH H) as [-> ->]. auto.
Qed.

Lemma isdigit_value c :
  Py.isdigit c = true -> 0 <= Z.of_nat (nat_of_ascii c) - 48 <= 9.
Proof.
  unfold Py.isdigit. cbv zeta. intros H. apply andb_true_iff in H as [H1 H2].
  apply Nat.leb_le in H1. apply Nat.leb_le in H2. lia.
Qed.

Lemma int_of_digits_from_nonneg ds : forall acc,
  all_chars Py.isdigit ds = true -> 0 <= acc ->
  0 <= Py.int_of_digits_from acc ds.
Proof.
  induction ds as [|c ds IH]; intros acc H Ha;
    cbn [Py.int_of_digits_from]; [exact Ha|].
  simpl in H. apply andb_true_iff in H as [Hc H].
  apply IH; [exact H|]. pose proof (isdigit_value c Hc). lia.
Qed.

(** A run of digits, with a minus sign or without, is an integer
    literal. *)
Lemma to_numeric_text_digits float_text ds :
  ds <> EmptyString -> all_chars Py.isdigit ds = true ->
  Py.int_of_digits ds < 2 ^ 63 ->
  to_numeric_text float_text ds = NumFinite (Py.int_of_digits ds) 0 /\
  to_numeric_text float_text (String "-" ds) =
    NumFinite (- Py.int_of_digits ds) 0.
Proof.
  intros N D B. destruct (take_drop_all_digits _ D) as [T R].
  assert (P : 0 <= Py.int_of_digits ds)
    by (apply int_of_digits_from_nonneg; [exact D|lia]).
  assert (R1 : (- 2 ^ 63 <=? Py.int_of_digits ds) &&
               (Py.int_of_digits ds <? 2 ^ 64) = true).
  { apply andb_true_iff. split; [apply Z.leb_le|apply Z.ltb_lt].
    - assert (0 < 2 ^ 63) by reflexivity. lia.
    - change (2 ^ 64) with (2 ^ 63 + 2 ^ 63). lia. }
  assert (R2 : (- 2 ^ 63 <=? - Py.int_of_digits ds) &&
               (- Py.int_of_digits ds <? 2 ^ 64) = true).
  { apply andb_true_iff. split; [apply Z.leb_le|apply Z.ltb_lt].
    - lia.
    - assert (0 < 2 ^ 64) by reflexivity. lia. }
  destruct ds as [|c ds]; [contradiction|].
  assert (Hc : Py.isdigit c = true)
    by (simpl in D; now apply andb_true_iff in D as [? _]).
  unfold to_numeric_text, integer_literal.
  assert (I1 : inf_word (String c ds) = false).
  { clear -Hc. destruct c as [[] [] [] [] [] [] [] []];
      vm_compute in Hc; try discriminate Hc; reflexivity. }
  assert (I2 : inf_word (String "-" (String c ds)) = false).
  { clear -Hc. destruct c as [[] [] [] [] [] [] [] []];
      vm_compute in Hc; try discriminate Hc; reflexivity. }
  assert (L : c_lstrip (String c ds) = String c ds).
  { clear -Hc. destruct c as [[] [] [] [] [] [] [] []];
      vm_compute in Hc; try discriminate Hc; reflexivity. }
  assert (S : split_sign (String c ds) = (false, String c ds)).
  { clear -Hc. destruct c as [[] [] [] [] [] [] [] []];
      vm_compute in Hc; try discriminate Hc; reflexivity. }
  rewrite I1, I2, L.
  change (c_lstrip (String "-" (String c ds))) with (String "-" (String c ds)).
  change (split_sign (String "-" (String c ds))) with (true, String c ds).
  rewrite S. cbv iota beta. rewrite T, R. cbn [c_blank].
  rewrite R1, R2. split; reflexivity.
Qed.

(** *** The cast of the years *)

Lemma astype_int_rows_app a b :
  astype_int_rows (a ++ b) =
  (ta <- astype_int_rows a ;; tb <- astype_int_rows b ;; Py.Ok (ta ++ tb)).
Proof.
  induction a as [|[n c] a IH]; simpl.
  - destruct (astype_int_rows b); reflexivity.
  - destruct (astype_int n); [|reflexivity]. rewrite IH.
    destruct (astype_int_rows a); simpl; [|reflexivity|reflexivity].
    destruct (astype_int_rows b); reflexivity.
Qed.

Lemma astype_int_rows_In t : forall u,
  astype_int_rows t = Py.Ok u ->
  forall y c, In (y, c) u ->
  exists n, In (n, c) t /\ astype_int n = Some y.
Proof.
  induction t as [|[n c0] t IH]; simpl; intros u H y c Hin.
  - injection H as <-. destruct Hin.
  - destruct (astype_int n) as [y0|] eqn:E; [|discriminate].
    destruct (astype_int_rows t) as [u'| |]; simpl in H; try discriminate.
    injection H as <-. destruct Hin as [[= <- <-]|Hin].
    + exists n. auto.
    + destruct (IH u' eq_refl y c Hin) as (n' & Hn & Hy). exists n'. auto.
Qed.

Lemma astype_int_rows_raises t : astype_int_rows t <> Py.TypeError.
Proof.
  induction t as [|[n c] t IH]; simpl; [discriminate|].
  destruct (astype_int n); [|discriminate].
  destruct (astype_int_rows t); simpl; [discriminate|contradiction|discriminate].
Qed.

(** The cast raises or returns whatever the order of the rows. *)
Lemma astype_int_rows_perm t t' :
  Permutation t t' ->
  match astype_int_rows t, astype_int_rows t' with
  | Py.Ok u, Py.Ok u' => Permutation u u'
  | Py.ValueError, Py.ValueError => True
  | _, _ => False
  end.
Proof.
  induction 1 as [|[n c] l l' _ IH|[n c] [n' c'] l|l l' l'' _ IH1 _ IH2]; simpl.
  - constructor.
  - destruct (astype_int n); [|exact I].
    destruct (astype_int_rows l), (astype_int_rows l'); simpl;
      try contradiction; try exact I. now constructor.
  - pose proof (astype_int_rows_raises l) as NT.
    destruct (astype_int n), (astype_int n'); simpl; try exact I;
      destruct (astype_int_rows l); simpl; try exact I; try congruence.
    apply perm_swap.
  - destruct (astype_int_rows l), (astype_int_rows l'), (astype_int_rows l'');
      try contradiction; try exact I.
    now transitivity a0.
Qed.

Section Aggregation_facts.
Variable float_text : string -> numeric.

(** *** The year-aware branch *)

Lemma format_year_listing_rows df p t :
  has_YEAR df = true -> has_LISTING df = true ->
  year_rows float_text df = Py.Ok (p :: t) ->
  format_year_listing float_text df =
  Py.Ok (map (fun g => (Py.PInt (fst g), combine_listings (snd g)))
             (groupby_year (sort_values (p :: t)))).
Proof.
  intros Hy Hl E. unfold format_year_listing. now rewrite Hy, Hl, E.
Qed.

Lemma format_year_listing_no_row df :
  has_YEAR df = true -> has_LISTING df = true ->
  year_rows float_text df = Py.Ok [] ->
  format_year_listing float_text df = Py.TypeError.
Proof.
  intros Hy Hl E. unfold format_year_listing. now rewrite Hy, Hl, E.
Qed.

(** C2: with YEAR and LISTING present and a row at least that reaches the
    aggregation, the aggregator returns one row per year of the rows that
    reach it, in ascending order of year; the text of a year is its
    listings sorted ascending, each kept at its first occurrence in that
    order, joined with ", ".  Three listings "Acme Co", "Acme Co",
    "Beta Inc" of one year give "Acme Co, Beta Inc".  When no row reaches
    the aggregation, the call raises [TypeError] and returns no table. *)
Theorem format_year_listing_year_aware (rs : list row) :
  let df := mkFrame true true rs in
  (forall t, year_rows float_text df = Py.Ok t -> t <> [] ->
   exists groups : list (Z * list string),
    format_year_listing float_text df =
      Py.Ok (map (fun g => (Py.PInt (fst g),
                            String.concat ", " (keep_first String.eqb (snd g))))
                 groups) /\
    StronglySorted Z.lt (map fst groups) /\
    (forall y, In y (map fst groups) <-> In y (map fst t)) /\
    (forall y ls, In (y, ls) groups ->
       Permutation ls (map snd (filter (fun r => fst r =? y) t)) /\
       StronglySorted str_le ls)) /\
  (year_rows float_text df = Py.Ok [] ->
   format_year_listing float_text df = Py.TypeError) /\
  format_year_listing float_text
    (mkFrame true true
       [mkRow "12 Oak St" (CInt 1980) (CStr "Acme Co");
        mkRow "12 Oak St" (CInt 1980) (CStr "Acme Co");
        mkRow "12 Oak St" (CInt 1980) (CStr "Beta Inc")])
  = Py.Ok [(Py.PInt 1980, "Acme Co, Beta Inc")].
Proof.
  intros df. split; [|split; [|reflexivity]].
  2: { now apply format_year_listing_no_row. }
  intros t E N.
  exists (groupby_year (sort_values t)).
  assert (Hperm : Permutation (sort_values t) t)
    by apply stable_sort_perm.
  split; [|split; [|split]].
  - destruct t as [|p t]; [contradiction|].
    rewrite (format_year_listing_rows df p t eq_refl eq_refl E).
    f_equal. apply map_ext. intros g. now rewrite combine_listings_keep_first.
  - rewrite groupby_year_keys. apply sorted_nodup_lt.
    + apply (stable_sort_sorted Z.leb Z_leb_total Z_leb_trans).
    + eapply Permutation_NoDup; [symmetry; apply stable_sort_perm|].
      apply unique_from_NoDup. exact Z.eqb_eq.
  - intros y. rewrite groupby_year_keys.
    split; intros H.
    + apply (Permutation_in _ (stable_sort_perm Z.leb _)) in H.
      apply (unique_from_In _ Z.eqb_eq) in H as [H _].
      eapply Permutation_in; [|exact H]. now apply Permutation_map.
    + apply (Permutation_in _ (Permutation_sym (stable_sort_perm Z.leb _))).
      apply (unique_from_In _ Z.eqb_eq). split; [|intros []].
      eapply Permutation_in; [|exact H].
      apply Permutation_map. now symmetry.
  - intros y ls H. unfold groupby_year in H.
    apply in_map_iff in H as (y' & E' & _). injection E' as -> <-.
    split.
    + apply Permutation_map, Permutation_filter. exact Hperm.
    + apply group_sorted.
      apply (stable_sort_sorted row_leb row_leb_total row_leb_trans).
Qed.

(** *** Year-absent mode *)


Lemma compress_all_na rows :
  Forall (fun r : year_row => fst r = Py.PStr "N/A") rows ->
  compress_year_runs rows = Py.Ok rows.
Proof.
  intros H. destruct rows as [|[y0 occ0] tl]; [reflexivity|].
  unfold compress_year_runs.
  match goal with |- (if ?b then _ else _) = _ => assert (G : b = true) end.
  { apply forallb_forall. rewrite Forall_forall in H.
    intros r Hr. now rewrite (H r Hr). }
  now rewrite G.
Qed.


(** *** Years that reach the aggregation *)

(** C8 (as the code has it): a row reaches the year-aware aggregation with
    an integer of 64 bits, the integer part of the number that its YEAR
    cell denotes, of either sign: a run of digits after a minus sign is
    read as a negative year.  A row whose YEAR is missing, or is text
    without any digit that is not the name of an infinity, does not reach
    it, and the outcome is that of the frame without this row. *)
Theorem year_rows_numeric_years (rs : list row) :
  (forall t y l,
     year_rows float_text (mkFrame true true rs) = Py.Ok t -> In (y, l) t ->
     - 2 ^ 63 <= y < 2 ^ 63 /\
     exists r, In r rs /\
               astype_int (to_numeric float_text (YEAR r)) = Some y /\
               listing_text (LISTING r) = l) /\
  (forall z, - 2 ^ 63 <= z < 2 ^ 63 ->
     astype_int (to_numeric float_text (CInt z)) = Some z) /\
  (forall ds, ds <> EmptyString -> all_chars Py.isdigit ds = true ->
     Py.int_of_digits ds < 2 ^ 63 ->
     to_numeric float_text (CStr ds) = NumFinite (Py.int_of_digits ds) 0 /\
     to_numeric float_text (CStr (String "-" ds)) =
       NumFinite (- Py.int_of_digits ds) 0) /\
  to_numeric float_text CNaN = NumNaN /\
  to_numeric float_text CNone = NumNaN /\
  (forall s, has_digit s = false -> inf_word (Py.strip s) = false ->
     to_numeric float_text (CStr s) = NumNaN) /\
  (forall pre r post,
     rs = pre ++ r :: post ->
     to_numeric float_text (YEAR r) = NumNaN ->
     year_rows float_text (mkFrame true true rs) =
       year_rows float_text (mkFrame true true (pre ++ post)) /\
     format_year_listing float_text (mkFrame true true rs) =
       format_year_listing float_text (mkFrame true true (pre ++ post))).
Proof.
  split; [|split; [|split; [|split; [reflexivity|split; [reflexivity|split]]]]].
  - intros t y l H Hin. unfold year_rows in H. cbn [rows] in H.
    destruct (astype_int_rows _) as [u| |] eqn:A; simpl in H; try discriminate.
    injection H as <-.
    apply filter_In in Hin as [Hin _].
    apply in_map_iff in Hin as ([y' c] & E & Hin). simpl in E.
    injection E as -> <-.
    destruct (astype_int_rows_In _ _ A _ _ Hin) as (n & Hn & Hy).
    apply filter_In in Hn as [Hn _].
    apply in_map_iff in Hn as (r & E & Hr). injection E as <- <-.
    split.
    + destruct (to_numeric float_text (YEAR r)); try discriminate.
      injection Hy as <-. apply wrap_int64_range.
    + exists r. auto.
  - intros z Hz. simpl. unfold truncate. simpl.
    rewrite Z.mul_1_r. now rewrite wrap_int64_small.
  - intros ds N D B. exact (to_numeric_text_digits float_text ds N D B).
  - intros s D W. exact (to_numeric_text_not_a_number float_text s D W).
  - intros pre r post -> N.
    assert (E : year_rows float_text (mkFrame true true (pre ++ r :: post)) =
                year_rows float_text (mkFrame true true (pre ++ post))).
    { unfold year_rows. cbn [rows]. rewrite !map_app, !filter_app.
      cbn [map filter fst]. now rewrite N. }
    split; [exact E|].
    unfold format_year_listing. cbn [has_YEAR has_LISTING negb andb].
    now rewrite E.
Qed.

(** *** Totality of the compressor *)

(** The loop raises exactly when a year other than the last one it reads
    is not an integer. *)
Lemma compress_loop_raises rest : forall start_y prev_y prev_occ rows,
  compress_loop start_y prev_y prev_occ rest rows = Py.TypeError <->
  existsb is_text (removelast (prev_y :: map fst rest)) = true.
Proof.
  induction rest as [|[y occ] rest IH]; intros s p o rows.
  - simpl. split; discriminate.
  - change (removelast (p :: map fst ((y, occ) :: rest)))
      with (p :: removelast (y :: map fst rest)).
    cbn [compress_loop existsb].
    destruct p as [z|t]; cbn [Py.add1 is_text orb].
    + destruct (Py.eqb y (Py.PInt (z + 1)) && String.eqb occ o); apply IH.
    + tauto.
Qed.

Lemma compress_loop_ok_on_ints rest : forall start_y z prev_occ rows,
  Forall (fun r : year_row => exists y, fst r = Py.PInt y) rest ->
  exists out, compress_loop start_y (Py.PInt z) prev_occ rest rows = Py.Ok out.
Proof.
  induction rest as [|[y occ] rest IH]; intros s z o rows H.
  - simpl. eauto.
  - inversion H as [|? ? [y' Hy] H']; subst. simpl in Hy. subst y.
    cbn [compress_loop Py.add1].
    destruct (Py.eqb (Py.PInt y') (Py.PInt (z + 1)) && String.eqb occ o);
      now apply IH.
Qed.

Lemma format_year_listing_labels df out :
  format_year_listing float_text df = Py.Ok out ->
  Forall (fun r : year_row => fst r = Py.PStr "N/A") out \/
  Forall (fun r : year_row => exists y, fst r = Py.PInt y) out.
Proof.
  unfold format_year_listing.
  destruct (has_YEAR df), (has_LISTING df); simpl.
  - destruct (year_rows float_text df) as [[|p t]| |]; simpl;
      try discriminate.
    intros [= <-]. right. apply Forall_forall. intros r Hr.
    apply in_map_iff in Hr as (g & <- & _). simpl. eauto.
  - intros [= <-]. auto.
  - intros [= <-]. left. apply Forall_forall. intros r Hr.
    apply in_map_iff in Hr as (g & <- & _). reflexivity.
  - intros [= <-]. auto.
Qed.

Lemma all_na_with_int rows :
  (exists r, In r rows /\ is_text (fst r) = false) -> all_na rows = false.
Proof.
  intros (r & Hr & Hi). unfold all_na.
  destruct (forallb _ rows) eqn:E; [|reflexivity].
  rewrite forallb_forall in E. specialize (E r Hr).
  destruct r as [[z|s] occ]; simpl in *; [|discriminate].
  now rewrite str_of_int_not_na in E.
Qed.

(** C10 (as the code has it): [compress_year_runs] returns on rows labelled
    "N/A" throughout (unchanged) and on rows labelled by integers
    throughout, and the aggregator only produces such rows.  When some
    label is an integer the "N/A" guard fails, and [TypeError] is raised
    exactly when a row other than the last one has a label that is not an
    integer. *)
Theorem compress_year_runs_total_on_uniform_labels :
  (forall rows,
     Forall (fun r : year_row => fst r = Py.PStr "N/A") rows ->
     compress_year_runs rows = Py.Ok rows) /\
  (forall rows,
     Forall (fun r : year_row => exists y, fst r = Py.PInt y) rows ->
     exists out, compress_year_runs rows = Py.Ok out) /\
  (forall df rows,
     format_year_listing float_text df = Py.Ok rows ->
     Forall (fun r : year_row => fst r = Py.PStr "N/A") rows \/
     Forall (fun r : year_row => exists y, fst r = Py.PInt y) rows) /\
  (forall rows,
     (exists r, In r rows /\ is_text (fst r) = false) ->
     all_na rows = false /\
     (compress_year_runs rows = Py.TypeError <->
      existsb is_text (removelast (map fst rows)) = true)).
Proof.
  split; [exact compress_all_na|].
  split; [|split; [exact format_year_listing_labels|]].
  - intros rows H. destruct rows as [|[y0 occ0] tl]; [simpl; eauto|].
    inversion H as [|? ? [z Hz] H']; subst. simpl in Hz. subst y0.
    unfold compress_year_runs.
    match goal with |- exists _, (if ?b then _ else _) = _ => destruct b end;
      [eauto|].
    now apply compress_loop_ok_on_ints.
  - intros rows Hex. pose proof (all_na_with_int rows Hex) as G.
    split; [exact G|].
    destruct rows as [|[y0 occ0] tl].
    + destruct Hex as (r & [] & _).
    + unfold compress_year_runs.
      match goal with |- (if ?b then _ else _) = _ <-> _ =>
        replace b with false end.
      change (map fst ((y0, occ0) :: tl)) with (y0 :: map fst tl).
      apply compress_loop_raises.
Qed.

(** *** Addresses without rows *)

Lemma select_address_none df addr :
  Forall (fun r => ADDRESS r <> addr) (rows df) ->
  rows (select_address df addr) = [].
Proof.
  intros H. simpl. induction H as [|r l Hr _ IH]; simpl; [reflexivity|].
  destruct (String.eqb_spec (ADDRESS r) addr); [contradiction|exact IH].
Qed.

Lemma year_rows_no_row df :
  rows df = [] -> year_rows float_text df = Py.Ok [].
Proof. intros E. unfold year_rows. now rewrite E. Qed.

Lemma format_year_listing_absent_no_row df :
  has_YEAR df && has_LISTING df = false -> rows df = [] ->
  format_year_listing float_text df = Py.Ok [].
Proof.
  intros B E. unfold format_year_listing. rewrite E.
  destruct (has_YEAR df), (has_LISTING df); try reflexivity. discriminate.
Qed.

(** C6: in a table that has the columns YEAR and LISTING, an address of
    which no row reaches the aggregation, and so an address that matches
    no row, makes the aggregator raise [TypeError]; both builders raise it
    and return no table.  In a table without one of these columns an
    address that matches no row adds exactly one row to the subject table,
    with an empty year cell and the text "{address} — No results", and one
    row to the adjoining table, whose occupant cell is "No results". *)
Theorem no_results_entry (df : DataFrame) (addr : string) :
  (Forall (fun r => ADDRESS r <> addr) (rows df) ->
   year_rows float_text (select_address df addr) = Py.Ok []) /\
  (has_YEAR df = true -> has_LISTING df = true ->
   year_rows float_text (select_address df addr) = Py.Ok [] ->
   format_year_listing float_text (select_address df addr) = Py.TypeError /\
   (forall rest,
      build_subject_report_docx float_text (addr :: rest) df = Py.TypeError) /\
   (forall rest direction_map,
      build_adjoining_report_docx float_text (addr :: rest) df direction_map =
      Py.TypeError)) /\
  (has_YEAR df && has_LISTING df = false ->
   Forall (fun r => ADDRESS r <> addr) (rows df) ->
   (forall rest table,
      subject_loop float_text (addr :: rest) df table =
      subject_loop float_text rest df
        (table ++ [("", (addr ++ " — No results")%string)])) /\
   (forall rest direction_map table,
      adjoining_loop float_text (addr :: rest) df direction_map table =
      adjoining_loop float_text rest df direction_map
        (table ++ [(match direction_map addr with Some d => d | None => "" end,
                    addr, "No results")])) /\
   build_subject_report_docx float_text [addr] df =
     Py.Ok [subject_header; ("", (addr ++ " — No results")%string)] /\
   (forall direction_map,
      build_adjoining_report_docx float_text [addr] df direction_map =
      Py.Ok [adjoining_header;
             (match direction_map addr with Some d => d | None => "" end,
              addr, "No results")])).
Proof.
  split; [|split].
  - intros H. apply year_rows_no_row, select_address_none, H.
  - intros Hy Hl E.
    assert (F : format_year_listing float_text (select_address df addr) =
                Py.TypeError)
      by (apply format_year_listing_no_row; assumption).
    split; [exact F|]. split.
    + intros rest. unfold build_subject_report_docx. cbn [subject_loop].
      now rewrite F.
    + intros rest dm. unfold build_adjoining_report_docx.
      cbn [adjoining_loop]. now rewrite F.
  - intros B H.
    assert (E : format_year_listing float_text (select_address df addr) =
                Py.Ok []).
    { apply format_year_listing_absent_no_row; [exact B|].
      apply select_address_none, H. }
    assert (S : forall rest table,
       subject_loop float_text (addr :: rest) df table =
       subject_loop float_text rest df
         (table ++ [("", (addr ++ " — No results")%string)])).
    { intros rest table. cbn [subject_loop]. now rewrite E. }
    assert (J : forall rest direction_map table,
       adjoining_loop float_text (addr :: rest) df direction_map table =
       adjoining_loop float_text rest df direction_map
         (table ++ [(match direction_map addr with Some d => d | None => "" end,
                     addr, "No results")])).
    { intros rest dm table. cbn [adjoining_loop]. now rewrite E. }
    split; [exact S|]. split; [exact J|]. split.
    + unfold build_subject_report_docx. now rewrite S.
    + intros dm. unfold build_adjoining_report_docx. now rewrite J.
Qed.

End Aggregation_facts.

(** The directory rows of the examples. *)

Example format_year_listing_unsorted_input :
  format_year_listing (fun _ => NumNaN)
    (mkFrame true true
       [mkRow "12 Oak St" (CInt 1981) (CStr "Zed Ltd");
        mkRow "12 Oak St" (CStr " 1980 ") (CStr " Beta Inc ");
        mkRow "12 Oak St" CNaN (CStr "Lost Co");
        mkRow "12 Oak St" (CStr "n.d.") (CStr "Lost Co");
        mkRow "12 Oak St" (CInt 1980) (CStr "Acme Co");
        mkRow "12 Oak St" (CStr "1980") (CStr "Beta Inc")])
  = Py.Ok [(Py.PInt 1980, "Acme Co, Beta Inc"); (Py.PInt 1981, "Zed Ltd")].
Proof. reflexivity. Qed.

(** A year that is not finite stops the aggregation of its address. *)
Example format_year_listing_infinite_year :
  format_year_listing (fun _ => NumNaN)
    (mkFrame true true
       [mkRow "12 Oak St" (CInt 1980) (CStr "Acme Co");
        mkRow "12 Oak St" (CStr "inf") (CStr "Beta Inc")])
  = Py.ValueError.
Proof. reflexivity. Qed.

(** A year beyond 64 bits wraps around; a fraction loses its decimals. *)
Example astype_int_examples :
  astype_int (NumFinite (2 ^ 63) 0) = Some (- 2 ^ 63) /\
  astype_int (NumFinite 19805 (-1)) = Some 1980 /\
  astype_int (NumFinite (-19805) (-1)) = Some (-1980) /\
  astype_int NumInf = None.
Proof. repeat split. Qed.

Lemma format_year_listing_year_aware_witness :
  format_year_listing (fun _ => NumNaN)
    (mkFrame true true [mkRow "12 Oak St" CNaN (CStr "Acme Co")])
  = Py.TypeError /\
  exists groups,
    format_year_listing (fun _ => NumNaN)
      (mkFrame true true
         [mkRow "12 Oak St" (CInt 1981) (CStr "Zed Ltd");
          mkRow "12 Oak St" (CInt 1980) (CStr "Acme Co")])
    = Py.Ok (map (fun g => (Py.PInt (fst g),
                            String.concat ", " (keep_first String.eqb (snd g))))
                 groups) /\
    StronglySorted Z.lt (map fst groups).
Proof.
  split.
  - apply (format_year_listing_year_aware (fun _ => NumNaN)
             [mkRow "12 Oak St" CNaN (CStr "Acme Co")]).
    reflexivity.
  - destruct (proj1 (format_year_listing_year_aware (fun _ => NumNaN)
                       [mkRow "12 Oak St" (CInt 1981) (CStr "Zed Ltd");
                        mkRow "12 Oak St" (CInt 1980) (CStr "Acme Co")])
                    [(1981, "Zed Ltd"); (1980, "Acme Co")] eq_refl
                    ltac:(discriminate))
      as (groups & E & S & _).
    exists groups. split; [exact E|exact S].
Defined.


(** A negative year is read like any other and reaches the aggregation. *)
Lemma year_rows_negative_year :
  let df := mkFrame true true [mkRow "12 Oak St" (CInt (-5)) (CStr "Acme Co")] in
  year_rows (fun _ => NumNaN) df = Py.Ok [(-5, "Acme Co")] /\
  format_year_listing (fun _ => NumNaN) df =
    Py.Ok [(Py.PInt (-5), "Acme Co")] /\
  format_year_listing (fun _ => NumNaN)
    (mkFrame true true [mkRow "12 Oak St" (CStr "-5") (CStr "Acme Co")]) =
    Py.Ok [(Py.PInt (-5), "Acme Co")] /\
  ~ 0 <= -5.
Proof. repeat split. lia. Qed.

Lemma year_rows_numeric_years_witness :
  format_year_listing (fun _ => NumNaN)
    (mkFrame true true
       ([mkRow "12 Oak St" (CInt 1980) (CStr "Acme Co")] ++
        mkRow "12 Oak St" (CStr "n.d.") (CStr "Beta Inc") :: []))
  = format_year_listing (fun _ => NumNaN)
      (mkFrame true true
         ([mkRow "12 Oak St" (CInt 1980) (CStr "Acme Co")] ++ [])) /\
  to_numeric (fun _ => NumNaN) (CStr "n.d.") = NumNaN /\
  to_numeric (fun _ => NumNaN) (CStr "-1980") = NumFinite (- Py.int_of_digits "1980") 0.
Proof.
  pose proof (year_rows_numeric_years (fun _ => NumNaN)
                ([mkRow "12 Oak St" (CInt 1980) (CStr "Acme Co")] ++
                 mkRow "12 Oak St" (CStr "n.d.") (CStr "Beta Inc") :: []))
    as (_ & _ & D & _ & _ & T & H).
  split; [|split].
  - exact (proj2 (H [mkRow "12 Oak St" (CInt 1980) (CStr "Acme Co")]
                    (mkRow "12 Oak St" (CStr "n.d.") (CStr "Beta Inc")) []
                    eq_refl eq_refl)).
  - apply T; reflexivity.
  - apply (D "1980"); [discriminate|reflexivity|reflexivity].
Defined.

(** Integer years followed by one "N/A" row: the guard fails and no
    successor of a non-integer is computed. *)
Lemma compress_year_runs_mixed_returns :
  let rows := [(Py.PInt 1970, "A"); (Py.PStr "N/A", "B")] in
  existsb is_text (map fst rows) = true /\
  existsb (fun v => negb (is_text v)) (map fst rows) = true /\
  all_na rows = false /\
  compress_year_runs rows = Py.Ok [(Py.PStr "1970", "A"); (Py.PStr "N/A", "B")].
Proof. repeat split. Qed.

Lemma compress_year_runs_total_witness :
  compress_year_runs [(Py.PStr "N/A", "A"); (Py.PStr "N/A", "B")] =
    Py.Ok [(Py.PStr "N/A", "A"); (Py.PStr "N/A", "B")] /\
  (exists out, compress_year_runs [(Py.PInt 1970, "A"); (Py.PInt 1971, "A")] =
               Py.Ok out) /\
  compress_year_runs [(Py.PStr "N/A", "A"); (Py.PInt 1970, "B")] = Py.TypeError.
Proof.
  pose proof (compress_year_runs_total_on_uniform_labels (fun _ => NumNaN))
    as (H1 & H2 & _ & H4).
  split; [|split].
  - apply H1. repeat constructor.
  - apply H2. repeat constructor; simpl; eauto.
  - apply (H4 [(Py.PStr "N/A", "A"); (Py.PInt 1970, "B")]).
    + exists (Py.PInt 1970, "B"). simpl. auto.
    + reflexivity.
Defined.

(** The only row of the address has no year: the aggregator raises where
    the builders would write "No results". *)
Lemma no_results_entry_witness :
  build_subject_report_docx (fun _ => NumNaN) ["12 Oak St"]
    (mkFrame true true
       [mkRow "12 Oak St" CNaN (CStr "Acme Co");
        mkRow "9 Elm St" (CInt 1980) (CStr "Zed Ltd")])
  = Py.TypeError /\
  build_subject_report_docx (fun _ => NumNaN) ["7 Ash Rd"]
    (mkFrame true true [mkRow "9 Elm St" (CInt 1980) (CStr "Zed Ltd")])
  = Py.TypeError /\
  build_subject_report_docx (fun _ => NumNaN) ["7 Ash Rd"]
    (mkFrame false true [mkRow "9 Elm St" CNaN (CStr "Zed Ltd")])
  = Py.Ok [subject_header; ("", "7 Ash Rd — No results")].
Proof.
  split; [|split].
  - apply (proj1 (proj2 (proj1 (proj2 (no_results_entry (fun _ => NumNaN)
             (mkFrame true true
                [mkRow "12 Oak St" CNaN (CStr "Acme Co");
                 mkRow "9 Elm St" (CInt 1980) (CStr "Zed Ltd")])
             "12 Oak St")) eq_refl eq_refl eq_refl)) []).
  - pose proof (no_results_entry (fun _ => NumNaN)
             (mkFrame true true [mkRow "9 Elm St" (CInt 1980) (CStr "Zed Ltd")])
             "7 Ash Rd") as (N & R & _).
    apply (proj1 (proj2 (R eq_refl eq_refl
                           (N ltac:(repeat constructor; discriminate)))) []).
  - apply (proj2 (proj2 (no_results_entry (fun _ => NumNaN)
             (mkFrame false true [mkRow "9 Elm St" CNaN (CStr "Zed Ltd")])
             "7 Ash Rd"))); [reflexivity|].
    simpl. repeat constructor. discriminate.
Defined.

(** ** Schema resolution *)

Lemma dict_get_set k k' v d :
  dict_get k (dict_set k' v d) =
  if String.eqb k' k then Some v else dict_get k d.
Proof.
  induction d as [|[k0 v0] d IH]; simpl.
  - reflexivity.
  - destruct (String.eqb_spec k0 k') as [->|N]; simpl.
    + destruct (String.eqb k' k); reflexivity.
    + rewrite IH. destruct (String.eqb_spec k0 k) as [->|N'];
        [|reflexivity].
      destruct (String.eqb_spec k' k); [congruence|reflexivity].
Qed.

Lemma find_snoc {A} (p : A -> bool) l x :
  find p (l ++ [x]) =
  match find p l with Some y => Some y | None => if p x then Some x else None end.
Proof.
  induction l as [|a l IH]; simpl; [reflexivity|].
  destruct (p a); [reflexivity|exact IH].
Qed.

(** The dictionary gives, for a key, the last column with this name in
    upper case. *)
Lemma dict_get_fold k cols : forall d,
  dict_get k (fold_left (fun d col => dict_set (Py.upper col) col d) cols d) =
  match find (fun c => String.eqb (Py.upper c) k) (rev cols) with
  | Some c => Some c
  | None => dict_get k d
  end.
Proof.
  induction cols as [|c cols IH]; intros d; simpl; [reflexivity|].
  rewrite IH, find_snoc, dict_get_set.
  destruct (find _ (rev cols)); [reflexivity|].
  destruct (String.eqb (Py.upper c) k); reflexivity.
Qed.

Lemma cols_upper_some k df c :
  dict_get k (cols_upper df) = Some c ->
  In c (columns df) /\ Py.upper c = k.
Proof.
  unfold cols_upper. rewrite dict_get_fold. simpl.
  destruct (find _ (rev (columns df))) eqn:F; [|discriminate].
  intros [= ->]. apply find_some in F as [Hin E].
  apply in_rev in Hin. apply String.eqb_eq in E. auto.
Qed.

Lemma cols_upper_none k df :
  dict_get k (cols_upper df) = None <-> ~ names_column k df.
Proof.
  unfold cols_upper, names_column. rewrite dict_get_fold. simpl.
  destruct (find _ (rev (columns df))) eqn:F.
  - apply find_some in F as [Hin E]. apply in_rev in Hin.
    apply String.eqb_eq in E. split; [discriminate|].
    intros N. exfalso. apply N. apply in_map_iff. eauto.
  - split; [|reflexivity]. intros _ N.
    apply in_map_iff in N as (c & E & Hin).
    apply in_rev in Hin. pose proof (find_none _ _ F c Hin) as G.
    simpl in G. apply String.eqb_neq in G. contradiction.
Qed.

Lemma cols_upper_names k df :
  names_column k df ->
  exists c, dict_get k (cols_upper df) = Some c /\
            In c (columns df) /\ Py.upper c = k.
Proof.
  intros H. destruct (dict_get k (cols_upper df)) as [c|] eqn:E.
  - exists c. split; [reflexivity|]. now apply cols_upper_some.
  - apply cols_upper_none in E. contradiction.
Qed.

Lemma scan_address_patterns_first df pre p post c :
  (forall q, In q pre -> dict_get q (cols_upper df) = None) ->
  dict_get p (cols_upper df) = Some c ->
  scan_address_patterns (pre ++ p :: post) (cols_upper df) df =
  (set_column "ADDRESS" (apply_normalize_addr (column c df)) df,
   Some (Using c)).
Proof.
  intros Hpre Hp. induction pre as [|q pre IH]; simpl.
  - now rewrite Hp.
  - rewrite (Hpre q (or_introl eq_refl)). apply IH.
    intros q' Hq'. apply Hpre. now right.
Qed.

Lemma scan_address_patterns_none df patterns :
  (forall q, In q patterns -> dict_get q (cols_upper df) = None) ->
  scan_address_patterns patterns (cols_upper df) df = (df, None).
Proof.
  induction patterns as [|q ps IH]; intros H; simpl; [reflexivity|].
  rewrite (H q (or_introl eq_refl)). apply IH.
  intros q' Hq'. apply H. now right.
Qed.

Lemma rstrip_last_ok s : last_ok true s = true -> Py.rstrip s = s.
Proof.
  induction s as [|c s IH]; simpl; [reflexivity|].
  destruct s as [|a r].
  - simpl. destruct (Py.isspace c); [discriminate|reflexivity].
  - intros H. rewrite IH; [reflexivity|exact H].
Qed.

Lemma strip_strip s : Py.strip (Py.strip s) = Py.strip s.
Proof.
  unfold Py.strip.
  rewrite (lstrip_head_ok (Py.rstrip (Py.lstrip s))).
  - apply rstrip_last_ok, last_ok_rstrip.
  - apply head_ok_rstrip, head_ok_lstrip.
Qed.

(** C5 (as the code has it): the address column is resolved, in this order,
    from a column named ADDRESS, normalised in place, whatever else is
    present; else from ADDRESS1 and ADDRESS2 together, stripped, joined by
    one space and normalised; else from ADDRESS1 alone, normalised; else
    from the first name of the list STREET ADDRESS, STREET_ADDRESS,
    PROPERTY ADDRESS, PROPERTY_ADDRESS, SITE ADDRESS, LOCATION, STREET,
    ADDR that names a column; else the table is returned as it is. *)
Theorem address_resolution_precedence (df : table) :
  (names_column "ADDRESS" df ->
   exists c, In c (columns df) /\ Py.upper c = "ADDRESS" /\
     find_and_combine_address_columns df =
     (set_column "ADDRESS" (apply_normalize_addr (column c df)) df, None)) /\
  (~ names_column "ADDRESS" df ->
   names_column "ADDRESS1" df -> names_column "ADDRESS2" df ->
   exists a1 a2,
     In a1 (columns df) /\ Py.upper a1 = "ADDRESS1" /\
     In a2 (columns df) /\ Py.upper a2 = "ADDRESS2" /\
     find_and_combine_address_columns df =
     (set_column "ADDRESS"
        (map (fun p => CStr (combine_addresses (fst p) (snd p)))
             (List.combine (column a1 df) (column a2 df))) df,
      Some (Combined a1 a2))) /\
  (~ names_column "ADDRESS" df ->
   names_column "ADDRESS1" df -> ~ names_column "ADDRESS2" df ->
   exists a1, In a1 (columns df) /\ Py.upper a1 = "ADDRESS1" /\
     find_and_combine_address_columns df =
     (set_column "ADDRESS" (apply_normalize_addr (column a1 df)) df,
      Some (Using a1))) /\
  (~ names_column "ADDRESS" df -> ~ names_column "ADDRESS1" df ->
   forall pre p post,
     address_patterns = pre ++ p :: post ->
     (forall q, In q pre -> ~ names_column q df) ->
     names_column p df ->
     exists c, In c (columns df) /\ Py.upper c = p /\
       find_and_combine_address_columns df =
       (set_column "ADDRESS" (apply_normalize_addr (column c df)) df,
        Some (Using c))) /\
  (~ names_column "ADDRESS" df -> ~ names_column "ADDRESS1" df ->
   (forall q, In q address_patterns -> ~ names_column q df) ->
   find_and_combine_address_columns df = (df, None)) /\
  address_patterns =
    ["STREET ADDRESS"; "STREET_ADDRESS"; "PROPERTY ADDRESS";
     "PROPERTY_ADDRESS"; "SITE ADDRESS"; "LOCATION"; "STREET"; "ADDR"] /\
  (forall s1 s2,
     combine_addresses (CStr s1) (CStr s2) =
     normalize_addr (Py.strip s1 ++ " " ++ Py.strip s2)).
Proof.
  unfold find_and_combine_address_columns.
  split; [|split; [|split; [|split; [|split; [|split]]]]].
  - intros H. apply cols_upper_names in H as (c & E & Hin & Hu).
    exists c. now rewrite E.
  - intros N H1 H2. apply cols_upper_none in N.
    apply cols_upper_names in H1 as (a1 & E1 & Hin1 & Hu1).
    apply cols_upper_names in H2 as (a2 & E2 & Hin2 & Hu2).
    exists a1, a2. rewrite N, E1, E2. auto 6.
  - intros N H1 N2. apply cols_upper_none in N, N2.
    apply cols_upper_names in H1 as (a1 & E1 & Hin1 & Hu1).
    exists a1. rewrite N, E1, N2. auto.
  - intros N N1 pre p post Ep Hpre Hp.
    apply cols_upper_none in N, N1.
    apply cols_upper_names in Hp as (c & Ec & Hin & Hu).
    exists c. rewrite N, N1, Ep. split; [exact Hin|]. split; [exact Hu|].
    apply scan_address_patterns_first; [|exact Ec].
    intros q Hq. apply cols_upper_none. now apply Hpre.
  - intros N N1 Hall. apply cols_upper_none in N, N1. rewrite N, N1.
    apply scan_address_patterns_none.
    intros q Hq. apply cols_upper_none. now apply Hall.
  - reflexivity.
  - intros s1 s2. unfold combine_addresses. simpl.
    unfold normalize_addr. now rewrite strip_strip.
Qed.

Lemma address_resolution_precedence_witness :
  exists c,
    In c ["ADDRESS1"; "Address"; "ADDRESS2"] /\ Py.upper c = "ADDRESS" /\
    find_and_combine_address_columns
      [("ADDRESS1", [CStr "12"]); ("Address", [CStr " 12  Oak St "]);
       ("ADDRESS2", [CStr "Elm St"])]
    = (set_column "ADDRESS"
         (apply_normalize_addr
            (column c [("ADDRESS1", [CStr "12"]);
                       ("Address", [CStr " 12  Oak St "]);
                       ("ADDRESS2", [CStr "Elm St"])]))
         [("ADDRESS1", [CStr "12"]); ("Address", [CStr " 12  Oak St "]);
          ("ADDRESS2", [CStr "Elm St"])],
       None).
Proof.
  apply (proj1 (address_resolution_precedence
                  [("ADDRESS1", [CStr "12"]); ("Address", [CStr " 12  Oak St "]);
                   ("ADDRESS2", [CStr "Elm St"])])).
  unfold names_column. simpl. auto.
Defined.

Example address_wins_over_address1 :
  find_and_combine_address_columns
    [("ADDRESS1", [CStr "12"]); ("ADDRESS", [CStr " 12  Oak St "]);
     ("ADDRESS2", [CStr "Elm St"])]
  = ([("ADDRESS1", [CStr "12"]); ("ADDRESS", [CStr "12 Oak St"]);
      ("ADDRESS2", [CStr "Elm St"])], None).
Proof. reflexivity. Qed.

(** The first synonym of the specification's list present here is
    PROPERTY ADDRESS, yet the address is taken from STREET_ADDRESS; and a
    table with STREET_ADDRESS alone, which that list does not name, is
    resolved. *)
Lemma street_address_underscore_resolved :
  let df := [("PROPERTY ADDRESS", [CStr "Lot 7"]);
             ("STREET_ADDRESS", [CStr "12 Oak St"])] in
  find (fun p => mem String.eqb p (map Py.upper (columns df)))
       spec_address_patterns = Some "PROPERTY ADDRESS" /\
  column "ADDRESS" (fst (find_and_combine_address_columns df)) =
    [CStr "12 Oak St"] /\
  find (fun p => mem String.eqb p ["STREET_ADDRESS"]) spec_address_patterns
    = None /\
  find_and_combine_address_columns [("STREET_ADDRESS", [CStr "12 Oak St"])] =
    ([("STREET_ADDRESS", [CStr "12 Oak St"]); ("ADDRESS", [CStr "12 Oak St"])],
     Some (Using "STREET_ADDRESS")).
Proof. repeat split. Qed.

(** ** Forward fill *)

Lemma column_set_column name vals df :
  column name (set_column name vals df) = vals.
Proof.
  induction df as [|[n v] df IH]; simpl.
  - now rewrite String.eqb_refl.
  - destruct (String.eqb n name) eqn:E; simpl; rewrite E; [reflexivity|exact IH].
Qed.

Lemma ffill_from_valid prev pre v rest :
  isna v = false ->
  ffill_from prev (pre ++ v :: rest) =
  ffill_from prev pre ++ v :: ffill_from (Some v) rest.
Proof.
  intros Hv. revert prev. induction pre as [|c pre IH]; intros prev; simpl.
  - now rewrite Hv.
  - destruct (isna c); now rewrite IH.
Qed.






(** ** Address keys *)

Lemma isdigit_upper_char c : Py.isdigit (Py.upper_char c) = Py.isdigit c.
Proof. destruct c as [[] [] [] [] [] [] [] []]; reflexivity. Qed.

Lemma isdigit_not_space c : Py.isdigit c = true -> Py.isspace c = false.
Proof. destruct c as [[] [] [] [] [] [] [] []]; vm_compute; congruence. Qed.

Lemma rstrip_cons c s :
  Py.isspace c = false -> exists r, Py.rstrip (String c s) = String c r.
Proof.
  intros H. simpl. destruct (Py.rstrip s); rewrite ?H; eauto.
Qed.

Lemma match_house_no_digit addr :
  head_is Py.isdigit (Py.lstrip addr) = false ->
  match_house (Py.upper (normalize_addr addr)) = None.
Proof.
  intros H. unfold normalize_addr, Py.strip, Py.sub_ws.
  pose proof (head_ok_lstrip addr) as Hs.
  destruct (Py.lstrip addr) as [|c t]; [reflexivity|].
  simpl in H, Hs. apply negb_true_iff in Hs.
  destruct (rstrip_cons c t Hs) as [r ->].
  unfold match_house. simpl. rewrite Hs. simpl.
  rewrite isspace_upper_char, Hs. simpl.
  now rewrite isdigit_upper_char, H.
Qed.

Lemma lstrip_split s :
  exists ws, s = (ws ++ Py.lstrip s)%string /\ all_chars Py.isspace ws = true.
Proof.
  induction s as [|c s (ws & E & H)]; simpl.
  - exists EmptyString. auto.
  - destruct (Py.isspace c) eqn:Ec.
    + exists (String c ws). simpl. rewrite Ec, H. split; [now f_equal|reflexivity].
    + exists EmptyString. auto.
Qed.

Lemma lstrip_app_space ws s :
  all_chars Py.isspace ws = true ->
  Py.lstrip (ws ++ s) = Py.lstrip s.
Proof.
  induction ws as [|c ws IH]; simpl; [reflexivity|].
  intros H. apply andb_true_iff in H as [Hc H]. rewrite Hc. now apply IH.
Qed.

Lemma take_drop_digits s :
  s = (Py.take_digits s ++ Py.drop_digits s)%string /\
  all_chars Py.isdigit (Py.take_digits s) = true /\
  head_is Py.isdigit (Py.drop_digits s) = false.
Proof.
  induction s as [|c s (E & H1 & H2)]; simpl; [auto|].
  destruct (Py.isdigit c) eqn:Ec; simpl.
  - rewrite Ec, H1. repeat split; [now f_equal|exact H2].
  - rewrite Ec. auto.
Qed.

Lemma take_digits_app ds rest :
  all_chars Py.isdigit ds = true -> head_is Py.isdigit rest = false ->
  Py.take_digits (ds ++ rest) = ds.
Proof.
  induction ds as [|c ds IH]; simpl; intros H Hr.
  - destruct rest as [|c r]; [reflexivity|]. simpl in Hr. simpl. now rewrite Hr.
  - apply andb_true_iff in H as [Hc H]. rewrite Hc. f_equal. now apply IH.
Qed.

(** [unit_here] finds exactly the unit markers. *)
Lemma unit_here_spec t ds : unit_here t = Some ds <-> unit_marker t ds.
Proof.
  unfold unit_here, unit_marker. split.
  - destruct t as [|c s']; [discriminate|].
    destruct (Ascii.eqb_spec c "#") as [->|N].
    + destruct (lstrip_split s') as (ws & E & Hws).
      destruct (take_drop_digits (Py.lstrip s')) as (E2 & Hd & Hr).
      destruct (Py.take_digits (Py.lstrip s')) as [|d ds'] eqn:T;
        [discriminate|].
      intros [= <-]. exists ws, (Py.drop_digits (Py.lstrip s')).
      split; [|split; [exact Hws|split; [discriminate|split; assumption]]].
      f_equal. rewrite E at 1. now rewrite <- E2.
    + intros H. exfalso.
      destruct c as [[] [] [] [] [] [] [] []]; try discriminate H.
      now apply N.
  - intros (ws & rest & -> & Hws & Hne & Hd & Hr).
    rewrite (lstrip_app_space _ _ Hws).
    destruct ds as [|d ds']; [contradiction|].
    simpl in Hd. apply andb_true_iff in Hd as [Hd Hd'].
    cbn [append Py.lstrip]. rewrite (isdigit_not_space _ Hd).
    cbn [Py.take_digits]. rewrite Hd.
    now rewrite (take_digits_app ds' rest Hd' Hr).
Qed.

Lemma search_unit_none s :
  (forall pre t, s = (pre ++ t)%string -> unit_here t = None) ->
  search_unit s = None.
Proof.
  induction s as [|c s IH]; intros H.
  - simpl. reflexivity.
  - cbn [search_unit]. rewrite (H EmptyString (String c s) eq_refl).
    apply IH. intros pre t E. apply (H (String c pre) t). simpl. now f_equal.
Qed.

Lemma search_unit_first pre : forall t ds,
  unit_here t = Some ds ->
  (forall pre1 pre2, pre = (pre1 ++ pre2)%string -> pre2 <> EmptyString ->
     unit_here (pre2 ++ t) = None) ->
  search_unit (pre ++ t) = Some ds.
Proof.
  induction pre as [|c pre IH]; intros t ds Ht Hpre.
  - simpl. destruct t; cbn [search_unit]; now rewrite Ht.
  - cbn [append search_unit].
    assert (G : unit_here (String c pre ++ t) = None)
      by (apply (Hpre EmptyString (String c pre) eq_refl); discriminate).
    cbn [append] in G. rewrite G.
    apply IH; [exact Ht|].
    intros pre1 pre2 E N. apply (Hpre (String c pre1) pre2); [|exact N].
    simpl. now f_equal.
Qed.

(** *** The fuel of the marker substitution suffices *)

Lemma length_lstrip s : (String.length (Py.lstrip s) <= String.length s)%nat.
Proof.
  induction s as [|c s IH]; simpl; [lia|].
  destruct (Py.isspace c); simpl; lia.
Qed.

Lemma length_drop_digits s :
  (String.length (Py.drop_digits s) <= String.length s)%nat.
Proof.
  induction s as [|c s IH]; simpl; [lia|].
  destruct (Py.isdigit c); simpl; lia.
Qed.

Lemma match_unit_marker_shorter s rest :
  match_unit_marker s = Some rest ->
  (String.length rest < String.length s)%nat.
Proof.
  unfold match_unit_marker.
  pose proof (length_lstrip s) as L1.
  destruct (Py.lstrip s) as [|c t]; [discriminate|].
  destruct (Ascii.eqb_spec c "#") as [->|N].
  - destruct (Py.take_digits (Py.lstrip t)); [discriminate|].
    intros [= <-].
    pose proof (length_lstrip (Py.drop_digits (Py.lstrip t))).
    pose proof (length_drop_digits (Py.lstrip t)).
    pose proof (length_lstrip t). simpl in L1. lia.
  - intros H. exfalso.
    destruct c as [[] [] [] [] [] [] [] []]; try discriminate H.
    now apply N.
Qed.

Lemma sub_unit_markers_fuel_enough n : forall m s,
  (String.length s <= n)%nat -> (String.length s <= m)%nat ->
  sub_unit_markers_fuel n s = sub_unit_markers_fuel m s.
Proof.
  induction n as [|n IH]; intros m s Hn Hm.
  - destruct s; [|simpl in Hn; lia]. destruct m; reflexivity.
  - destruct m as [|m].
    + destruct s; [|simpl in Hm; lia]. reflexivity.
    + cbn [sub_unit_markers_fuel].
      destruct (match_unit_marker s) as [rest|] eqn:M.
      * apply match_unit_marker_shorter in M. f_equal. apply IH; lia.
      * destruct s as [|c s]; [reflexivity|]. simpl in Hn, Hm.
        f_equal. apply IH; lia.
Qed.

(** The substitution as the scan of the regex engine. *)
Lemma sub_unit_markers_step s :
  sub_unit_markers s =
  match match_unit_marker s with
  | Some rest => String " " (sub_unit_markers rest)
  | None =>
      match s with
      | EmptyString => EmptyString
      | String c s' => String c (sub_unit_markers s')
      end
  end.
Proof.
  unfold sub_unit_markers. destruct s as [|c s]; [reflexivity|].
  cbn [String.length sub_unit_markers_fuel].
  destruct (match_unit_marker (String c s)) as [rest|] eqn:M.
  - apply match_unit_marker_shorter in M. simpl in M.
    f_equal. apply sub_unit_markers_fuel_enough; lia.
  - reflexivity.
Qed.

(** *** The order of keys *)

Lemma string_compare_refl s : String.compare s s = Eq.
Proof. now apply String_as_OT.cmp_eq. Qed.

Lemma str_lt_trans a b c : str_lt a b -> str_lt b c -> str_lt a c.
Proof.
  unfold str_lt. intros H1 H2.
  apply String_as_OT.cmp_lt in H1, H2. apply String_as_OT.cmp_lt.
  eapply String_as_OT.lt_trans; eassumption.
Qed.

Lemma key_leb_iff k1 k2 : key_leb k1 k2 = true <-> key_le k1 k2.
Proof.
  destruct k1 as [[[s1 h1] u1] f1], k2 as [[[s2 h2] u2] f2].
  unfold key_le, key_street, key_house, key_unit, key_full, str_lt, str_le.
  cbn [key_leb fst snd].
  destruct (String.compare s1 s2) eqn:Es.
  - apply String_as_OT.cmp_eq in Es. subst s2.
    pose proof (string_compare_refl s1) as R.
    destruct (Z.compare_spec h1 h2) as [Eh|Lh|Gh].
    + subst h2. destruct (Z.compare_spec u1 u2) as [Eu|Lu|Gu].
      * subst u2. intuition (try lia; try congruence).
      * intuition (try lia; try congruence).
      * intuition (try lia; try congruence).
    + intuition (try lia; try congruence).
    + intuition (try lia; try congruence).
  - tauto.
  - split; [discriminate|]. intros [H|[E _]]; [congruence|].
    subst s2. rewrite string_compare_refl in Es. discriminate.
Qed.

Lemma key_le_total k1 k2 : key_le k1 k2 \/ key_le k2 k1.
Proof.
  destruct k1 as [[[s1 h1] u1] f1], k2 as [[[s2 h2] u2] f2].
  unfold key_le, key_street, key_house, key_unit, key_full, str_lt, str_le.
  cbn [fst snd].
  destruct (String.compare s1 s2) eqn:Es.
  - apply String_as_OT.cmp_eq in Es. subst s2.
    destruct (Z.lt_trichotomy h1 h2) as [H|[H|H]]; [auto|subst h2|auto].
    destruct (Z.lt_trichotomy u1 u2) as [H|[H|H]]; [auto 7|subst u2|auto 7].
    destruct (String.leb_total f1 f2); [left|right]; auto 8.
  - auto.
  - right. left. rewrite String.compare_antisym, Es. reflexivity.
Qed.

Lemma key_le_trans k1 k2 k3 : key_le k1 k2 -> key_le k2 k3 -> key_le k1 k3.
Proof.
  unfold key_le.
  intros [H|[E H]] [H'|[E' H']].
  - left. eapply str_lt_trans; eassumption.
  - left. now rewrite <- E'.
  - left. now rewrite E.
  - right. split; [congruence|].
    destruct H as [H|[Eh H]], H' as [H'|[Eh' H']]; try (left; lia).
    right. split; [congruence|].
    destruct H as [H|[Eu H]], H' as [H'|[Eu' H']]; try (left; lia).
    right. split; [congruence|].
    unfold str_le in *. eapply string_leb_trans; eassumption.
Qed.

Lemma StronglySorted_impl {A} (R S : A -> A -> Prop) l :
  (forall a b, R a b -> S a b) -> StronglySorted R l -> StronglySorted S l.
Proof.
  intros H. induction 1 as [|a l Hs IH Ha]; constructor; [exact IH|].
  eapply Forall_impl; [|exact Ha]. intros b. apply H.
Qed.

Lemma sort_addresses_sorted l :
  Permutation (sort_addresses l) l /\
  StronglySorted
    (fun a b => key_le (parse_address_for_sort a) (parse_address_for_sort b))
    (sort_addresses l).
Proof.
  unfold sort_addresses. split; [apply stable_sort_perm|].
  eapply StronglySorted_impl; [|apply stable_sort_sorted].
  - intros a b H. apply key_leb_iff. exact H.
  - intros a b. simpl.
    destruct (key_le_total (parse_address_for_sort a) (parse_address_for_sort b))
      as [H|H]; apply key_leb_iff in H; auto.
  - intros a b c H1 H2. apply key_leb_iff in H1, H2. apply key_leb_iff.
    eapply key_le_trans; eassumption.
Qed.

Example parse_address_for_sort_examples :
  parse_address_for_sort "123 Main St #2" = ("MAIN ST", 123, 2, "123 MAIN ST #2") /\
  parse_address_for_sort "  45  main st" = ("MAIN ST", 45, 0, "45 MAIN ST") /\
  parse_address_for_sort "Main St # 12 #3 rear"
    = ("MAIN ST REAR", 0, 12, "MAIN ST # 12 #3 REAR") /\
  parse_address_for_sort "#7 12 Oak" = ("12 OAK", 0, 7, "#7 12 OAK").
Proof. repeat split. Qed.

(** * Further properties *)

(** ** The normal form of addresses *)

Lemma head_ok_first s c t :
  head_ok s = true -> s = String c t -> Py.isspace c = false.
Proof. intros H ->. simpl in H. now apply negb_true_iff. Qed.

Lemma tidy_last f s t c :
  tidy f s = true -> s = (t ++ String c EmptyString)%string ->
  Py.isspace c = false.
Proof.
  intros H ->. revert f H. induction t as [|a t IH]; intros f H; simpl in H.
  - destruct (Py.isspace c); [|reflexivity].
    rewrite !andb_false_r in H. discriminate.
  - destruct (Py.isspace a).
    + apply andb_true_iff in H as [_ H]. exact (IH _ H).
    + exact (IH _ H).
Qed.

Lemma tidy_space f s a c b :
  tidy f s = true -> s = (a ++ String c b)%string ->
  Py.isspace c = true -> c = " "%char.
Proof.
  intros H -> Hc. revert f H. induction a as [|x a IH]; intros f H; simpl in H.
  - rewrite Hc in H. apply andb_true_iff in H as [H _].
    apply andb_true_iff in H as [_ H]. now apply Ascii.eqb_eq in H.
  - destruct (Py.isspace x).
    + apply andb_true_iff in H as [_ H]. exact (IH _ H).
    + exact (IH _ H).
Qed.

Lemma tidy_single f s a c d b :
  tidy f s = true -> s = (a ++ String c (String d b))%string ->
  Py.isspace c = true -> Py.isspace d = false.
Proof.
  intros H -> Hc. revert f H. induction a as [|x a IH]; intros f H; simpl in H.
  - rewrite Hc in H. apply andb_true_iff in H as [_ H].
    destruct (Py.isspace d); [|reflexivity]. simpl in H. discriminate.
  - destruct (Py.isspace x).
    + apply andb_true_iff in H as [_ H]. exact (IH _ H).
    + exact (IH _ H).
Qed.

Lemma head_ok_of_first s :
  (forall c t, s = String c t -> Py.isspace c = false) -> head_ok s = true.
Proof.
  destruct s as [|c t]; [reflexivity|]. intros H. simpl.
  now rewrite (H c t eq_refl).
Qed.

Lemma tidy_of_normal s : forall f,
  (f = true -> forall c t, s = String c t -> Py.isspace c = false) ->
  (f = true -> s <> EmptyString) ->
  (forall t c, s = (t ++ String c EmptyString)%string -> Py.isspace c = false) ->
  (forall a c b, s = (a ++ String c b)%string -> Py.isspace c = true ->
                 c = " "%char) ->
  (forall a c d b, s = (a ++ String c (String d b))%string ->
                   Py.isspace c = true -> Py.isspace d = false) ->
  tidy f s = true.
Proof.
  induction s as [|x s IH]; intros f H1 Hne H2 H3 H4.
  - simpl. destruct f; [|reflexivity]. now destruct (Hne eq_refl).
  - simpl. destruct (Py.isspace x) eqn:Ex.
    + assert (f = false) as ->.
      { destruct f; [|reflexivity]. rewrite (H1 eq_refl x s eq_refl) in Ex.
        discriminate. }
      rewrite (H3 EmptyString x s eq_refl Ex). simpl.
      apply IH.
      * intros _ c t ->. exact (H4 EmptyString x c t eq_refl Ex).
      * intros _ ->. specialize (H2 EmptyString x eq_refl). congruence.
      * intros t c ->. exact (H2 (String x t) c eq_refl).
      * intros a c b ->. exact (H3 (String x a) c b eq_refl).
      * intros a c d b ->. exact (H4 (String x a) c d b eq_refl).
    + apply IH.
      * discriminate.
      * discriminate.
      * intros t c ->. exact (H2 (String x t) c eq_refl).
      * intros a c b ->. exact (H3 (String x a) c b eq_refl).
      * intros a c d b ->. exact (H4 (String x a) c d b eq_refl).
Qed.

Lemma normal_form_iff s :
  normal_form s <-> head_ok s = true /\ tidy false s = true.
Proof.
  unfold normal_form. split.
  - intros (H1 & H2 & H3 & H4). split; [now apply head_ok_of_first|].
    apply tidy_of_normal; try discriminate; assumption.
  - intros [Hh Ht]. repeat split.
    + intros c t. now apply head_ok_first.
    + intros t c. now apply (tidy_last false s).
    + intros a c b. now apply (tidy_space false s).
    + intros a c d b. now apply (tidy_single false s).
Qed.

(** X1: the result of [normalize_addr] has no whitespace at either end,
    and its only whitespace is single spaces; the strings in this form are
    exactly those that [normalize_addr] returns unchanged. *)
Theorem normalize_addr_normal_form :
  (forall s, normal_form (normalize_addr s)) /\
  (forall s, normalize_addr s = s <-> normal_form s).
Proof.
  split.
  - intros s. apply normal_form_iff. split.
    + apply normalize_addr_head_ok.
    + apply normalize_addr_tidy.
  - intros s. rewrite normal_form_iff. split.
    + intros <-. split; [apply normalize_addr_head_ok|apply normalize_addr_tidy].
    + intros [Hh Ht]. now apply normalize_addr_fixed.
Qed.

Lemma lstrip_empty s : Py.lstrip s = EmptyString <-> all_chars Py.isspace s = true.
Proof.
  induction s as [|c s IH]; simpl; [tauto|].
  destruct (Py.isspace c); simpl; [exact IH|]. split; discriminate.
Qed.

Lemma rstrip_empty s :
  head_ok s = true -> Py.rstrip s = EmptyString -> s = EmptyString.
Proof.
  destruct s as [|c s]; [reflexivity|]. simpl. intros H.
  apply negb_true_iff in H. rewrite H.
  destruct (Py.rstrip s); discriminate.
Qed.

Lemma sub_ws_from_empty f s :
  Py.sub_ws_from f s = EmptyString -> all_chars Py.isspace s = true.
Proof.
  revert f. induction s as [|c s IH]; intros f; simpl; [reflexivity|].
  destruct (Py.isspace c); simpl.
  - destruct f; [apply IH|discriminate].
  - discriminate.
Qed.

(** X2: [normalize_addr] returns the empty string exactly for the strings
    made of whitespace only, the empty one among them. *)
Theorem normalize_addr_empty_iff (s : string) :
  normalize_addr s = EmptyString <-> all_chars Py.isspace s = true.
Proof.
  unfold normalize_addr, Py.sub_ws, Py.strip. split.
  - intros H. apply sub_ws_from_empty in H.
    apply lstrip_empty.
    pose proof (head_ok_rstrip _ (head_ok_lstrip s)) as Hh.
    destruct (Py.rstrip (Py.lstrip s)) as [|c r] eqn:E.
    + apply rstrip_empty in E; [exact E|apply head_ok_lstrip].
    + simpl in H, Hh. apply negb_true_iff in Hh. rewrite Hh in H. discriminate.
  - intros H. apply lstrip_empty in H. now rewrite H.
Qed.

(** ** Keys up to case and whitespace *)

Lemma upper_char_idem c : Py.upper_char (Py.upper_char c) = Py.upper_char c.
Proof. destruct c as [[] [] [] [] [] [] [] []]; reflexivity. Qed.

Lemma upper_char_digit c : Py.isdigit c = true -> Py.upper_char c = c.
Proof. destruct c as [[] [] [] [] [] [] [] []]; vm_compute; congruence. Qed.

Lemma upper_upper s : Py.upper (Py.upper s) = Py.upper s.
Proof.
  induction s as [|c s IH]; simpl; [reflexivity|].
  now rewrite upper_char_idem, IH.
Qed.

Lemma upper_app a b : Py.upper (a ++ b) = (Py.upper a ++ Py.upper b)%string.
Proof. induction a as [|c a IH]; simpl; [reflexivity|]. now rewrite IH. Qed.

Lemma upper_lstrip s : Py.upper (Py.lstrip s) = Py.lstrip (Py.upper s).
Proof.
  induction s as [|c s IH]; simpl; [reflexivity|].
  rewrite isspace_upper_char. destruct (Py.isspace c); [exact IH|reflexivity].
Qed.

Lemma upper_rstrip s : Py.upper (Py.rstrip s) = Py.rstrip (Py.upper s).
Proof.
  induction s as [|c s IH]; simpl; [reflexivity|].
  rewrite isspace_upper_char, <- IH.
  destruct (Py.rstrip s); simpl; [destruct (Py.isspace c)|]; reflexivity.
Qed.

Lemma upper_sub_ws_from f s :
  Py.upper (Py.sub_ws_from f s) = Py.sub_ws_from f (Py.upper s).
Proof.
  revert f. induction s as [|c s IH]; intros f; simpl; [reflexivity|].
  rewrite isspace_upper_char.
  destruct (Py.isspace c); [destruct f|]; simpl; now rewrite IH.
Qed.

Lemma normalize_addr_upper s :
  normalize_addr (Py.upper s) = Py.upper (normalize_addr s).
Proof.
  unfold normalize_addr, Py.sub_ws, Py.strip.
  now rewrite upper_sub_ws_from, upper_rstrip, upper_lstrip.
Qed.

Lemma normalize_addr_twice s :
  normalize_addr (normalize_addr s) = normalize_addr s.
Proof.
  apply normalize_addr_fixed;
    [apply normalize_addr_head_ok|apply normalize_addr_tidy].
Qed.

(** X3: the sort key ignores case and the layout of whitespace: an
    address, its upper-case form and its normalised form have the same key,
    and two addresses have the same key exactly when their normalised
    upper-case forms are equal. *)
Theorem parse_address_for_sort_up_to_case_and_space :
  (forall addr,
     parse_address_for_sort (normalize_addr addr) = parse_address_for_sort addr) /\
  (forall addr,
     parse_address_for_sort (Py.upper addr) = parse_address_for_sort addr) /\
  (forall a b,
     parse_address_for_sort a = parse_address_for_sort b <->
     Py.upper (normalize_addr a) = Py.upper (normalize_addr b)).
Proof.
  split; [|split].
  - intros addr. unfold parse_address_for_sort.
    now rewrite normalize_addr_twice.
  - intros addr. unfold parse_address_for_sort.
    now rewrite normalize_addr_upper, upper_upper.
  - intros a b. split.
    + intros H. apply (f_equal key_full) in H. exact H.
    + intros H. unfold parse_address_for_sort. now rewrite H.
Qed.

(** ** House and unit numbers *)

Lemma rstrip_app_digits ds rest :
  all_chars Py.isdigit ds = true ->
  Py.rstrip (ds ++ rest) = (ds ++ Py.rstrip rest)%string.
Proof.
  induction ds as [|c ds IH]; simpl; intros H; [reflexivity|].
  apply andb_true_iff in H as [Hc H]. rewrite (IH H).
  rewrite (isdigit_not_space _ Hc).
  destruct (ds ++ Py.rstrip rest)%string; reflexivity.
Qed.

Lemma sub_ws_app_digits ds x :
  all_chars Py.isdigit ds = true ->
  Py.sub_ws_from false (ds ++ x) = (ds ++ Py.sub_ws_from false x)%string.
Proof.
  induction ds as [|d ds IH]; simpl; intros H; [reflexivity|].
  apply andb_true_iff in H as [Hd H].
  now rewrite (isdigit_not_space _ Hd), IH.
Qed.

Lemma sub_ws_from_app_digits f c ds x :
  all_chars Py.isdigit (String c ds) = true ->
  Py.sub_ws_from f (String c ds ++ x) =
  (String c ds ++ Py.sub_ws_from false x)%string.
Proof.
  simpl. intros H. apply andb_true_iff in H as [Hc H].
  now rewrite (isdigit_not_space _ Hc), sub_ws_app_digits.
Qed.

Lemma upper_digits ds : all_chars Py.isdigit ds = true -> Py.upper ds = ds.
Proof.
  induction ds as [|c ds IH]; simpl; intros H; [reflexivity|].
  apply andb_true_iff in H as [Hc H].
  now rewrite (upper_char_digit _ Hc), IH.
Qed.

Lemma head_is_digit_upper s :
  head_is Py.isdigit (Py.upper s) = head_is Py.isdigit s.
Proof. destruct s; simpl; [reflexivity|apply isdigit_upper_char]. Qed.

Lemma head_is_digit_sub_ws s :
  head_is Py.isdigit s = false ->
  head_is Py.isdigit (Py.sub_ws_from false s) = false.
Proof.
  destruct s as [|c s]; simpl; [reflexivity|].
  destruct (Py.isspace c); simpl; [reflexivity|auto].
Qed.

Lemma head_is_digit_rstrip s :
  head_is Py.isdigit s = false -> head_is Py.isdigit (Py.rstrip s) = false.
Proof.
  destruct s as [|c s]; simpl; [reflexivity|]. intros H.
  destruct (Py.rstrip s); [destruct (Py.isspace c)|]; simpl; auto.
Qed.

Lemma key_house_of_digits (addr ds rest : string) :
  Py.lstrip addr = (ds ++ rest)%string ->
  ds <> EmptyString ->
  all_chars Py.isdigit ds = true ->
  head_is Py.isdigit rest = false ->
  key_house (parse_address_for_sort addr) = Py.int_of_digits ds.
Proof.
  intros E Hne Hd Hr.
  unfold parse_address_for_sort, key_house. cbn [fst snd].
  unfold normalize_addr, Py.strip, Py.sub_ws. rewrite E.
  destruct ds as [|c ds]; [contradiction|].
  rewrite (rstrip_app_digits _ _ Hd), (sub_ws_from_app_digits _ _ _ _ Hd).
  rewrite upper_app, (upper_digits _ Hd).
  unfold match_house.
  assert (Hc : Py.isspace c = false).
  { simpl in Hd. apply andb_true_iff in Hd as [Hc _].
    now apply isdigit_not_space. }
  cbn [append Py.lstrip]. rewrite Hc.
  change (String c (ds ++ ?x)) with (String c ds ++ x)%string.
  rewrite take_digits_app; [reflexivity|exact Hd|].
  rewrite head_is_digit_upper.
  now apply head_is_digit_sub_ws, head_is_digit_rstrip.
Qed.

(** X4: when the address begins, after whitespace, with a run of digits,
    the house number of its key is the value of this run. *)
Theorem parse_address_for_sort_house (addr ds rest : string) :
  Py.lstrip addr = (ds ++ rest)%string ->
  ds <> EmptyString ->
  all_chars Py.isdigit ds = true ->
  head_is Py.isdigit rest = false ->
  key_house (parse_address_for_sort addr) = Py.int_of_digits ds.
Proof. exact (key_house_of_digits addr ds rest). Qed.

Lemma parse_address_for_sort_house_witness :
  key_house (parse_address_for_sort "  0123b Oak St") = Py.int_of_digits "0123".
Proof.
  apply (parse_address_for_sort_house "  0123b Oak St" "0123" "b Oak St");
    [reflexivity|discriminate|reflexivity|reflexivity].
Defined.

Lemma take_digits_digits s : all_chars Py.isdigit (Py.take_digits s) = true.
Proof. apply take_drop_digits. Qed.

Lemma search_unit_digits s ds :
  search_unit s = Some ds -> all_chars Py.isdigit ds = true.
Proof.
  induction s as [|c s IH]; cbn [search_unit].
  - simpl. discriminate.
  - destruct (unit_here (String c s)) as [ds'|] eqn:U; [|exact IH].
    intros [= ->]. unfold unit_here in U.
    destruct (Ascii.eqb_spec c "#") as [->|N].
    + pose proof (take_digits_digits (Py.lstrip s)) as D.
      destruct (Py.take_digits (Py.lstrip s)); [discriminate|].
      injection U as <-. exact D.
    + exfalso. destruct c as [[] [] [] [] [] [] [] []]; try discriminate U.
      now apply N.
Qed.

(** X5: the house number and the unit number of a key are never
    negative. *)
Theorem parse_address_for_sort_nonnegative (addr : string) :
  0 <= key_house (parse_address_for_sort addr) /\
  0 <= key_unit (parse_address_for_sort addr).
Proof.
  unfold parse_address_for_sort, key_house, key_unit. cbn [fst snd]. split.
  - unfold match_house.
    pose proof (take_digits_digits
                  (Py.lstrip (Py.upper (normalize_addr addr)))) as D.
    destruct (Py.take_digits _); [lia|].
    apply int_of_digits_from_nonneg; [exact D|lia].
  - destruct (search_unit _) as [ds|] eqn:S; [|lia].
    apply int_of_digits_from_nonneg; [|lia].
    exact (search_unit_digits _ _ S).
Qed.

(** ** The street name of a key *)

Lemma spaced_sub_ws_from f s : spaced f (Py.sub_ws_from f s) = true.
Proof.
  revert f. induction s as [|c s IH]; intros f; simpl; [reflexivity|].
  destruct (Py.isspace c) eqn:E.
  - destruct f; simpl; [apply IH|]. change (Py.isspace " ") with true.
    simpl. apply IH.
  - simpl. rewrite E. apply IH.
Qed.

Lemma spaced_weaken s : spaced true s = true -> spaced false s = true.
Proof.
  destruct s as [|c s]; simpl; [reflexivity|].
  destruct (Py.isspace c); [discriminate|auto].
Qed.

Lemma spaced_lstrip f s :
  spaced f s = true -> spaced false (Py.lstrip s) = true.
Proof.
  destruct s as [|c s]; simpl; [reflexivity|].
  destruct (Py.isspace c) eqn:E.
  - intros H. apply andb_true_iff in H as [_ H].
    destruct s as [|d s]; [reflexivity|].
    simpl in H |- *. destruct (Py.isspace d) eqn:Ed; [discriminate|].
    simpl. now rewrite Ed.
  - intros H. simpl. now rewrite E.
Qed.

Lemma tidy_rstrip s : forall f,
  spaced f s = true -> (Py.rstrip s <> EmptyString \/ f = false) ->
  tidy f (Py.rstrip s) = true.
Proof.
  induction s as [|c s IH]; intros f H Hf; simpl in *.
  - destruct Hf as [Hf| ->]; [contradiction|reflexivity].
  - destruct (Py.isspace c) eqn:E.
    + apply andb_true_iff in H as [H Hs]. apply andb_true_iff in H as [Hn Hc].
      destruct (Py.rstrip s) as [|a r] eqn:R.
      * destruct Hf as [Hf| ->]; [contradiction|reflexivity].
      * simpl. rewrite E, Hn, Hc. simpl.
        apply (IH true Hs). left. discriminate.
    + destruct (Py.rstrip s) as [|a r] eqn:R.
      * simpl. now rewrite E.
      * simpl. rewrite E. apply (IH false H). now right.
Qed.

Lemma isspace_upper_space c :
  Py.isspace c = true -> Ascii.eqb (Py.upper_char c) " " = Ascii.eqb c " ".
Proof. destruct c as [[] [] [] [] [] [] [] []]; vm_compute; congruence. Qed.

Lemma tidy_upper s : forall f, tidy f (Py.upper s) = tidy f s.
Proof.
  induction s as [|c s IH]; intros f; simpl; [reflexivity|].
  rewrite isspace_upper_char. destruct (Py.isspace c) eqn:E.
  - now rewrite (isspace_upper_space _ E), IH.
  - apply IH.
Qed.

Lemma head_ok_upper s : head_ok (Py.upper s) = head_ok s.
Proof. destruct s; simpl; [reflexivity|now rewrite isspace_upper_char]. Qed.

(** X6: the street name and the whole address of a key are in normal
    form: no whitespace at either end and single spaces inside. *)
Theorem parse_address_for_sort_normal_form (addr : string) :
  normal_form (key_street (parse_address_for_sort addr)) /\
  normal_form (key_full (parse_address_for_sort addr)).
Proof.
  unfold parse_address_for_sort, key_street, key_full. cbn [fst snd].
  split; apply normal_form_iff.
  - unfold Py.strip, Py.sub_ws. split.
    + apply head_ok_rstrip, head_ok_lstrip.
    + apply tidy_rstrip; [|now right].
      eapply spaced_lstrip. apply spaced_sub_ws_from.
  - rewrite head_ok_upper, tidy_upper. split.
    + apply normalize_addr_head_ok.
    + apply normalize_addr_tidy.
Qed.

(** ** The list of addresses offered for selection *)

Lemma nonempty_iff s : nonempty s = true <-> s <> EmptyString.
Proof. destruct s; simpl; split; try discriminate; auto. Qed.

(** X7: the addresses offered for selection are the values of the address
    column that are not blank, each once, in the order of their keys. *)
Theorem all_addresses_spec (address_column : list string) :
  NoDup (all_addresses address_column) /\
  (forall a, In a (all_addresses address_column) <->
             In a address_column /\ Py.strip a <> EmptyString) /\
  StronglySorted
    (fun a b => key_le (parse_address_for_sort a) (parse_address_for_sort b))
    (all_addresses address_column).
Proof.
  unfold all_addresses.
  set (l := filter (fun a => nonempty (Py.strip a))
                   (unique String.eqb address_column)).
  destruct (sort_addresses_sorted l) as [P S].
  split; [|split; [|exact S]].
  - eapply Permutation_NoDup; [symmetry; exact P|].
    apply NoDup_filter, unique_from_NoDup. exact String.eqb_eq.
  - intros a. split.
    + intros H. apply (Permutation_in _ P) in H.
      apply filter_In in H as [H N]. apply nonempty_iff in N.
      apply (unique_from_In _ String.eqb_eq) in H as [H _]. auto.
    + intros [H N]. apply (Permutation_in _ (Permutation_sym P)).
      apply filter_In. split; [|now apply nonempty_iff].
      apply (unique_from_In _ String.eqb_eq). split; [exact H|intros []].
Qed.


(** ** Writing one column of a table *)

Lemma has_column_In n df : has_column n df = true <-> In n (columns df).
Proof. unfold has_column. apply mem_In. exact String.eqb_eq. Qed.

Lemma has_column_cons n m v df :
  has_column n ((m, v) :: df) = String.eqb m n || has_column n df.
Proof.
  unfold has_column, mem. simpl. now rewrite (String.eqb_sym n m).
Qed.

Lemma column_absent n df : has_column n df = false -> column n df = [].
Proof.
  induction df as [|[m v] df IH]; [reflexivity|].
  rewrite has_column_cons. simpl. intros H.
  apply orb_false_iff in H as [H1 H2]. rewrite H1. now apply IH.
Qed.

Lemma column_set_other n m vals df :
  n <> m -> column n (set_column m vals df) = column n df.
Proof.
  intros N. induction df as [|[k v] df IH]; simpl.
  - destruct (String.eqb_spec m n); [congruence|reflexivity].
  - destruct (String.eqb_spec k m) as [->|Nk]; simpl.
    + destruct (String.eqb_spec m n); [congruence|reflexivity].
    + now rewrite IH.
Qed.

Lemma columns_set_column m vals df :
  columns (set_column m vals df) =
  if has_column m df then columns df else columns df ++ [m].
Proof.
  induction df as [|[k v] df IH]; [reflexivity|].
  rewrite has_column_cons. simpl.
  destruct (String.eqb k m); simpl; [reflexivity|].
  unfold columns in *. rewrite IH. destruct (has_column m df); reflexivity.
Qed.

Lemma has_column_set m vals df : has_column m (set_column m vals df) = true.
Proof.
  apply has_column_In. rewrite columns_set_column.
  destruct (has_column m df) eqn:H.
  - now apply has_column_In.
  - apply in_or_app. right. now left.
Qed.

Lemma has_column_set_other n m vals df :
  n <> m -> has_column n (set_column m vals df) = has_column n df.
Proof.
  intros N. apply eq_true_iff_eq. rewrite !has_column_In, columns_set_column.
  destruct (has_column m df); [tauto|].
  rewrite in_app_iff. simpl. intuition congruence.
Qed.

Lemma has_column_names n df : has_column n df = true -> Py.upper n = n ->
  names_column n df.
Proof.
  intros H U. apply has_column_In in H. unfold names_column.
  rewrite <- U. now apply in_map.
Qed.

(** ** What the address resolution writes *)

Lemma normal_form_empty : normal_form EmptyString.
Proof.
  apply normal_form_iff. split; reflexivity.
Qed.

Lemma normal_form_normalize_addr s : normal_form (normalize_addr s).
Proof.
  apply normal_form_iff. split;
    [apply normalize_addr_head_ok|apply normalize_addr_tidy].
Qed.

Lemma apply_normalize_addr_cells series :
  Forall (fun c => exists s, c = CStr s /\ normal_form s)
         (apply_normalize_addr series).
Proof.
  unfold apply_normalize_addr. apply Forall_forall. intros c Hc.
  apply in_map_iff in Hc as (a & <- & _). eexists. split; [reflexivity|].
  destruct a; simpl; try apply normal_form_normalize_addr.
  apply normal_form_empty.
Qed.

Lemma scan_address_patterns_cases patterns df :
  (exists vals,
     fst (scan_address_patterns patterns (cols_upper df) df) =
       set_column "ADDRESS" vals df /\
     Forall (fun c => exists s, c = CStr s /\ normal_form s) vals /\
     exists p, In p patterns /\ names_column p df) \/
  (scan_address_patterns patterns (cols_upper df) df = (df, None) /\
   forall p, In p patterns -> ~ names_column p df).
Proof.
  induction patterns as [|q ps IH]; simpl.
  - right. split; [reflexivity|]. intros p [].
  - destruct (dict_get q (cols_upper df)) as [c|] eqn:E.
    + left. eexists. split; [reflexivity|].
      split; [apply apply_normalize_addr_cells|].
      exists q. split; [now left|].
      apply cols_upper_some in E as [Hin <-]. now apply in_map.
    + apply cols_upper_none in E. destruct IH as [(vals & E1 & F & p & Hp & N)|[E1 N]].
      * left. exists vals. split; [exact E1|]. split; [exact F|].
        exists p. auto.
      * right. split; [exact E1|]. intros p [<-|Hp]; auto.
Qed.

Lemma find_and_combine_cases df :
  (exists vals,
     fst (find_and_combine_address_columns df) = set_column "ADDRESS" vals df /\
     Forall (fun c => exists s, c = CStr s /\ normal_form s) vals /\
     (names_column "ADDRESS" df \/ names_column "ADDRESS1" df \/
      exists p, In p address_patterns /\ names_column p df)) \/
  (find_and_combine_address_columns df = (df, None) /\
   ~ names_column "ADDRESS" df /\ ~ names_column "ADDRESS1" df /\
   forall p, In p address_patterns -> ~ names_column p df).
Proof.
  unfold find_and_combine_address_columns.
  destruct (dict_get "ADDRESS" (cols_upper df)) as [c|] eqn:E.
  { left. eexists. split; [reflexivity|].
    split; [apply apply_normalize_addr_cells|]. left.
    apply cols_upper_some in E as [Hin <-]. now apply in_map. }
  apply cols_upper_none in E.
  destruct (dict_get "ADDRESS1" (cols_upper df)) as [a1|] eqn:E1.
  { assert (N1 : names_column "ADDRESS1" df).
    { apply cols_upper_some in E1 as [Hin <-]. now apply in_map. }
    destruct (dict_get "ADDRESS2" (cols_upper df)) as [a2|] eqn:E2.
    - left. eexists. split; [reflexivity|]. split; [|auto].
      apply Forall_forall. intros c Hc.
      apply in_map_iff in Hc as (p & <- & _). eexists. split; [reflexivity|].
      apply normal_form_normalize_addr.
    - left. eexists. split; [reflexivity|].
      split; [apply apply_normalize_addr_cells|auto]. }
  apply cols_upper_none in E1.
  destruct (scan_address_patterns_cases address_patterns df)
    as [(vals & Ev & F & p & Hp & N)|[Ev N]].
  - left. exists vals. split; [exact Ev|]. split; [exact F|].
    right. right. eauto.
  - right. auto.
Qed.

(** X8: the address resolution writes no column but ADDRESS, and its
    result has a column ADDRESS exactly when the table has a column named
    ADDRESS, ADDRESS1 or one of the synonyms, in any case of letters. *)
Theorem find_and_combine_writes_address_only (df : table) :
  (forall n, n <> "ADDRESS" ->
     column n (fst (find_and_combine_address_columns df)) = column n df /\
     has_column n (fst (find_and_combine_address_columns df)) =
       has_column n df) /\
  (has_column "ADDRESS" (fst (find_and_combine_address_columns df)) = true <->
   names_column "ADDRESS" df \/ names_column "ADDRESS1" df \/
   exists p, In p address_patterns /\ names_column p df).
Proof.
  destruct (find_and_combine_cases df) as [(vals & E & _ & M)|(E & N0 & N1 & N)].
  - rewrite E. split.
    + intros n Hn. split;
        [now apply column_set_other|now apply has_column_set_other].
    + split; [intros _; exact M|intros _; apply has_column_set].
  - rewrite E. simpl. split; [auto|]. split.
    + intros H. left. now apply has_column_names.
    + intros [H|[H|(p & Hp & H)]]; [contradiction|contradiction|].
      now destruct (N p Hp).
Qed.

(** X9: every cell of the resolved ADDRESS column is a string in normal
    form. *)
Theorem resolved_addresses_normal_form (df : table) (c : cell) :
  In c (column "ADDRESS" (fst (find_and_combine_address_columns df))) ->
  exists s, c = CStr s /\ normal_form s.
Proof.
  destruct (find_and_combine_cases df) as [(vals & E & F & _)|(E & N0 & _)].
  - rewrite E, column_set_column. rewrite Forall_forall in F. apply F.
  - rewrite E. simpl. rewrite column_absent; [intros []|].
    destruct (has_column "ADDRESS" df) eqn:H; [|reflexivity].
    exfalso. apply N0. now apply has_column_names.
Qed.

Lemma resolved_addresses_normal_form_witness :
  exists s, CStr "12 Oak St Unit 4" = CStr s /\ normal_form s.
Proof.
  apply (resolved_addresses_normal_form
           [("Address1", [CStr " 12  Oak St"; CNaN]);
            ("Address2", [CStr "Unit 4 "; CNaN])]).
  simpl. now left.
Defined.

(** ** The listing column *)

Lemma scan_listing_patterns_first df pre p post c :
  (forall q, In q pre -> dict_get q (cols_upper df) = None) ->
  dict_get p (cols_upper df) = Some c ->
  scan_listing_patterns (pre ++ p :: post) (cols_upper df) df =
  (set_column "LISTING" (column c df) df, Some (UsingAsListing c)).
Proof.
  intros Hpre Hp. induction pre as [|q pre IH]; simpl.
  - now rewrite Hp.
  - rewrite (Hpre q (or_introl eq_refl)). apply IH.
    intros q' Hq'. apply Hpre. now right.
Qed.

Lemma scan_listing_patterns_cases patterns df :
  (exists c, In c (columns df) /\
     scan_listing_patterns patterns (cols_upper df) df =
       (set_column "LISTING" (column c df) df, Some (UsingAsListing c)) /\
     exists p, In p patterns /\ names_column p df) \/
  (scan_listing_patterns patterns (cols_upper df) df = (df, None) /\
   forall p, In p patterns -> ~ names_column p df).
Proof.
  induction patterns as [|q ps IH]; simpl.
  - right. split; [reflexivity|]. intros p [].
  - destruct (dict_get q (cols_upper df)) as [c|] eqn:E.
    + left. exists c. apply cols_upper_some in E as [Hin <-].
      split; [exact Hin|]. split; [reflexivity|].
      exists (Py.upper c). split; [now left|]. now apply in_map.
    + apply cols_upper_none in E.
      destruct IH as [(c & Hc & E1 & p & Hp & N)|[E1 N]].
      * left. exists c. split; [exact Hc|]. split; [exact E1|]. exists p. auto.
      * right. split; [exact E1|]. intros p [<-|Hp]; auto.
Qed.

Lemma find_listing_column_cases df :
  (find_listing_column df = (df, None) /\
   (names_column "LISTING" df \/
    (~ names_column "COMPANY_NAME" df /\
     forall p, In p listing_patterns -> ~ names_column p df))) \/
  (exists c, In c (columns df) /\
     find_listing_column df =
       (set_column "LISTING" (column c df) df, Some (UsingAsListing c)) /\
     ~ names_column "LISTING" df /\
     (names_column "COMPANY_NAME" df \/
      exists p, In p listing_patterns /\ names_column p df)).
Proof.
  unfold find_listing_column.
  destruct (dict_get "LISTING" (cols_upper df)) as [c|] eqn:E.
  { left. split; [reflexivity|]. left.
    apply cols_upper_some in E as [Hin <-]. now apply in_map. }
  apply cols_upper_none in E.
  destruct (dict_get "COMPANY_NAME" (cols_upper df)) as [c|] eqn:E1.
  { right. exists c. apply cols_upper_some in E1 as [Hin Hu].
    split; [exact Hin|]. split; [reflexivity|]. split; [exact E|].
    left. rewrite <- Hu. now apply in_map. }
  apply cols_upper_none in E1.
  destruct (scan_listing_patterns_cases listing_patterns df)
    as [(c & Hc & Ev & M)|[Ev N]].
  - right. exists c. auto.
  - left. auto.
Qed.

(** X10: the listing column is taken, in this order, from a column named
    LISTING, which leaves the table as it is; else from COMPANY_NAME; else
    from the first name of the list FACILITY_ID, OCCUPANT, TENANT,
    BUSINESS_NAME, BUSINESS, COMPANY, NAME, OCCUPANT_NAME that names a
    column; the cells are copied as they are, no other column is written,
    and without any of these names the table is returned as it is. *)
Theorem find_listing_column_precedence (df : table) :
  (names_column "LISTING" df -> find_listing_column df = (df, None)) /\
  (~ names_column "LISTING" df -> names_column "COMPANY_NAME" df ->
   exists c, In c (columns df) /\ Py.upper c = "COMPANY_NAME" /\
     find_listing_column df =
     (set_column "LISTING" (column c df) df, Some (UsingAsListing c))) /\
  (~ names_column "LISTING" df -> ~ names_column "COMPANY_NAME" df ->
   forall pre p post,
     listing_patterns = pre ++ p :: post ->
     (forall q, In q pre -> ~ names_column q df) ->
     names_column p df ->
     exists c, In c (columns df) /\ Py.upper c = p /\
       find_listing_column df =
       (set_column "LISTING" (column c df) df, Some (UsingAsListing c))) /\
  (~ names_column "LISTING" df -> ~ names_column "COMPANY_NAME" df ->
   (forall p, In p listing_patterns -> ~ names_column p df) ->
   find_listing_column df = (df, None)) /\
  (forall n, n <> "LISTING" ->
     column n (fst (find_listing_column df)) = column n df).
Proof.
  split; [|split; [|split; [|split]]].
  - intros H. apply cols_upper_names in H as (c & E & _).
    unfold find_listing_column. now rewrite E.
  - intros N H. apply cols_upper_none in N.
    apply cols_upper_names in H as (c & E & Hin & Hu).
    exists c. unfold find_listing_column. now rewrite N, E.
  - intros N N1 pre p post Ep Hpre Hp. apply cols_upper_none in N, N1.
    apply cols_upper_names in Hp as (c & E & Hin & Hu).
    exists c. unfold find_listing_column. rewrite N, N1, Ep.
    split; [exact Hin|]. split; [exact Hu|].
    apply scan_listing_patterns_first; [|exact E].
    intros q Hq. apply cols_upper_none. now apply Hpre.
  - intros N N1 Hall.
    destruct (find_listing_column_cases df)
      as [[E _]|(c & _ & _ & _ & [H|(p & Hp & H)])];
      [exact E|contradiction|now destruct (Hall p Hp)].
  - intros n Hn.
    destruct (find_listing_column_cases df) as [[E _]|(c & _ & E & _)];
      rewrite E; [reflexivity|]. simpl. now apply column_set_other.
Qed.

Lemma find_listing_column_precedence_witness :
  exists c,
    In c ["Address"; "Name"; "Company_Name"] /\ Py.upper c = "COMPANY_NAME" /\
    find_listing_column
      [("Address", [CStr "12 Oak St"]); ("Name", [CStr "J. Doe"]);
       ("Company_Name", [CStr " Acme  Co "])]
    = (set_column "LISTING"
         (column c [("Address", [CStr "12 Oak St"]); ("Name", [CStr "J. Doe"]);
                    ("Company_Name", [CStr " Acme  Co "])])
         [("Address", [CStr "12 Oak St"]); ("Name", [CStr "J. Doe"]);
          ("Company_Name", [CStr " Acme  Co "])],
       Some (UsingAsListing c)).
Proof.
  apply (proj1 (proj2 (find_listing_column_precedence
                  [("Address", [CStr "12 Oak St"]); ("Name", [CStr "J. Doe"]);
                   ("Company_Name", [CStr " Acme  Co "])]))).
  - unfold names_column. simpl. intuition discriminate.
  - unfold names_column. simpl. auto.
Defined.

(** ** Forward fill *)

Lemma ffill_from_length series : forall prev,
  List.length (ffill_from prev series) = List.length series.
Proof.
  induction series as [|c tl IH]; intros prev; simpl; [reflexivity|].
  destruct (isna c); simpl; now rewrite IH.
Qed.

Lemma ffill_from_idem series : forall prev,
  carried prev ->
  ffill_from prev (ffill_from prev series) = ffill_from prev series.
Proof.
  induction series as [|c tl IH]; intros prev Hp; simpl; [reflexivity|].
  destruct (isna c) eqn:E.
  - destruct prev as [v|]; simpl in Hp |- *.
    + rewrite Hp. f_equal. now apply IH.
    + rewrite E. f_equal. now apply IH.
  - simpl. rewrite E. f_equal. now apply IH.
Qed.

Lemma ffill_from_missing pre :
  Forall (fun c => isna c = true) pre -> ffill_from None pre = pre.
Proof.
  induction 1 as [|c pre Hc _ IH]; simpl; [reflexivity|].
  now rewrite Hc, IH.
Qed.

Lemma ffill_from_filled v post :
  isna v = false ->
  Forall (fun c => isna c = false) (ffill_from (Some v) post).
Proof.
  revert v. induction post as [|c post IH]; intros v Hv; simpl; [constructor|].
  destruct (isna c) eqn:E; constructor; auto.
Qed.

(** X11: forward fill keeps the number of cells; filling twice is filling
    once; the missing cells before the first value stay as they are, and
    from the first value on no cell is missing. *)
Theorem ffill_properties :
  (forall series, List.length (ffill series) = List.length series) /\
  (forall series, ffill (ffill series) = ffill series) /\
  (forall pre v post,
     Forall (fun c => isna c = true) pre -> isna v = false ->
     exists filled,
       ffill (pre ++ v :: post) = pre ++ v :: filled /\
       List.length filled = List.length post /\
       Forall (fun c => isna c = false) filled).
Proof.
  split; [|split].
  - intros series. apply ffill_from_length.
  - intros series. apply ffill_from_idem. exact I.
  - intros pre v post Hpre Hv. exists (ffill_from (Some v) post).
    unfold ffill. rewrite (ffill_from_valid _ _ _ _ Hv).
    rewrite (ffill_from_missing _ Hpre).
    split; [reflexivity|].
    split; [apply ffill_from_length|now apply ffill_from_filled].
Qed.

Lemma ffill_properties_witness :
  exists filled,
    ffill ([CNaN] ++ CStr "12 Oak St" :: [CNaN; CStr "14 Oak St"; CNone]) =
      [CNaN] ++ CStr "12 Oak St" :: filled /\
    List.length filled = List.length [CNaN; CStr "14 Oak St"; CNone] /\
    Forall (fun c => isna c = false) filled.
Proof.
  apply (proj2 (proj2 ffill_properties) [CNaN] (CStr "12 Oak St")
           [CNaN; CStr "14 Oak St"; CNone]).
  - repeat constructor.
  - reflexivity.
Defined.

(** ** The header row of a sheet *)

Lemma find_index_some {A} (p : A -> bool) l : forall k i,
  find_index p l k = Some i ->
  exists j x, i = (k + j)%nat /\ nth_error l j = Some x /\ p x = true /\
    forall j' x', (j' < j)%nat -> nth_error l j' = Some x' -> p x' = false.
Proof.
  induction l as [|a l IH]; intros k i; simpl; [discriminate|].
  destruct (p a) eqn:E.
  - intros [= <-]. exists 0%nat, a. repeat split; auto; lia.
  - intros H. apply IH in H as (j & x & -> & Hn & Hp & Hlt).
    exists (S j), x. repeat split; [lia|exact Hn|exact Hp|].
    intros [|j'] x' Hj; simpl.
    + now intros [= <-].
    + apply Hlt. lia.
Qed.

Lemma find_index_first {A} (p : A -> bool) l : forall k j x,
  nth_error l j = Some x -> p x = true ->
  (forall j' x', (j' < j)%nat -> nth_error l j' = Some x' -> p x' = false) ->
  find_index p l k = Some (k + j)%nat.
Proof.
  induction l as [|a l IH]; intros k j x Hn Hp Hlt.
  - destruct j; discriminate.
  - destruct j as [|j]; simpl in *.
    + injection Hn as ->. rewrite Hp. f_equal. lia.
    + rewrite (Hlt 0%nat a); [|lia|reflexivity].
      rewrite (IH (S k) j x Hn Hp); [f_equal; lia|].
      intros j' x' Hj. apply (Hlt (S j')). lia.
Qed.

Lemma find_index_none {A} (p : A -> bool) l : forall k,
  find_index p l k = None <-> forall x, In x l -> p x = false.
Proof.
  induction l as [|a l IH]; intros k; simpl.
  - split; [intros _ x []|reflexivity].
  - destruct (p a) eqn:E.
    + split; [discriminate|]. intros H. rewrite (H a) in E; [discriminate|auto].
    + rewrite IH. split.
      * intros H x [<-|Hx]; auto.
      * intros H x Hx. apply H. now right.
Qed.

Lemma nth_error_first_rows {A} (l : list A) i x :
  nth_error (firstn 50 l) i = Some x <->
  (i < 50)%nat /\ nth_error l i = Some x.
Proof.
  rewrite nth_error_firstn. destruct (Nat.ltb_spec i 50).
  - tauto.
  - split; [discriminate|]. intros [? _]. lia.
Qed.

(** X12: the header row is looked for in the first 50 rows only; the first
    row that names both ADDRESS and YEAR is taken, whatever rows come
    before it; without such a row, the first that names ADDRESS1 or
    COMPANY_NAME; and no header row is found exactly when none of the first
    50 rows has these names. *)
Theorem find_header_row_spec (raw : list (list cell)) :
  (forall i, find_header_row raw = Some i ->
     (i < 50)%nat /\
     exists r, nth_error raw i = Some r /\
               (eris_header r = true \/ other_header r = true)) /\
  (forall i r,
     (i < 50)%nat -> nth_error raw i = Some r -> eris_header r = true ->
     (forall j r', (j < i)%nat -> nth_error raw j = Some r' ->
                   eris_header r' = false) ->
     find_header_row raw = Some i) /\
  (forall i r,
     (i < 50)%nat -> nth_error raw i = Some r -> other_header r = true ->
     (forall j r', (j < 50)%nat -> nth_error raw j = Some r' ->
                   eris_header r' = false) ->
     (forall j r', (j < i)%nat -> nth_error raw j = Some r' ->
                   other_header r' = false) ->
     find_header_row raw = Some i) /\
  (find_header_row raw = None <->
   forall i r, (i < 50)%nat -> nth_error raw i = Some r ->
               eris_header r = false /\ other_header r = false).
Proof.
  unfold find_header_row. fold eris_header. fold other_header.
  split; [|split; [|split]].
  - intros i H.
    destruct (find_index eris_header (firstn 50 raw) 0) as [i'|] eqn:E.
    + injection H as ->. apply find_index_some in E as (j & x & -> & Hn & Hp & _).
      apply nth_error_first_rows in Hn as [Hj Hn]. simpl. eauto.
    + apply find_index_some in H as (j & x & -> & Hn & Hp & _).
      apply nth_error_first_rows in Hn as [Hj Hn]. simpl. eauto.
  - intros i r Hi Hn Hp Hlt.
    rewrite (find_index_first eris_header _ 0 i r); [reflexivity| |exact Hp|].
    + now apply nth_error_first_rows.
    + intros j' x' Hj Hn'. apply nth_error_first_rows in Hn' as [_ Hn'].
      exact (Hlt j' x' Hj Hn').
  - intros i r Hi Hn Hp Hno Hlt.
    assert (E : find_index eris_header (firstn 50 raw) 0 = None).
    { apply find_index_none. intros x Hx.
      apply In_nth_error in Hx as [j Hj].
      apply nth_error_first_rows in Hj as [Hj Hj']. exact (Hno j x Hj Hj'). }
    rewrite E.
    rewrite (find_index_first other_header _ 0 i r); [reflexivity| |exact Hp|].
    + now apply nth_error_first_rows.
    + intros j' x' Hj Hn'. apply nth_error_first_rows in Hn' as [_ Hn'].
      exact (Hlt j' x' Hj Hn').
  - split.
    + intros H i r Hi Hn.
      assert (Hin : In r (firstn 50 raw)).
      { eapply nth_error_In. apply nth_error_first_rows. eauto. }
      destruct (find_index eris_header (firstn 50 raw) 0) eqn:E;
        [discriminate|].
      split; [exact (proj1 (find_index_none _ _ _) E r Hin)|].
      exact (proj1 (find_index_none _ _ _) H r Hin).
    + intros H.
      assert (E : find_index eris_header (firstn 50 raw) 0 = None).
      { apply find_index_none. intros x Hx.
        apply In_nth_error in Hx as [j Hj].
        apply nth_error_first_rows in Hj as [Hj Hj']. apply (H j x Hj Hj'). }
      rewrite E. apply find_index_none. intros x Hx.
      apply In_nth_error in Hx as [j Hj].
      apply nth_error_first_rows in Hj as [Hj Hj']. apply (H j x Hj Hj').
Qed.

Lemma find_header_row_spec_witness :
  find_header_row
    [[CStr "Address1"; CStr "Company_Name"];
     [CStr "address"; CStr "Year"; CStr "Listing"];
     [CStr "12 Oak St"; CInt 1980; CStr "Acme Co"]] = Some 1%nat.
Proof.
  apply (proj1 (proj2 (find_header_row_spec
           [[CStr "Address1"; CStr "Company_Name"];
            [CStr "address"; CStr "Year"; CStr "Listing"];
            [CStr "12 Oak St"; CInt 1980; CStr "Acme Co"]]))
           1%nat [CStr "address"; CStr "Year"; CStr "Listing"]).
  - lia.
  - reflexivity.
  - reflexivity.
  - intros [|j] r' Hj; [|lia]. simpl. now intros [= <-].
Defined.

(** ** Rows without a year in a workbook *)

Lemma select_cells_nil mask : select_cells mask [] = [].
Proof. destruct mask; reflexivity. Qed.

Lemma column_select_rows n mask df :
  column n (select_rows mask df) = select_cells mask (column n df).
Proof.
  induction df as [|[m v] df IH]; simpl.
  - now rewrite select_cells_nil.
  - destruct (String.eqb m n); [reflexivity|exact IH].
Qed.

Lemma columns_select_rows mask df : columns (select_rows mask df) = columns df.
Proof.
  unfold columns, select_rows. rewrite map_map. reflexivity.
Qed.

Lemma select_cells_own_mask series :
  Forall (fun c => isna c = false)
         (select_cells (map (fun c => negb (isna c)) series) series).
Proof.
  unfold select_cells. induction series as [|c tl IH]; simpl; [constructor|].
  destruct (isna c) eqn:E; simpl; [exact IH|].
  constructor; assumption.
Qed.

Lemma column_read_input_other file n :
  n <> "ADDRESS" -> column n (read_input file) = column n (ingested file).
Proof.
  intros N. unfold read_input.
  destruct (has_column "ADDRESS" (ingested file)); [|reflexivity].
  now apply column_set_other.
Qed.

(** X13: in a workbook whose header row is found and has a YEAR column,
    the rows whose YEAR is missing are removed from every column, so that
    no YEAR cell is missing afterwards; a delimited text file keeps all its
    rows. *)
Theorem read_input_drops_rows_without_year :
  (forall raw read_excel h,
     find_header_row raw = Some h ->
     has_column "YEAR" (strip_upper_columns (read_excel h)) = true ->
     (forall n, n <> "ADDRESS" ->
        column n (read_input (ExcelFile raw read_excel)) =
        select_cells
          (map (fun c => negb (isna c))
               (column "YEAR" (strip_upper_columns (read_excel h))))
          (column n (strip_upper_columns (read_excel h)))) /\
     Forall (fun c => isna c = false)
            (column "YEAR" (read_input (ExcelFile raw read_excel)))) /\
  (forall read_csv n, n <> "ADDRESS" ->
     column n (read_input (CsvFile read_csv)) =
     column n (strip_upper_columns read_csv)).
Proof.
  split.
  - intros raw read_excel h Hh Hy.
    assert (E : forall n, n <> "ADDRESS" ->
              column n (read_input (ExcelFile raw read_excel)) =
              select_cells
                (map (fun c => negb (isna c))
                     (column "YEAR" (strip_upper_columns (read_excel h))))
                (column n (strip_upper_columns (read_excel h)))).
    { intros n N. rewrite (column_read_input_other _ _ N).
      simpl. rewrite Hh, Hy. apply column_select_rows. }
    split; [exact E|].
    rewrite E by discriminate. apply select_cells_own_mask.
  - intros read_csv n N. now rewrite (column_read_input_other _ _ N).
Qed.

Lemma read_input_drops_rows_without_year_witness :
  Forall (fun c => isna c = false)
    (column "YEAR"
       (read_input
          (ExcelFile [[CStr "Address"; CStr "Year"; CStr "Listing"]]
             (fun _ => [("Address", [CStr "12 Oak St"; CNaN; CNaN]);
                        ("Year", [CInt 1980; CNaN; CInt 1981]);
                        ("Listing", [CStr "Acme Co"; CStr "left"; CStr "Beta"])])))).
Proof.
  apply (proj1 read_input_drops_rows_without_year
           [[CStr "Address"; CStr "Year"; CStr "Listing"]]
           (fun _ => [("Address", [CStr "12 Oak St"; CNaN; CNaN]);
                      ("Year", [CInt 1980; CNaN; CInt 1981]);
                      ("Listing", [CStr "Acme Co"; CStr "left"; CStr "Beta"])])
           0%nat); reflexivity.
Defined.

(** ** The two parts of an address *)

Lemma rstrip_app_space t : Py.rstrip (t ++ " ") = Py.rstrip t.
Proof.
  induction t as [|c t IH]; [reflexivity|].
  cbn [append Py.rstrip]. now rewrite IH.
Qed.

Lemma strip_space_after s : Py.strip (Py.strip s ++ " ") = Py.strip s.
Proof.
  pose proof (head_ok_rstrip _ (head_ok_lstrip s)) as Hh.
  pose proof (last_ok_rstrip (Py.lstrip s)) as Hl.
  fold (Py.strip s) in Hh, Hl. unfold Py.strip at 1.
  destruct (Py.strip s) as [|c t] eqn:E; [reflexivity|].
  rewrite lstrip_head_ok by exact Hh.
  rewrite rstrip_app_space. now apply rstrip_last_ok.
Qed.

Lemma strip_space_before s : Py.strip (" " ++ Py.strip s) = Py.strip s.
Proof.
  unfold Py.strip at 1. cbn [append Py.lstrip].
  change (Py.isspace " ") with true. cbv iota.
  fold (Py.strip (Py.strip s)). apply strip_strip.
Qed.

Lemma normalize_addr_strip s : normalize_addr (Py.strip s) = normalize_addr s.
Proof. unfold normalize_addr. now rewrite strip_strip. Qed.

(** X14: a missing part of an address counts as empty: with both parts
    missing the combined address is empty, and with one part missing it is
    the other part, normalised, without a space left at either end. *)
Theorem combine_addresses_missing_parts (c1 c2 : cell) :
  (isna c1 = true -> isna c2 = true ->
   combine_addresses c1 c2 = EmptyString) /\
  (isna c1 = false -> isna c2 = true ->
   combine_addresses c1 c2 = normalize_addr (cell_str c1)) /\
  (isna c1 = true -> isna c2 = false ->
   combine_addresses c1 c2 = normalize_addr (cell_str c2)).
Proof.
  unfold combine_addresses. repeat split; intros H1 H2; rewrite H1, H2; simpl.
  - reflexivity.
  - now rewrite strip_space_after, normalize_addr_strip.
  - change (String " " (Py.strip (cell_str c2)))
      with (" " ++ Py.strip (cell_str c2))%string.
    now rewrite strip_space_before, normalize_addr_strip.
Qed.

Lemma combine_addresses_missing_parts_witness :
  combine_addresses (CStr " 12  Oak St ") CNaN = normalize_addr " 12  Oak St ".
Proof.
  apply (proj1 (proj2 (combine_addresses_missing_parts
                         (CStr " 12  Oak St ") CNaN))); reflexivity.
Defined.

(** ** The address column after the upload *)

Lemma upper_name_strip_upper df :
  Forall upper_name (columns (strip_upper_columns df)).
Proof.
  unfold columns, strip_upper_columns. rewrite map_map. simpl.
  apply Forall_forall. intros n Hn. apply in_map_iff in Hn as (col & <- & _).
  apply upper_upper.
Qed.

Lemma upper_name_ingested file : Forall upper_name (columns (ingested file)).
Proof.
  destruct file as [t|raw read_excel]; simpl.
  - apply upper_name_strip_upper.
  - destruct (find_header_row raw); [|apply upper_name_strip_upper].
    destruct (has_column "YEAR" _); rewrite ?columns_select_rows;
      apply upper_name_strip_upper.
Qed.

Lemma columns_read_input file : columns (read_input file) = columns (ingested file).
Proof.
  unfold read_input. destruct (has_column "ADDRESS" (ingested file)) eqn:H;
    [|reflexivity].
  now rewrite columns_set_column, H.
Qed.

Lemma rename_upper_names df :
  Forall upper_name (columns df) ->
  map (fun col => (Py.upper (fst col), snd col)) df = df.
Proof.
  induction df as [|[n v] df IH]; simpl; intros H; [reflexivity|].
  inversion H as [|? ? Hn H']; subst. unfold upper_name in Hn. simpl.
  now rewrite Hn, IH.
Qed.

Lemma names_column_upper_names k df :
  Forall upper_name (columns df) ->
  (names_column k df <-> has_column k df = true).
Proof.
  intros H. unfold names_column. rewrite has_column_In.
  assert (E : map Py.upper (columns df) = columns df).
  { induction (columns df) as [|n l IH]; [reflexivity|].
    inversion H as [|? ? Hn H']; subst. simpl. unfold upper_name in Hn.
    now rewrite Hn, IH. }
  now rewrite E.
Qed.

Lemma load_addresses_read_input file :
  load_addresses file = find_and_combine_address_columns (read_input file).
Proof.
  unfold load_addresses. rewrite rename_upper_names; [reflexivity|].
  rewrite columns_read_input. apply upper_name_ingested.
Qed.

Lemma apply_normalize_addr_idem series :
  apply_normalize_addr (apply_normalize_addr series) =
  apply_normalize_addr series.
Proof.
  unfold apply_normalize_addr. rewrite map_map. apply map_ext. intros a.
  f_equal. destruct a; simpl; try apply normalize_addr_twice. reflexivity.
Qed.

Lemma find_and_combine_address_present df :
  Forall upper_name (columns df) -> has_column "ADDRESS" df = true ->
  find_and_combine_address_columns df =
  (set_column "ADDRESS" (apply_normalize_addr (column "ADDRESS" df)) df, None).
Proof.
  intros U H. unfold find_and_combine_address_columns.
  assert (N : names_column "ADDRESS" df) by now apply names_column_upper_names.
  apply cols_upper_names in N as (c & E & Hin & Hu). rewrite E.
  rewrite Forall_forall in U. specialize (U c Hin). unfold upper_name in U.
  rewrite U in Hu. now subst c.
Qed.

(** X15: when the uploaded table has a column ADDRESS, the address
    resolution that follows [read_input] leaves this column as [read_input]
    made it, forward-filled and normalised, and shows no message. *)
Theorem load_addresses_keeps_address (file : upload) :
  has_column "ADDRESS" (ingested file) = true ->
  column "ADDRESS" (fst (load_addresses file)) =
    apply_normalize_addr (ffill (column "ADDRESS" (ingested file))) /\
  column "ADDRESS" (fst (load_addresses file)) =
    column "ADDRESS" (read_input file) /\
  snd (load_addresses file) = None.
Proof.
  intros H. rewrite load_addresses_read_input.
  assert (E : column "ADDRESS" (read_input file) =
              apply_normalize_addr (ffill (column "ADDRESS" (ingested file)))).
  { unfold read_input. rewrite H. apply column_set_column. }
  rewrite find_and_combine_address_present.
  - simpl. rewrite column_set_column, E, apply_normalize_addr_idem. auto.
  - rewrite columns_read_input. apply upper_name_ingested.
  - apply has_column_In. rewrite columns_read_input. now apply has_column_In.
Qed.

Lemma load_addresses_keeps_address_witness :
  column "ADDRESS"
    (fst (load_addresses
            (CsvFile [("Address ", [CStr "12  Oak St"; CNaN]);
                      ("Address1", [CStr "x"; CStr "y"])])))
  = apply_normalize_addr
      (ffill (column "ADDRESS"
                (ingested (CsvFile [("Address ", [CStr "12  Oak St"; CNaN]);
                                    ("Address1", [CStr "x"; CStr "y"])])))).
Proof.
  apply (load_addresses_keeps_address
           (CsvFile [("Address ", [CStr "12  Oak St"; CNaN]);
                     ("Address1", [CStr "x"; CStr "y"])])).
  reflexivity.
Defined.

(** ** Missing columns *)

Lemma upper_name_find_and_combine df :
  Forall upper_name (columns df) ->
  Forall upper_name (columns (fst (find_and_combine_address_columns df))).
Proof.
  intros U.
  destruct (find_and_combine_cases df) as [(vals & E & _)|(E & _)]; rewrite E;
    [|exact U].
  rewrite columns_set_column. destruct (has_column "ADDRESS" df); [exact U|].
  apply Forall_app. split; [exact U|]. repeat constructor.
Qed.

Lemma has_column_find_and_combine df n :
  n <> "ADDRESS" ->
  has_column n (fst (find_and_combine_address_columns df)) = has_column n df.
Proof.
  intros N.
  destruct (find_and_combine_cases df) as [(vals & E & _)|(E & _)]; rewrite E;
    [|reflexivity].
  now apply has_column_set_other.
Qed.

Lemma has_column_find_listing df n :
  n <> "LISTING" ->
  has_column n (fst (find_listing_column df)) = has_column n df.
Proof.
  intros N.
  destruct (find_listing_column_cases df) as [[E _]|(c & _ & E & _)];
    rewrite E; [reflexivity|].
  now apply has_column_set_other.
Qed.

Lemma has_address_find_and_combine df :
  Forall upper_name (columns df) ->
  has_column "ADDRESS" (fst (find_and_combine_address_columns df)) = false <->
  has_column "ADDRESS" df = false /\ has_column "ADDRESS1" df = false /\
  forall p, In p address_patterns -> has_column p df = false.
Proof.
  intros U.
  destruct (find_and_combine_cases df) as [(vals & E & _ & M)|(E & N0 & N1 & N)];
    rewrite E.
  - rewrite has_column_set. split; [discriminate|].
    intros (H0 & H1 & H). exfalso.
    destruct M as [M|[M|(p & Hp & M)]];
      apply (names_column_upper_names _ _ U) in M; try congruence.
    rewrite (H p Hp) in M. discriminate.
  - simpl. split; [|tauto]. intros H0. split; [exact H0|].
    split.
    + destruct (has_column "ADDRESS1" df) eqn:H; [|reflexivity].
      exfalso. apply N1. now apply names_column_upper_names.
    + intros p Hp. destruct (has_column p df) eqn:H; [|reflexivity].
      exfalso. apply (N p Hp). now apply names_column_upper_names.
Qed.

Lemma has_listing_find_listing df :
  Forall upper_name (columns df) ->
  has_column "LISTING" (fst (find_listing_column df)) = false <->
  has_column "LISTING" df = false /\ has_column "COMPANY_NAME" df = false /\
  forall p, In p listing_patterns -> has_column p df = false.
Proof.
  intros U.
  destruct (find_listing_column_cases df)
    as [[E [M|[N1 N]]]|(c & _ & E & N0 & M)]; rewrite E; simpl.
  - apply (names_column_upper_names _ _ U) in M. rewrite M.
    split; [discriminate|]. intros [H _]. discriminate.
  - split; [|tauto]. intros H0. split; [exact H0|]. split.
    + destruct (has_column "COMPANY_NAME" df) eqn:H; [|reflexivity].
      exfalso. apply N1. now apply names_column_upper_names.
    + intros p Hp. destruct (has_column p df) eqn:H; [|reflexivity].
      exfalso. apply (N p Hp). now apply names_column_upper_names.
  - rewrite has_column_set. split; [discriminate|].
    intros (H0 & H1 & H). exfalso.
    destruct M as [M|(p & Hp & M)];
      apply (names_column_upper_names _ _ U) in M; try congruence.
    rewrite (H p Hp) in M. discriminate.
Qed.

Lemma listing_names_not_address p :
  In p ("LISTING" :: "COMPANY_NAME" :: "YEAR" :: listing_patterns) ->
  p <> "ADDRESS".
Proof.
  simpl. intros H E. subst p. intuition discriminate.
Qed.

(** X16: the script stops for a missing address column exactly when the
    header of the upload, trimmed and in upper case, has none of ADDRESS,
    ADDRESS1 and the address synonyms, and it then lists this header; it
    stops for a missing listing column exactly when an address column is
    found and the header has none of LISTING, COMPANY_NAME and the listing
    synonyms; otherwise the table has both columns, and the warning about
    YEAR is given exactly when the header has no YEAR. *)
Theorem load_directory_outcomes (file : upload) :
  let header := ingested file in
  let no_address :=
    has_column "ADDRESS" header = false /\
    has_column "ADDRESS1" header = false /\
    forall p, In p address_patterns -> has_column p header = false in
  let no_listing :=
    has_column "LISTING" header = false /\
    has_column "COMPANY_NAME" header = false /\
    forall p, In p listing_patterns -> has_column p header = false in
  (load_directory file = MissingAddress (columns header) <-> no_address) /\
  (forall cols, load_directory file = MissingAddress cols ->
                cols = columns header) /\
  ((exists cols, load_directory file = MissingListing cols) <->
   ~ no_address /\ no_listing) /\
  (forall df w, load_directory file = Loaded df w ->
     has_column "ADDRESS" df = true /\ has_column "LISTING" df = true /\
     w = negb (has_column "YEAR" header)).
Proof.
  intros header no_address no_listing.
  assert (U1 : Forall upper_name (columns (read_input file))).
  { rewrite columns_read_input. apply upper_name_ingested. }
  assert (Hh : forall n, has_column n (read_input file) = has_column n header).
  { intros n. apply eq_true_iff_eq.
    now rewrite !has_column_In, columns_read_input. }
  pose proof (has_address_find_and_combine _ U1) as A.
  rewrite !Hh in A.
  assert (A' : has_column "ADDRESS"
                 (fst (find_and_combine_address_columns (read_input file)))
               = false <-> no_address).
  { rewrite A. unfold no_address. split; intros (H0 & H1 & H); repeat split;
      auto; intros p Hp; specialize (H p Hp); now rewrite Hh in *. }
  clear A.
  pose proof (upper_name_find_and_combine _ U1) as U2.
  pose proof (has_listing_find_listing _ U2) as L.
  assert (L' : has_column "LISTING"
                 (fst (find_listing_column
                         (fst (find_and_combine_address_columns
                                 (read_input file))))) = false <-> no_listing).
  { rewrite L. unfold no_listing.
    rewrite !has_column_find_and_combine by discriminate. rewrite !Hh.
    assert (P : forall p, In p listing_patterns ->
                has_column p (fst (find_and_combine_address_columns
                                     (read_input file))) =
                has_column p header).
    { intros p Hp. rewrite has_column_find_and_combine, Hh; [reflexivity|].
      apply listing_names_not_address. do 3 right. exact Hp. }
    split; intros (H0 & H1 & H); (split; [exact H0|split; [exact H1|]]);
      intros p Hp; [rewrite <- P|rewrite P]; auto. }
  clear L.
  unfold load_directory.
  rewrite (rename_upper_names _ U1).
  set (df2 := fst (find_and_combine_address_columns (read_input file))) in *.
  set (df3 := fst (find_listing_column df2)) in *.
  destruct (has_column "ADDRESS" df2) eqn:HA; simpl.
  - assert (NA : ~ no_address) by (intros H; apply A' in H; discriminate).
    destruct (has_column "LISTING" df3) eqn:HL; simpl.
    + split; [split; [discriminate|contradiction]|].
      split; [discriminate|]. split.
      * split; [intros [cols H]; discriminate|].
        intros [_ H]. apply L' in H. discriminate.
      * intros df w [= <- <-]. split; [|split; [exact HL|]].
        -- unfold df3. now rewrite has_column_find_listing by discriminate.
        -- unfold df3, df2.
           rewrite has_column_find_listing, has_column_find_and_combine, Hh
             by discriminate. reflexivity.
    + split; [split; [discriminate|contradiction]|].
      split; [discriminate|]. split; [|discriminate].
      split; [intros _; split; [exact NA|now apply L']|eauto].
  - assert (NA : no_address) by now apply A'.
    assert (E : df2 = read_input file).
    { unfold df2.
      destruct (find_and_combine_cases (read_input file))
        as [(vals & E & _)|(E & _)]; [|now rewrite E].
      unfold df2 in HA. rewrite E, has_column_set in HA. discriminate. }
    rewrite E, columns_read_input.
    split; [tauto|]. split; [now intros cols [= <-]|].
    split; [|discriminate].
    split; [intros [cols H]; discriminate|tauto].
Qed.


(** ** What the compressor returns *)

Lemma compress_loop_output rest : forall start_y prev_y prev_occ rows out,
  compress_loop start_y prev_y prev_occ rest rows = Py.Ok out ->
  exists new,
    out = rows ++ new /\ new <> [] /\
    (List.length new <= S (List.length rest))%nat /\
    forall r, In r new -> In (snd r) (prev_occ :: map snd rest).
Proof.
  induction rest as [|[y occ] rest IH]; intros s p o rows out; simpl.
  - intros [= <-]. eexists. split; [reflexivity|].
    split; [discriminate|]. split; [simpl; lia|].
    intros r [<-|[]]. now left.
  - destruct (Py.add1 p) as [next_y|]; [|discriminate].
    destruct (Py.eqb y next_y && String.eqb occ o).
    + intros H. apply IH in H as (new & -> & Hne & Hl & Hin).
      exists new. split; [reflexivity|]. split; [exact Hne|].
      split; [lia|]. intros r Hr. destruct (Hin r Hr) as [E|E]; simpl; auto.
    + intros H. apply IH in H as (new & -> & Hne & Hl & Hin).
      exists ((Py.PStr (label s p), o) :: new).
      split; [now rewrite <- app_assoc|]. split; [discriminate|].
      split; [simpl; lia|].
      intros r [<-|Hr]; [now left|]. right. exact (Hin r Hr).
Qed.

Lemma compress_year_runs_output_parts (rows out : list year_row) :
  compress_year_runs rows = Py.Ok out ->
  (out = [] <-> rows = []) /\
  (forall r, In r out -> In (snd r) (map snd rows)).
Proof.
  destruct rows as [|[y0 occ0] tl]; simpl.
  - intros [= <-]. split; [tauto|]. intros r [].
  - match goal with |- (if ?b then _ else _) = _ -> _ => destruct b end.
    + intros [= <-]. split; [split; discriminate|].
      intros r Hr. apply (in_map snd) in Hr. exact Hr.
    + intros H. apply compress_loop_output in H as (new & -> & Hne & Hl & Hin).
      simpl. split; [|exact Hin].
      split; [intros ->; contradiction|discriminate].
Qed.

(** X17: when [compress_year_runs] returns, it returns at most as many
    rows as it was given and at least one unless it was given none, and
    every occupant text it returns is one of its input. *)
Theorem compress_year_runs_output (rows out : list year_row) :
  compress_year_runs rows = Py.Ok out ->
  (List.length out <= List.length rows)%nat /\
  (out = [] <-> rows = []) /\
  (forall r, In r out -> In (snd r) (map snd rows)).
Proof.
  intros H. split; [|exact (compress_year_runs_output_parts _ _ H)].
  destruct rows as [|[y0 occ0] tl]; simpl in H.
  - injection H as <-. simpl. lia.
  - revert H.
    match goal with |- (if ?b then _ else _) = _ -> _ => destruct b end.
    + intros [= <-]. lia.
    + intros H. apply compress_loop_output in H as (new & -> & _ & Hl & _).
      simpl. exact Hl.
Qed.

Lemma compress_year_runs_output_witness :
  (List.length [(Py.PStr "1970-1971", "A"); (Py.PStr "1973", "A")]
   <= List.length [(Py.PInt 1970, "A"); (Py.PInt 1971, "A"); (Py.PInt 1973, "A")])%nat.
Proof.
  apply (compress_year_runs_output
           [(Py.PInt 1970, "A"); (Py.PInt 1971, "A"); (Py.PInt 1973, "A")]
           [(Py.PStr "1970-1971", "A"); (Py.PStr "1973", "A")]).
  reflexivity.
Defined.

(** ** The aggregator and the reports *)

Lemma compress_ok_on_ints rows :
  Forall (fun r : year_row => exists y, fst r = Py.PInt y) rows ->
  exists out, compress_year_runs rows = Py.Ok out.
Proof.
  intros H. destruct rows as [|[y0 occ0] tl]; [simpl; eauto|].
  inversion H as [|? ? [z Hz] H']; subst. simpl in Hz. subst y0.
  unfold compress_year_runs.
  match goal with |- exists _, (if ?b then _ else _) = _ => destruct b end;
    [eauto|].
  now apply compress_loop_ok_on_ints.
Qed.

Lemma string_concat_nonempty sep x l :
  x <> EmptyString -> String.concat sep (x :: l) <> EmptyString.
Proof.
  intros N. simpl. destruct l; [exact N|].
  destruct x; [contradiction|discriminate].
Qed.

Lemma combine_listings_nonempty x l :
  x <> EmptyString -> combine_listings (x :: l) <> EmptyString.
Proof.
  intros N. unfold combine_listings. cbn [combine_loop mem existsb negb].
  rewrite combine_loop_unique. apply string_concat_nonempty. exact N.
Qed.

(** *** When the aggregator raises *)



Section Report_facts.
Variable float_text : string -> numeric.

Lemma compress_format_ok df out :
  format_year_listing float_text df = Py.Ok out ->
  exists runs, compress_year_runs out = Py.Ok runs.
Proof.
  intros F.
  destruct (format_year_listing_labels float_text df out F) as [H|H].
  - eexists. now apply compress_all_na.
  - now apply compress_ok_on_ints.
Qed.

Lemma year_rows_nonempty df t y l :
  year_rows float_text df = Py.Ok t -> In (y, l) t -> l <> EmptyString.
Proof.
  unfold year_rows. intros E H.
  destruct (astype_int_rows _); simpl in E; try discriminate.
  injection E as <-. apply filter_In in H as [_ H].
  now apply nonempty_iff in H.
Qed.

Lemma format_texts_nonempty (df : DataFrame) (out : list year_row) :
  format_year_listing float_text df = Py.Ok out ->
  Forall (fun r : year_row => snd r <> EmptyString) out.
Proof.
  unfold format_year_listing.
  destruct (has_YEAR df), (has_LISTING df); simpl;
    try (intros [= <-]; constructor).
  - destruct (year_rows float_text df) as [t| |] eqn:Y; simpl;
      try discriminate.
    destruct t as [|p t']; [discriminate|]. intros [= <-].
    set (t := p :: t') in *.
    apply Forall_forall. intros r Hr.
    apply in_map_iff in Hr as ([y ls] & <- & Hg). simpl.
    unfold groupby_year in Hg. apply in_map_iff in Hg as (y' & E & Hy).
    injection E as -> <-.
    apply (Permutation_in _ (stable_sort_perm Z.leb _)) in Hy.
    apply (unique_from_In _ Z.eqb_eq) in Hy as [Hy _].
    apply in_map_iff in Hy as ([y0 l0] & E0 & Hin). simpl in E0. subst y0.
    assert (Hf : In (y, l0) (filter (fun r => fst r =? y) (sort_values t))).
    { apply filter_In. split; [exact Hin|]. simpl. apply Z.eqb_refl. }
    destruct (filter _ _) as [|[y1 l1] tl] eqn:F; [destruct Hf|].
    assert (H1 : In (y1, l1) t).
    { assert (H1 : In (y1, l1)
                     (filter (fun r => fst r =? y) (sort_values t)))
        by (rewrite F; now left).
      apply filter_In in H1 as [H1 _].
      exact (Permutation_in _ (stable_sort_perm row_leb _) H1). }
    simpl. apply combine_listings_nonempty.
    exact (year_rows_nonempty _ _ _ _ Y H1).
  - intros [= <-]. apply Forall_forall. intros r Hr.
    apply in_map_iff in Hr as (l & <- & Hl). simpl.
    apply (unique_from_In _ String.eqb_eq) in Hl as [Hl _].
    apply filter_In in Hl as [_ Hl]. now apply nonempty_iff.
Qed.

(** X18: every row that the aggregator returns has an occupant text that
    is not empty. *)
Theorem format_year_listing_texts_nonempty (df : DataFrame)
    (out : list year_row) :
  format_year_listing float_text df = Py.Ok out ->
  Forall (fun r : year_row => snd r <> EmptyString) out.
Proof. exact (format_texts_nonempty df out). Qed.

Lemma adjoining_lines_nil runs :
  Forall (fun r : year_row => snd r <> EmptyString) runs ->
  (adjoining_lines runs = [] <-> runs = []).
Proof.
  intros H. destruct runs as [|r runs]; [tauto|].
  inversion H as [|? ? Hr _]; subst. apply nonempty_iff in Hr.
  unfold adjoining_lines. simpl. rewrite Hr. split; discriminate.
Qed.

(** The aggregator returns unless, in its year-aware branch, a year is not
    finite or no row reaches the sort. *)
Lemma format_year_listing_returns df :
  (exists out, format_year_listing float_text df = Py.Ok out) <->
  has_YEAR df && has_LISTING df = false \/
  exists p t, year_rows float_text df = Py.Ok (p :: t).
Proof.
  unfold format_year_listing.
  destruct (has_YEAR df), (has_LISTING df); simpl;
    try (split; [now left|intros _; eauto]).
  destruct (year_rows float_text df) as [[|p t]| |]; simpl.
  - split; [intros [out H]; discriminate|].
    intros [H|(p & t & H)]; discriminate.
  - split; [right; eauto|intros _; eauto].
  - split; [intros [out H]; discriminate|].
    intros [H|(p & t & H)]; discriminate.
  - split; [intros [out H]; discriminate|].
    intros [H|(p & t & H)]; discriminate.
Qed.

Lemma subject_loop_returns selected df : forall table,
  (exists out, subject_loop float_text selected df table = Py.Ok out) <->
  Forall (fun addr =>
            exists out,
              format_year_listing float_text (select_address df addr) =
              Py.Ok out) selected.
Proof.
  induction selected as [|addr rest IH]; intros table.
  - simpl. split; [constructor|eauto].
  - cbn [subject_loop].
    destruct (format_year_listing float_text (select_address df addr))
      as [out| |] eqn:F; cbn [Py.bind].
    + destruct (compress_format_ok _ _ F) as [runs ->]. cbn [Py.bind].
      destruct runs; rewrite IH;
        (split; [intros H; constructor; eauto|intros H; now inversion H]).
    + split; [intros [o H]; discriminate|].
      intros H. inversion H as [|? ? [o Ho] _]. congruence.
    + split; [intros [o H]; discriminate|].
      intros H. inversion H as [|? ? [o Ho] _]. congruence.
Qed.

Lemma adjoining_loop_returns selected df direction_map : forall table,
  (exists out,
     adjoining_loop float_text selected df direction_map table = Py.Ok out) <->
  Forall (fun addr =>
            exists out,
              format_year_listing float_text (select_address df addr) =
              Py.Ok out) selected.
Proof.
  induction selected as [|addr rest IH]; intros table.
  - simpl. split; [constructor|eauto].
  - cbn [adjoining_loop].
    destruct (format_year_listing float_text (select_address df addr))
      as [out| |] eqn:F; cbn [Py.bind].
    + destruct (compress_format_ok _ _ F) as [runs ->]. cbn [Py.bind].
      rewrite IH.
      split; [intros H; constructor; eauto|intros H; now inversion H].
    + split; [intros [o H]; discriminate|].
      intros H. inversion H as [|? ? [o Ho] _]. congruence.
    + split; [intros [o H]; discriminate|].
      intros H. inversion H as [|? ? [o Ho] _]. congruence.
Qed.

Lemma adjoining_loop_rows selected df direction_map : forall table out,
  adjoining_loop float_text selected df direction_map table = Py.Ok out ->
  exists rows,
    out = table ++ rows /\
    map (fun r => snd (fst r)) rows = selected /\
    map (fun r => fst (fst r)) rows =
      map (fun a => match direction_map a with Some d => d | None => "" end)
          selected.
Proof.
  induction selected as [|addr rest IH]; intros table out; cbn [adjoining_loop].
  - intros [= <-]. exists []. now rewrite app_nil_r.
  - destruct (format_year_listing float_text (select_address df addr))
      as [o| |] eqn:F; cbn [Py.bind]; try discriminate.
    destruct (compress_format_ok _ _ F) as [runs ->]. cbn [Py.bind].
    intros H. apply IH in H as (rows & -> & Ha & Hd).
    eexists (_ :: rows). rewrite <- app_assoc. split; [reflexivity|].
    simpl. now rewrite Ha, Hd.
Qed.

(** X19: the compressor never raises on a table that the aggregator
    returns; the aggregator returns unless the table has the columns YEAR
    and LISTING and either a year that is not finite or no row that
    reaches the sort; each report builder returns a table exactly when
    the aggregator returns for every selected address. *)
Theorem report_builders_return (df : DataFrame) (selected : list string)
    (direction_map : string -> option string) :
  (forall out,
     format_year_listing float_text df = Py.Ok out ->
     exists runs, compress_year_runs out = Py.Ok runs) /\
  ((exists out, format_year_listing float_text df = Py.Ok out) <->
   has_YEAR df && has_LISTING df = false \/
   exists p t, year_rows float_text df = Py.Ok (p :: t)) /\
  ((exists table,
      build_subject_report_docx float_text selected df = Py.Ok table) <->
   Forall (fun addr =>
             exists out,
               format_year_listing float_text (select_address df addr) =
               Py.Ok out) selected) /\
  ((exists table,
      build_adjoining_report_docx float_text selected df direction_map =
      Py.Ok table) <->
   Forall (fun addr =>
             exists out,
               format_year_listing float_text (select_address df addr) =
               Py.Ok out) selected).
Proof.
  split; [apply compress_format_ok|].
  split; [apply format_year_listing_returns|].
  split; [apply subject_loop_returns|apply adjoining_loop_returns].
Qed.

(** X20: when the builder of the adjoining table returns, the table has
    its header and then one row for each selected address, in the order of
    the selection, with the direction given for the address, or an empty
    one. *)
Theorem build_adjoining_report_docx_rows (df : DataFrame)
    (selected : list string) (direction_map : string -> option string)
    (table : list (string * string * string)) :
  build_adjoining_report_docx float_text selected df direction_map =
    Py.Ok table ->
  exists rows,
    table = adjoining_header :: rows /\
    map (fun r => snd (fst r)) rows = selected /\
    map (fun r => fst (fst r)) rows =
      map (fun a => match direction_map a with Some d => d | None => "" end)
          selected.
Proof.
  unfold build_adjoining_report_docx. intros H.
  apply adjoining_loop_rows in H as (rows & -> & H). now exists rows.
Qed.

(** X21: in the adjoining table the occupant cell of an address is
    "No results" exactly when the aggregator has no row for it; otherwise
    it has one line for each compressed run. *)
Theorem adjoining_no_results_iff (df : DataFrame) (addr : string)
    (out runs : list year_row) :
  format_year_listing float_text (select_address df addr) = Py.Ok out ->
  compress_year_runs out = Py.Ok runs ->
  (adjoining_lines runs = [] <-> out = []) /\
  List.length (adjoining_lines runs) = List.length runs.
Proof.
  intros F H.
  pose proof (format_texts_nonempty (select_address df addr) out F) as N.
  destruct (compress_year_runs_output_parts _ _ H) as (E & Hin).
  assert (Nr : Forall (fun r : year_row => snd r <> EmptyString) runs).
  { apply Forall_forall. intros r Hr. specialize (Hin r Hr).
    apply in_map_iff in Hin as (r' & <- & Hr').
    rewrite Forall_forall in N. now apply N. }
  split.
  - rewrite (adjoining_lines_nil _ Nr). exact E.
  - clear -Nr. induction Nr as [|r l Hr _ IH]; [reflexivity|].
    apply nonempty_iff in Hr. unfold adjoining_lines in *.
    cbn [flat_map]. rewrite Hr. cbn [app List.length]. f_equal. exact IH.
Qed.

Lemma subject_loop_blocks selected df : forall table out,
  subject_loop float_text selected df table = Py.Ok out ->
  exists blocks,
    out = table ++ List.concat blocks /\
    Forall2 (fun addr block =>
               block <> [] /\
               forall row : string * string, In row block ->
                 exists text, snd row = (addr ++ " — " ++ text)%string)
            selected blocks.
Proof.
  induction selected as [|addr rest IH]; intros table out; cbn [subject_loop].
  - intros [= <-]. exists []. simpl. rewrite app_nil_r.
    split; [reflexivity|constructor].
  - destruct (format_year_listing float_text (select_address df addr))
      as [o| |] eqn:F; cbn [Py.bind]; try discriminate.
    destruct (compress_format_ok _ _ F) as [runs ->]. cbn [Py.bind].
    destruct runs as [|r runs].
    + intros H. apply IH in H as (blocks & -> & Fb).
      exists ([("", (addr ++ " — No results")%string)] :: blocks).
      simpl. rewrite <- app_assoc. split; [reflexivity|].
      constructor; [|exact Fb]. split; [discriminate|].
      intros row [<-|[]]. now exists "No results".
    + intros H. apply IH in H as (blocks & -> & Fb).
      eexists (_ :: blocks). cbn [List.concat]. rewrite <- app_assoc.
      split; [reflexivity|].
      constructor; [|exact Fb]. split; [discriminate|].
      intros row Hrow. apply in_map_iff in Hrow as (r' & <- & _).
      now exists (snd r').
Qed.

(** X22: when the builder of the subject table returns, the table has its
    header and then, for each selected address in the order of the
    selection, a block of one row at least, every row of which reads
    "{address} — ..." in its second cell. *)
Theorem build_subject_report_docx_rows (df : DataFrame)
    (selected : list string) (table : list (string * string)) :
  build_subject_report_docx float_text selected df = Py.Ok table ->
  exists blocks,
    table = subject_header :: List.concat blocks /\
    Forall2 (fun addr block =>
               block <> [] /\
               forall row : string * string, In row block ->
                 exists text, snd row = (addr ++ " — " ++ text)%string)
            selected blocks.
Proof.
  unfold build_subject_report_docx. intros H.
  apply subject_loop_blocks in H as (b & -> & Fb). now exists b.
Qed.

(** *** The order of the rows of the table *)

Lemma row_leb_antisym a b :
  row_leb a b = true -> row_leb b a = true -> a = b.
Proof.
  rewrite !row_leb_iff. destruct a as [y l], b as [y' l']. simpl.
  intros [H|[E H]] [H'|[E' H']]; try lia.
  subst. f_equal. now apply String.leb_antisym.
Qed.

Lemma sorted_perm_eq {A} (R : A -> A -> Prop) :
  (forall a b, R a b -> R b a -> a = b) ->
  forall l l', StronglySorted R l -> StronglySorted R l' ->
               Permutation l l' -> l = l'.
Proof.
  intros antisym. induction l as [|a l IH]; intros l' S S' P.
  - apply Permutation_nil in P. now subst.
  - destruct l' as [|b l'].
    + symmetry in P. now apply Permutation_nil in P.
    + apply StronglySorted_inv in S as [S Fa].
      apply StronglySorted_inv in S' as [S' Fb].
      rewrite Forall_forall in Fa, Fb.
      assert (a = b) as <-.
      { assert (Hb : In b (a :: l))
          by (apply (Permutation_in _ (Permutation_sym P)); now left).
        assert (Ha : In a (b :: l'))
          by (apply (Permutation_in _ P); now left).
        destruct Hb as [Hb|Hb]; [exact Hb|].
        destruct Ha as [Ha|Ha]; [now symmetry|].
        apply antisym; auto. }
      f_equal. apply IH; try assumption.
      now apply Permutation_cons_inv in P.
Qed.

Lemma year_rows_perm rs rs' :
  Permutation rs rs' ->
  match year_rows float_text (mkFrame true true rs),
        year_rows float_text (mkFrame true true rs') with
  | Py.Ok t, Py.Ok t' => Permutation t t'
  | Py.ValueError, Py.ValueError => True
  | _, _ => False
  end.
Proof.
  intros P. unfold year_rows. cbn [rows].
  pose proof (astype_int_rows_perm _ _
                (Permutation_filter (fun r => negb (isnan (fst r))) _ _
                   (Permutation_map
                      (fun r => (to_numeric float_text (YEAR r), LISTING r))
                      P))) as H.
  destruct (astype_int_rows _), (astype_int_rows _); simpl;
    try contradiction; try exact I.
  now apply Permutation_filter, Permutation_map.
Qed.

(** X23: with a YEAR column the outcome of the aggregator does not depend
    on the order of the rows of the table. *)
Theorem format_year_listing_row_order (rs rs' : list row) :
  Permutation rs rs' ->
  format_year_listing float_text (mkFrame true true rs) =
  format_year_listing float_text (mkFrame true true rs').
Proof.
  intros P. unfold format_year_listing.
  cbn [has_YEAR has_LISTING negb andb].
  pose proof (year_rows_perm rs rs' P) as H.
  destruct (year_rows float_text (mkFrame true true rs)) as [t| |],
           (year_rows float_text (mkFrame true true rs')) as [t'| |];
    try contradiction; try reflexivity.
  cbn [Py.bind].
  assert (S : sort_values t = sort_values t').
  { apply (sorted_perm_eq row_le).
    - exact row_leb_antisym.
    - apply (stable_sort_sorted row_leb row_leb_total row_leb_trans).
    - apply (stable_sort_sorted row_leb row_leb_total row_leb_trans).
    - unfold sort_values. now rewrite !stable_sort_perm. }
  destruct t as [|p t], t' as [|p' t'].
  - reflexivity.
  - now apply Permutation_nil in H.
  - symmetry in H. now apply Permutation_nil in H.
  - now rewrite S.
Qed.


End Report_facts.

Lemma format_year_listing_texts_nonempty_witness :
  Forall (fun r : year_row => snd r <> EmptyString)
         [(Py.PInt 1980, "Acme Co"); (Py.PInt 1981, "Zed Ltd")].
Proof.
  apply (format_year_listing_texts_nonempty (fun _ => NumNaN)
           (mkFrame true true
              [mkRow "12 Oak St" (CInt 1981) (CStr "Zed Ltd");
               mkRow "12 Oak St" (CInt 1980) (CStr "   ");
               mkRow "12 Oak St" (CInt 1980) (CStr "Acme Co")])).
  reflexivity.
Defined.

Lemma report_builders_return_witness :
  (exists table,
     build_subject_report_docx (fun _ => NumNaN) ["12 Oak St"]
       (mkFrame true true [mkRow "12 Oak St" (CInt 1980) (CStr "Acme Co")]) =
     Py.Ok table) /\
  ~ (exists table,
       build_subject_report_docx (fun _ => NumNaN) ["12 Oak St"]
         (mkFrame true true [mkRow "12 Oak St" (CStr "inf") (CStr "Acme Co")]) =
       Py.Ok table).
Proof.
  split.
  - apply (proj1 (proj2 (proj2 (report_builders_return (fun _ => NumNaN)
             (mkFrame true true [mkRow "12 Oak St" (CInt 1980) (CStr "Acme Co")])
             ["12 Oak St"] (fun _ => None)))));
    repeat constructor. eexists. reflexivity.
  - intros H.
    apply (proj1 (proj2 (proj2 (report_builders_return (fun _ => NumNaN)
             (mkFrame true true [mkRow "12 Oak St" (CStr "inf") (CStr "Acme Co")])
             ["12 Oak St"] (fun _ => None))))) in H.
    inversion H as [|? ? [out E] _]. discriminate E.
Defined.

Lemma build_adjoining_report_docx_rows_witness :
  exists rows,
    [adjoining_header; ("North", "12 Oak St", "Acme Co (1980)")] =
      adjoining_header :: rows /\
    map (fun r => snd (fst r)) rows = ["12 Oak St"] /\
    map (fun r => fst (fst r)) rows = ["North"].
Proof.
  apply (build_adjoining_report_docx_rows (fun _ => NumNaN)
           (mkFrame true true [mkRow "12 Oak St" (CInt 1980) (CStr "Acme Co")])
           ["12 Oak St"]
           (fun a => if String.eqb a "12 Oak St" then Some "North" else None)).
  reflexivity.
Defined.

Lemma build_subject_report_docx_rows_witness :
  exists blocks,
    [subject_header; ("1980-1981", "12 Oak St — Acme Co")] =
      subject_header :: List.concat blocks /\
    Forall2 (fun addr block =>
               block <> [] /\
               forall row : string * string, In row block ->
                 exists text, snd row = (addr ++ " — " ++ text)%string)
            ["12 Oak St"] blocks.
Proof.
  apply (build_subject_report_docx_rows (fun _ => NumNaN)
           (mkFrame true true
              [mkRow "12 Oak St" (CInt 1980) (CStr "Acme Co");
               mkRow "12 Oak St" (CInt 1981) (CStr "Acme Co")])
           ["12 Oak St"]).
  reflexivity.
Defined.

Lemma adjoining_no_results_iff_witness :
  List.length
    (adjoining_lines [(Py.PStr "1980-1981", "Acme Co"); (Py.PStr "1983", "Beta")])
  = List.length [(Py.PStr "1980-1981", "Acme Co"); (Py.PStr "1983", "Beta")].
Proof.
  apply (adjoining_no_results_iff (fun _ => NumNaN)
           (mkFrame true true
              [mkRow "12 Oak St" (CInt 1980) (CStr "Acme Co");
               mkRow "9 Elm St" (CInt 1980) (CStr "Zed");
               mkRow "12 Oak St" (CInt 1983) (CStr "Beta");
               mkRow "12 Oak St" (CInt 1981) (CStr "Acme Co")])
           "12 Oak St"
           [(Py.PInt 1980, "Acme Co"); (Py.PInt 1981, "Acme Co");
            (Py.PInt 1983, "Beta")]);
    reflexivity.
Defined.


Lemma format_year_listing_row_order_witness :
  format_year_listing (fun _ => NumNaN)
    (mkFrame true true
       [mkRow "12 Oak St" (CInt 1981) (CStr "Zed");
        mkRow "12 Oak St" (CInt 1980) (CStr "Acme Co")])
  = format_year_listing (fun _ => NumNaN)
      (mkFrame true true
         [mkRow "12 Oak St" (CInt 1980) (CStr "Acme Co");
          mkRow "12 Oak St" (CInt 1981) (CStr "Zed")]).
Proof.
  apply (format_year_listing_row_order (fun _ => NumNaN)). apply perm_swap.
Defined.

(** ** The display of one address *)

Lemma string_append_assoc (a b c : string) :
  ((a ++ b) ++ c = a ++ (b ++ c))%string.
Proof. induction a as [|x a IH]; simpl; [reflexivity|]. now rewrite IH. Qed.

Lemma render_rows_acc out_df : forall rows_html,
  render_rows out_df rows_html =
  (rows_html ++ render_rows out_df EmptyString)%string.
Proof.
  induction out_df as [|r rest IH]; intros acc; simpl.
  - clear. induction acc as [|c acc IH]; simpl; [reflexivity|]. now rewrite <- IH.
  - rewrite IH. rewrite (IH (String _ _)).
    now rewrite string_append_assoc.
Qed.

(** X24: the table shown for an address has the row "No results" when the
    aggregator has no row for it, and otherwise the rows of the aggregator
    and not that row. *)
Theorem render_tbody_no_results :
  render_tbody [] = no_results_row /\
  (forall r rest,
     render_tbody (r :: rest) = render_rows (r :: rest) EmptyString /\
     render_tbody (r :: rest) <> no_results_row).
Proof.
  split; [reflexivity|]. intros r rest.
  assert (E : exists u,
    render_rows (r :: rest) EmptyString =
    ("<tr><td>" ++ (Py.strip (Py.str (fst r)) ++ String "<" u))%string).
  { cbn [render_rows]. rewrite render_rows_acc.
    eexists. cbn [append]. rewrite !string_append_assoc. cbn [append].
    reflexivity. }
  destruct E as [u E].
  assert (T : render_tbody (r :: rest) = render_rows (r :: rest) EmptyString).
  { unfold render_tbody. rewrite E. reflexivity. }
  split; [exact T|]. rewrite T, E. intros H.
  apply (f_equal (String.get 7)) in H. discriminate H.
Qed.


(** ** The key of an address without unit marker *)

Lemma not_hash_upper_char c : not_hash (Py.upper_char c) = not_hash c.
Proof. destruct c as [[] [] [] [] [] [] [] []]; reflexivity. Qed.

Lemma not_hash_digit c : Py.isdigit c = true -> not_hash c = true.
Proof. destruct c as [[] [] [] [] [] [] [] []]; vm_compute; congruence. Qed.

Lemma all_chars_app p a b :
  all_chars p (a ++ b) = all_chars p a && all_chars p b.
Proof.
  induction a as [|c a IH]; simpl; [reflexivity|].
  now rewrite IH, andb_assoc.
Qed.

Lemma not_hash_upper s : all_chars not_hash (Py.upper s) = all_chars not_hash s.
Proof.
  induction s as [|c s IH]; simpl; [reflexivity|].
  now rewrite not_hash_upper_char, IH.
Qed.

Lemma not_hash_lstrip s :
  all_chars not_hash s = true -> all_chars not_hash (Py.lstrip s) = true.
Proof.
  induction s as [|c s IH]; simpl; [reflexivity|]. intros H.
  destruct (Py.isspace c); [|exact H].
  apply andb_true_iff in H as [_ H]. now apply IH.
Qed.

Lemma not_hash_rstrip s :
  all_chars not_hash s = true -> all_chars not_hash (Py.rstrip s) = true.
Proof.
  induction s as [|c s IH]; simpl; [reflexivity|]. intros H.
  apply andb_true_iff in H as [Hc H]. specialize (IH H).
  destruct (Py.rstrip s); [destruct (Py.isspace c)|]; simpl in *;
    rewrite ?Hc; auto.
Qed.

Lemma not_hash_sub_ws_from f s :
  all_chars not_hash s = true ->
  all_chars not_hash (Py.sub_ws_from f s) = true.
Proof.
  revert f. induction s as [|c s IH]; intros f; simpl; [reflexivity|].
  intros H. apply andb_true_iff in H as [Hc H].
  destruct (Py.isspace c); [destruct f|].
  - now apply IH.
  - cbn [all_chars]. change (not_hash " ") with true. now apply IH.
  - cbn [all_chars]. rewrite Hc. now apply IH.
Qed.

Lemma not_hash_drop_digits s :
  all_chars not_hash s = true -> all_chars not_hash (Py.drop_digits s) = true.
Proof.
  induction s as [|c s IH]; simpl; [reflexivity|]. intros H.
  destruct (Py.isdigit c); [|exact H].
  apply andb_true_iff in H as [_ H]. now apply IH.
Qed.

Lemma search_unit_no_hash s :
  all_chars not_hash s = true -> search_unit s = None.
Proof.
  induction s as [|c s IH]; [reflexivity|]. simpl all_chars. intros H.
  apply andb_true_iff in H as [Hc H]. cbn [search_unit].
  replace (unit_here (String c s)) with (@None string); [now apply IH|].
  unfold unit_here. destruct c as [[] [] [] [] [] [] [] []]; try reflexivity.
  discriminate Hc.
Qed.

Lemma match_unit_marker_no_hash s :
  all_chars not_hash s = true -> match_unit_marker s = None.
Proof.
  intros H. apply not_hash_lstrip in H. unfold match_unit_marker.
  destruct (Py.lstrip s) as [|c t]; [reflexivity|].
  simpl in H. apply andb_true_iff in H as [Hc _].
  destruct c as [[] [] [] [] [] [] [] []]; try reflexivity. discriminate Hc.
Qed.

Lemma sub_unit_markers_fuel_no_hash n : forall s,
  all_chars not_hash s = true -> sub_unit_markers_fuel n s = s.
Proof.
  induction n as [|n IH]; intros s H; [reflexivity|].
  cbn [sub_unit_markers_fuel]. rewrite (match_unit_marker_no_hash _ H).
  destruct s as [|c s]; [reflexivity|].
  simpl in H. apply andb_true_iff in H as [_ H]. now rewrite IH.
Qed.

Lemma lstrip_sub_ws_from s : forall f,
  Py.lstrip (Py.sub_ws_from f s) = Py.sub_ws_from false (Py.lstrip s).
Proof.
  induction s as [|c s IH]; intros f; simpl; [reflexivity|].
  destruct (Py.isspace c) eqn:E.
  - destruct f; [apply IH|]. simpl. change (Py.isspace " ") with true.
    cbv iota. apply IH.
  - simpl. now rewrite E.
Qed.

Lemma lstrip_rstrip s : Py.lstrip (Py.rstrip s) = Py.rstrip (Py.lstrip s).
Proof.
  induction s as [|c s IH]; simpl; [reflexivity|].
  destruct (Py.isspace c) eqn:E.
  - rewrite <- IH. destruct (Py.rstrip s); simpl; [reflexivity|].
    now rewrite E.
  - simpl. destruct (Py.rstrip s); simpl; now rewrite E.
Qed.

Lemma drop_digits_app ds z :
  all_chars Py.isdigit ds = true -> head_is Py.isdigit z = false ->
  Py.drop_digits (ds ++ z) = z.
Proof.
  induction ds as [|c ds IH]; simpl; intros H Hz.
  - destruct z as [|c z]; [reflexivity|]. simpl in Hz. simpl. now rewrite Hz.
  - apply andb_true_iff in H as [Hc H]. rewrite Hc. now apply IH.
Qed.

Lemma match_house_take addr :
  head_is Py.isdigit (Py.lstrip addr) = false ->
  Py.take_digits (Py.lstrip (Py.upper (normalize_addr addr))) = EmptyString.
Proof.
  intros H. pose proof (match_house_no_digit addr H) as M.
  unfold match_house in M.
  destruct (Py.take_digits _); [reflexivity|discriminate].
Qed.

Lemma normal_upper_fixed s :
  Py.strip (Py.sub_ws (Py.upper (normalize_addr s))) =
  Py.upper (normalize_addr s).
Proof.
  assert (Hh : head_ok (Py.upper (normalize_addr s)) = true)
    by (rewrite head_ok_upper; apply normalize_addr_head_ok).
  assert (Ht : tidy false (Py.upper (normalize_addr s)) = true)
    by (rewrite tidy_upper; apply normalize_addr_tidy).
  unfold Py.sub_ws, Py.strip. rewrite (sub_ws_from_tidy _ _ Ht).
  rewrite (lstrip_head_ok _ Hh). exact (rstrip_tidy _ _ Ht).
Qed.

Lemma key_of_plain_address (addr ds rest : string) :
  Py.lstrip addr = (ds ++ rest)%string ->
  all_chars Py.isdigit ds = true ->
  head_is Py.isdigit rest = false ->
  all_chars not_hash addr = true ->
  parse_address_for_sort addr =
  (Py.upper (normalize_addr rest), Py.int_of_digits ds, 0,
   Py.upper (normalize_addr addr)).
Proof.
  intros E Hd Hr Hn.
  assert (Hn' : all_chars not_hash (Py.upper (normalize_addr addr)) = true).
  { rewrite not_hash_upper. unfold normalize_addr, Py.sub_ws, Py.strip.
    now apply not_hash_sub_ws_from, not_hash_rstrip, not_hash_lstrip. }
  assert (A : Py.upper (normalize_addr addr) =
              (ds ++ Py.upper (Py.sub_ws_from false (Py.rstrip rest)))%string).
  { unfold normalize_addr, Py.sub_ws, Py.strip. rewrite E.
    rewrite (rstrip_app_digits _ _ Hd), (sub_ws_app_digits _ _ Hd).
    now rewrite upper_app, (upper_digits _ Hd). }
  set (z := Py.upper (Py.sub_ws_from false (Py.rstrip rest))) in *.
  assert (Hz : head_is Py.isdigit z = false).
  { unfold z. rewrite head_is_digit_upper.
    now apply head_is_digit_sub_ws, head_is_digit_rstrip. }
  assert (Z : Py.lstrip z = Py.upper (normalize_addr rest)).
  { unfold z, normalize_addr, Py.sub_ws, Py.strip.
    now rewrite <- upper_lstrip, lstrip_sub_ws_from, lstrip_rstrip. }
  unfold parse_address_for_sort.
  rewrite (search_unit_no_hash _ Hn').
  assert (S : Py.strip (Py.sub_ws (sub_unit_markers
                (sub_house (Py.upper (normalize_addr addr))))) =
              Py.upper (normalize_addr rest)).
  { assert (N : forall t, all_chars not_hash t = true ->
                          sub_unit_markers t = t)
      by (intros t; apply sub_unit_markers_fuel_no_hash).
    destruct ds as [|d ds].
    - unfold sub_house. rewrite (match_house_take addr); [|now rewrite E].
      rewrite (N _ Hn'), normal_upper_fixed.
      simpl in E. rewrite <- E. unfold normalize_addr, Py.strip.
      now rewrite (lstrip_head_ok _ (head_ok_lstrip addr)).
    - unfold sub_house. rewrite A.
      assert (Hc : Py.isspace d = false).
      { simpl in Hd. apply andb_true_iff in Hd as [Hc _].
        now apply isdigit_not_space. }
      cbn [append Py.lstrip]. rewrite Hc.
      change (String d (ds ++ z)) with (String d ds ++ z)%string.
      rewrite (take_digits_app _ _ Hd Hz), (drop_digits_app _ _ Hd Hz), Z.
      rewrite N, normal_upper_fixed; [reflexivity|].
      rewrite <- Z. apply not_hash_lstrip.
      rewrite A, all_chars_app in Hn'. now apply andb_true_iff in Hn' as [_ ?]. }
  rewrite S. f_equal. f_equal. f_equal.
  destruct ds as [|d ds].
  - unfold match_house. rewrite (match_house_take addr); [reflexivity|].
    now rewrite E.
  - unfold match_house. rewrite A.
    assert (Hc : Py.isspace d = false).
    { simpl in Hd. apply andb_true_iff in Hd as [Hc _].
      now apply isdigit_not_space. }
    cbn [append Py.lstrip]. rewrite Hc.
    change (String d (ds ++ z)) with (String d ds ++ z)%string.
    now rewrite (take_digits_app _ _ Hd Hz).
Qed.

(** X25: for an address without "#", made of leading whitespace, a run of
    digits (possibly none) and a rest that does not begin with a digit, the
    key is the normalised upper-case rest as street name, the value of the
    digits as house number (0 without digits), the unit number 0 and the
    normalised upper-case address. *)
Theorem parse_address_for_sort_plain (addr ds rest : string) :
  Py.lstrip addr = (ds ++ rest)%string ->
  all_chars Py.isdigit ds = true ->
  head_is Py.isdigit rest = false ->
  all_chars not_hash addr = true ->
  parse_address_for_sort addr =
  (Py.upper (normalize_addr rest), Py.int_of_digits ds, 0,
   Py.upper (normalize_addr addr)).
Proof. exact (key_of_plain_address addr ds rest). Qed.

Lemma parse_address_for_sort_plain_witness :
  parse_address_for_sort "  45  Main st " =
  (Py.upper (normalize_addr "  Main st "), Py.int_of_digits "45", 0,
   Py.upper (normalize_addr "  45  Main st ")).
Proof.
  apply (parse_address_for_sort_plain "  45  Main st " "45" "  Main st ");
    reflexivity.
Defined.

Lemma find_and_combine_writes_address_only_witness :
  column "LISTING"
    (fst (find_and_combine_address_columns
            [("LOCATION", [CStr " 12  Oak St "]); ("LISTING", [CStr " Acme  Co "])]))
  = column "LISTING"
      [("LOCATION", [CStr " 12  Oak St "]); ("LISTING", [CStr " Acme  Co "])].
Proof.
  apply (proj1 (find_and_combine_writes_address_only
                  [("LOCATION", [CStr " 12  Oak St "]);
                   ("LISTING", [CStr " Acme  Co "])]) "LISTING").
  discriminate.
Defined.

Lemma load_directory_outcomes_witness :
  ["NAME"; "YEAR"] =
  columns (ingested (CsvFile [(" Name", [CStr "Acme Co"]); ("Year", [CInt 1980])])).
Proof.
  apply (proj1 (proj2 (load_directory_outcomes
           (CsvFile [(" Name", [CStr "Acme Co"]); ("Year", [CInt 1980])])))).
  reflexivity.
Defined.

(** ** The sort key of an address *)

Lemma sub_house_no_digit s :
  head_is Py.isdigit (Py.lstrip s) = false -> sub_house s = s.
Proof.
  unfold sub_house. destruct (Py.lstrip s) as [|c t]; [reflexivity|].
  simpl. now intros ->.
Qed.

Lemma sub_house_digits s ds rest :
  Py.lstrip s = (ds ++ rest)%string ->
  ds <> EmptyString ->
  all_chars Py.isdigit ds = true ->
  head_is Py.isdigit rest = false ->
  sub_house s = Py.lstrip rest.
Proof.
  intros E N D R. unfold sub_house.
  rewrite E, (take_digits_app _ _ D R), (drop_digits_app _ _ D R).
  destruct ds; [contradiction|reflexivity].
Qed.

(** [match_unit_marker] finds a marker at the head of the text: whitespace
    if any, a "#", whitespace if any, digits, all there are, and the
    whitespace after them; it gives what follows. *)
Lemma match_unit_marker_spec s r :
  match_unit_marker s = Some r <->
  exists ws ds rest,
    Py.lstrip s = String "#" (ws ++ ds ++ rest) /\
    all_chars Py.isspace ws = true /\
    ds <> EmptyString /\
    all_chars Py.isdigit ds = true /\
    head_is Py.isdigit rest = false /\
    r = Py.lstrip rest.
Proof.
  unfold match_unit_marker. split.
  - destruct (Py.lstrip s) as [|c t]; [discriminate|].
    destruct (Ascii.eqb_spec c "#") as [->|N].
    + destruct (lstrip_split t) as (ws & E & Hws).
      destruct (take_drop_digits (Py.lstrip t)) as (E2 & Hd & Hr).
      destruct (Py.take_digits (Py.lstrip t)) as [|d ds'] eqn:T;
        [discriminate|].
      intros [= <-].
      exists ws, (String d ds'), (Py.drop_digits (Py.lstrip t)).
      split; [|split; [exact Hws|split; [discriminate|repeat split; assumption]]].
      f_equal. rewrite E at 1. now rewrite <- E2.
    + intros H. exfalso.
      destruct c as [[] [] [] [] [] [] [] []]; try discriminate H.
      now apply N.
  - intros (ws & ds & rest & -> & Hws & Hne & Hd & Hr & ->).
    rewrite (lstrip_app_space _ _ Hws).
    destruct ds as [|d ds']; [contradiction|].
    assert (Hs : Py.isspace d = false).
    { simpl in Hd. apply andb_true_iff in Hd as [Hd _].
      now apply isdigit_not_space. }
    cbn [append Py.lstrip]. rewrite Hs.
    change (String d (ds' ++ rest)) with (String d ds' ++ rest)%string.
    now rewrite (take_digits_app _ _ Hd Hr), (drop_digits_app _ _ Hd Hr).
Qed.

(** C4: [parse_address_for_sort] maps every string to a key (street name in
    upper case, house number, unit number, whole address in upper case);
    the empty string has the key ("", 0, 0, ""); the house number is 0 when
    the address does not begin, after whitespace, with a digit, and is the
    value of its leading digits otherwise; the unit number is 0 when the
    upper-case address has no marker "#N", and is the number of the
    leftmost marker otherwise; the street name is the upper-case address
    without its house number and with every unit marker replaced by a
    space, in normal form, which for an address without "#" is the rest of
    the address after the house number; sorting by the key orders by street
    name, then house number, then unit number, then the whole address, as
    on the four example addresses. *)
Theorem parse_address_for_sort_key :
  parse_address_for_sort "" = ("", 0, 0, "") /\
  (forall addr,
     key_full (parse_address_for_sort addr) = Py.upper (normalize_addr addr)) /\
  (forall addr,
     head_is Py.isdigit (Py.lstrip addr) = false ->
     key_house (parse_address_for_sort addr) = 0) /\
  (forall addr,
     (forall pre t ds,
        key_full (parse_address_for_sort addr) = (pre ++ t)%string ->
        ~ unit_marker t ds) ->
     key_unit (parse_address_for_sort addr) = 0) /\
  (forall addr pre t ds,
     key_full (parse_address_for_sort addr) = (pre ++ t)%string ->
     unit_marker t ds ->
     (forall pre1 pre2 ds',
        pre = (pre1 ++ pre2)%string -> pre2 <> EmptyString ->
        ~ unit_marker (pre2 ++ t) ds') ->
     key_unit (parse_address_for_sort addr) = Py.int_of_digits ds) /\
  (forall l,
     Permutation (sort_addresses l) l /\
     StronglySorted
       (fun a b => key_le (parse_address_for_sort a) (parse_address_for_sort b))
       (sort_addresses l)) /\
  (forall k1 k2, key_le k1 k2 \/ key_le k2 k1) /\
  sort_addresses ["123 Main St #2"; "123 Main St #1"; "45 Main St"; "123 Elm St"]
  = ["123 Elm St"; "45 Main St"; "123 Main St #1"; "123 Main St #2"] /\
  (forall addr ds rest,
     Py.lstrip addr = (ds ++ rest)%string ->
     ds <> EmptyString ->
     all_chars Py.isdigit ds = true ->
     head_is Py.isdigit rest = false ->
     key_house (parse_address_for_sort addr) = Py.int_of_digits ds) /\
  (forall addr ds rest,
     Py.lstrip addr = (ds ++ rest)%string ->
     all_chars Py.isdigit ds = true ->
     head_is Py.isdigit rest = false ->
     all_chars not_hash addr = true ->
     parse_address_for_sort addr =
     (Py.upper (normalize_addr rest), Py.int_of_digits ds, 0,
      Py.upper (normalize_addr addr))) /\
  (forall addr,
     key_street (parse_address_for_sort addr) =
     Py.strip (Py.sub_ws (sub_unit_markers
       (sub_house (key_full (parse_address_for_sort addr)))))) /\
  (forall s, head_is Py.isdigit (Py.lstrip s) = false -> sub_house s = s) /\
  (forall s ds rest,
     Py.lstrip s = (ds ++ rest)%string ->
     ds <> EmptyString ->
     all_chars Py.isdigit ds = true ->
     head_is Py.isdigit rest = false ->
     sub_house s = Py.lstrip rest) /\
  (forall s,
     sub_unit_markers s =
     match match_unit_marker s with
     | Some rest => String " " (sub_unit_markers rest)
     | None =>
         match s with
         | EmptyString => EmptyString
         | String c s' => String c (sub_unit_markers s')
         end
     end) /\
  (forall s r,
     match_unit_marker s = Some r <->
     exists ws ds rest,
       Py.lstrip s = String "#" (ws ++ ds ++ rest) /\
       all_chars Py.isspace ws = true /\
       ds <> EmptyString /\
       all_chars Py.isdigit ds = true /\
       head_is Py.isdigit rest = false /\
       r = Py.lstrip rest) /\
  parse_address_for_sort "123 Main St #2" =
    ("MAIN ST", 123, 2, "123 MAIN ST #2") /\
  parse_address_for_sort "12 oak  #3 rear #4" =
    ("OAK REAR", 12, 3, "12 OAK #3 REAR #4") /\
  parse_address_for_sort "45 Main St" = ("MAIN ST", 45, 0, "45 MAIN ST").
Proof.
  split; [reflexivity|]. split; [reflexivity|].
  split; [|split; [|split; [|split; [exact sort_addresses_sorted|
                                      split; [exact key_le_total|
                                              split; [reflexivity|]]]]]].
  - intros addr H. unfold parse_address_for_sort, key_house. cbn [fst snd].
    now rewrite (match_house_no_digit addr H).
  - intros addr H. unfold parse_address_for_sort, key_unit, key_full in *.
    cbn [fst snd] in *. rewrite search_unit_none; [reflexivity|].
    intros pre t E. destruct (unit_here t) as [ds|] eqn:U; [|reflexivity].
    apply unit_here_spec in U. exfalso. exact (H pre t ds E U).
  - intros addr pre t ds E U Hfirst.
    unfold parse_address_for_sort, key_unit, key_full in *.
    cbn [fst snd] in *. rewrite E.
    rewrite (search_unit_first pre t ds); [reflexivity| |].
    + now apply unit_here_spec.
    + intros pre1 pre2 E1 N.
      destruct (unit_here (pre2 ++ t)) as [ds'|] eqn:U'; [|reflexivity].
      apply unit_here_spec in U'. exfalso. exact (Hfirst pre1 pre2 ds' E1 N U').
  - split; [exact key_house_of_digits|].
    split; [exact key_of_plain_address|].
    split; [reflexivity|].
    split; [exact sub_house_no_digit|].
    split; [exact sub_house_digits|].
    split; [exact sub_unit_markers_step|].
    split; [exact match_unit_marker_spec|].
    repeat split.
Qed.

Lemma parse_address_for_sort_key_witness :
  key_house (parse_address_for_sort "Main St #2") = 0 /\
  key_unit (parse_address_for_sort " 12 oak #3 #4") = Py.int_of_digits "3" /\
  key_house (parse_address_for_sort " 045 Main St #2") = Py.int_of_digits "045" /\
  parse_address_for_sort "  45  Main st " =
    (Py.upper (normalize_addr "  Main st "), Py.int_of_digits "45", 0,
     Py.upper (normalize_addr "  45  Main st ")) /\
  sub_house "12 OAK #3" = Py.lstrip " OAK #3".
Proof.
  pose proof parse_address_for_sort_key
    as (_ & _ & H & _ & U & _ & _ & _ & D & P & _ & _ & S & _).
  split; [|split; [|split; [|split]]].
  - apply H. reflexivity.
  - apply (U " 12 oak #3 #4" "12 OAK " "#3 #4" "3").
    + reflexivity.
    + exists EmptyString, " #4". repeat split. discriminate.
    + intros pre1 pre2 ds' E N (ws & rest & E' & _).
      destruct pre2 as [|c pre2]; [contradiction|].
      injection E' as -> _.
      assert (In "#"%char (list_ascii_of_string "12 OAK ")).
      { rewrite E. clear. induction pre1; simpl; auto. }
      simpl in H0. intuition discriminate.
  - apply (D " 045 Main St #2" "045" " Main St #2");
      [reflexivity|discriminate|reflexivity|reflexivity].
  - apply (P "  45  Main st " "45" "  Main st "); reflexivity.
  - apply (S "12 OAK #3" "12" " OAK #3");
      [reflexivity|discriminate|reflexivity|reflexivity].
Defined.
